(** * N-gram search query analyzer: a shallow embedding and its properties

  The development embeds the n-gram analyzer script of the repository
  (scripts/search-query-mining/n-gram-analyzer.js): [getSearchQueryData],
  [analyzeNgrams], [generateRecommendations] and [main].

  Modelling conventions.
  - A JavaScript number that is read from the report or summed from such
    numbers is a canonical rational ([Qc]); sums are exact.  A quotient is a
    [jsnum], which also has the values a JavaScript division can produce
    when the denominator is zero ([NaN], [PInf], [NInf]).
  - A string is a [string] of 8-bit characters; the queries are taken to be
    ASCII, so that [toLowerCase] and the class [\s] are the ASCII ones.
  - A JavaScript object used as a dictionary is the list of its own
    properties in insertion order, together with the property names every
    object inherits from [Object.prototype].  Enumeration follows the
    insertion order (an engine enumerates integer-like names first); no
    statement below depends on the order of enumeration. *)

From Stdlib Require Import List String Ascii Bool Arith ZArith Lia.
From Stdlib Require Import QArith Qcanon.
From Stdlib Require Import Permutation Sorted.
Import ListNotations.

Local Open Scope string_scope.
Local Open Scope Z_scope.

(* ================================================================== *)
(** ** JavaScript numbers *)
(* ================================================================== *)

Module JsNum.

(** The result of a JavaScript arithmetic expression: a finite number or
    one of the three non-finite values. *)
Inductive jsnum : Type :=
| Fin (q : Qc)
| PInf
| NInf
| NaN.

Definition zeroQ : Qc := Q2Qc 0.

Definition Qcleb (x y : Qc) : bool := Qle_bool x y.
Definition Qcltb (x y : Qc) : bool := negb (Qle_bool y x).
Definition Qceqb (x y : Qc) : bool := Qeq_bool x y.

(** [a / b] on finite operands. *)
Definition jsdiv (a b : Qc) : jsnum :=
  if Qceqb b zeroQ then
    if Qceqb a zeroQ then NaN
    else if Qcltb zeroQ a then PInf else NInf
  else Fin (a / b)%Qc.

(** [x >= t], [x <= t] and [x > t] for a finite right operand [t]; every
    comparison with [NaN] is false. *)
Definition geb (x : jsnum) (t : Qc) : bool :=
  match x with
  | Fin q => Qcleb t q
  | PInf => true
  | NInf => false
  | NaN => false
  end.

Definition leb (x : jsnum) (t : Qc) : bool :=
  match x with
  | Fin q => Qcleb q t
  | PInf => false
  | NInf => true
  | NaN => false
  end.

Definition gtb (x : jsnum) (t : Qc) : bool :=
  match x with
  | Fin q => Qcltb t q
  | PInf => true
  | NInf => false
  | NaN => false
  end.

Definition isFinite (x : jsnum) : bool :=
  match x with Fin _ => true | _ => false end.

End JsNum.
Import JsNum.

(* ================================================================== *)
(** ** Strings and arrays *)
(* ================================================================== *)

Module JsString.

(** The characters matched by [\s] in the ASCII range. *)
Definition isWhitespace (c : ascii) : bool :=
  let n := nat_of_ascii c in
  ((9 <=? n)%nat && (n <=? 13)%nat) || (n =? 32)%nat.

Definition lowerChar (c : ascii) : ascii :=
  let n := nat_of_ascii c in
  if ((65 <=? n)%nat && (n <=? 90)%nat) then ascii_of_nat (n + 32) else c.

(** [String.prototype.toLowerCase]. *)
Fixpoint toLowerCase (s : string) : string :=
  match s with
  | EmptyString => EmptyString
  | String c rest => String (lowerChar c) (toLowerCase rest)
  end.

Definition startsWithWhitespace (s : string) : bool :=
  match s with
  | EmptyString => false
  | String c _ => isWhitespace c
  end.

(** [s.split(/\s+/)]: the pieces between maximal runs of whitespace; a
    leading or trailing run leaves an empty piece, and the empty string
    splits into one empty piece. *)
Fixpoint splitWhitespace (s : string) : list string :=
  match s with
  | EmptyString => [EmptyString]
  | String c rest =>
      let pieces := splitWhitespace rest in
      if isWhitespace c then
        if startsWithWhitespace rest then pieces else EmptyString :: pieces
      else
        match pieces with
        | [] => [String c EmptyString]
        | p :: ps => String c p :: ps
        end
  end.

(** [s.split(sep)] for a one-character separator. *)
Fixpoint splitChar (sep : ascii) (s : string) : list string :=
  match s with
  | EmptyString => [EmptyString]
  | String c rest =>
      let pieces := splitChar sep rest in
      if Ascii.eqb c sep then EmptyString :: pieces
      else
        match pieces with
        | [] => [String c EmptyString]
        | p :: ps => String c p :: ps
        end
  end.

(** [arr.join(sep)]. *)
Fixpoint join (sep : string) (l : list string) : string :=
  match l with
  | [] => EmptyString
  | [x] => x
  | x :: rest => x ++ sep ++ join sep rest
  end.

(** The relative index of [Array.prototype.slice]: a negative index counts
    from the end, and the result is clamped to [0 .. len]. *)
Definition relativeIndex (len k : Z) : Z :=
  if k <? 0 then Z.max (len + k) 0 else Z.min k len.

(** [arr.slice(start, stop)]. *)
Definition slice {A : Type} (l : list A) (start stop : Z) : list A :=
  let len := Z.of_nat (List.length l) in
  let from := relativeIndex len start in
  let to := relativeIndex len stop in
  firstn (Z.to_nat (to - from)) (skipn (Z.to_nat from) l).

Definition hasChar (c : ascii) (s : string) : bool :=
  existsb (Ascii.eqb c) (list_ascii_of_string s).

Definition hasWhitespace (s : string) : bool :=
  existsb isWhitespace (list_ascii_of_string s).

End JsString.
Import JsString.

(* ================================================================== *)
(** ** Objects used as dictionaries *)
(* ================================================================== *)

Module JsObject.

(** The own properties of an object, in insertion order. *)
Definition obj (A : Type) : Type := list (string * A).

(** The property names every plain object inherits from
    [Object.prototype]; the value found under each of them is a function
    or an object, hence truthy. *)
Definition prototypeKeys : list string :=
  [ "constructor"; "__defineGetter__"; "__defineSetter__";
    "hasOwnProperty"; "__lookupGetter__"; "__lookupSetter__";
    "isPrototypeOf"; "propertyIsEnumerable"; "toString"; "valueOf";
    "__proto__"; "toLocaleString" ].

Definition inPrototype (key : string) : bool :=
  existsb (String.eqb key) prototypeKeys.

Section Own.
Context {A : Type}.

Fixpoint getOwn (key : string) (o : obj A) : option A :=
    match o with
    | [] => None
    | (k, v) :: rest => if String.eqb k key then Some v else getOwn key rest
    end.

  (** [o[key] = v]: replaces the own property in place, or appends it. *)
Fixpoint setOwn (key : string) (v : A) (o : obj A) : obj A :=
    match o with
    | [] => [(key, v)]
    | (k, w) :: rest =>
        if String.eqb k key then (k, v) :: rest
        else (k, w) :: setOwn key v rest
    end.

  (** An in-place update of the object stored under [key]; when [key] is
      not an own property the store of own properties is unchanged. *)
Fixpoint updateOwn (key : string) (f : A -> A) (o : obj A) : obj A :=
    match o with
    | [] => []
    | (k, w) :: rest =>
        if String.eqb k key then (k, f w) :: rest
        else (k, w) :: updateOwn key f rest
    end.

  (** The truth value of [o[key]] when every own value is an object. *)
Definition truthyAt (key : string) (o : obj A) : bool :=
    match getOwn key o with
    | Some _ => true
    | None => inPrototype key
    end.

Definition keys (o : obj A) : list string := map fst o.

End Own.

End JsObject.
Import JsObject.

(* ================================================================== *)
(** ** The data of the analyzer *)
(* ================================================================== *)

(** The [CONFIG] object, restricted to the settings the analysis reads. *)
Record config : Type := mkConfig {
  MIN_IMPRESSIONS : Qc;
  MIN_CLICKS : Qc;
  NGRAM_SIZES : list Z;
  HIGH_CTR_THRESHOLD : Qc;
  LOW_CTR_THRESHOLD : Qc;
  HIGH_CONV_RATE : Qc;
  HIGH_CPA_MULTIPLIER : Qc;
  TARGET_CPA : Qc;
  STOP_WORDS : list string
}.

(** A row of the search query performance report, its numeric columns
    already read as numbers. *)
Module Row.
Record t : Type := mk {
  Query : string;
  CampaignName : string;
  Impressions : Qc;
  Clicks : Qc;
  Cost : Qc;
  Conversions : Qc;
  ConversionValue : Qc
}.
End Row.

(** An element of [queryData]. *)
Module Query.
Record t : Type := mk {
  query : string;
  campaign : string;
  impressions : Qc;
  clicks : Qc;
  cost : Qc;
  conversions : Qc;
  conversionValue : Qc
}.
End Query.

(** The object stored under an n-gram: the running totals and, once the
    pass over the queries is over, the five derived metrics. *)
Module Ngram.
Record totals : Type := mkTotals {
  ngram : string;
  queries : Z;
  impressions : Qc;
  clicks : Qc;
  cost : Qc;
  conversions : Qc;
  conversionValue : Qc
}.

Record t : Type := mk {
  sums : totals;
  ctr : jsnum;
  cpc : jsnum;
  convRate : jsnum;
  cpa : jsnum;
  roas : jsnum
}.
End Ngram.

(** An element of the [keywords] list. *)
Module Keyword.
Record t : Type := mk {
  ngram : string;
  size : Z;
  reason : string;
  impressions : Qc;
  clicks : Qc;
  ctr : jsnum;
  conversions : Qc;
  convRate : jsnum;
  cpa : jsnum
}.
End Keyword.

(** An element of the [negatives] list. *)
Module Negative.
Record t : Type := mk {
  ngram : string;
  size : Z;
  reason : string;
  impressions : Qc;
  clicks : Qc;
  ctr : jsnum;
  cost : Qc;
  conversions : Qc;
  cpa : jsnum
}.
End Negative.

(** The value returned by [generateRecommendations]. *)
Record recommendations : Type := mkRecommendations {
  keywords : list Keyword.t;
  negatives : list Negative.t
}.

(** [ngramResults]: an object whose property names are the sizes. *)
Definition results : Type := list (Z * obj Ngram.t).

(** How a call ends: with a value, or with an exception thrown to the
    caller. *)
Inductive completion (A : Type) : Type :=
| Returned (a : A)
| Thrown (message : string).
Arguments Returned {A} a.
Arguments Thrown {A} message.

(** What a run of [main] has computed when it returns. *)
Inductive outcome : Type :=
| NoData
| Analysed (ngramResults : results) (recs : recommendations).

(* ================================================================== *)
(** ** The analyzer *)
(* ================================================================== *)

(** [arr.sort(compare)]: the elements in a stable order in which no element
    is followed by one the comparator puts strictly before it. *)
Section Sort.
Context {A : Type}.
Variable compare : A -> A -> Qc.

Fixpoint sortInsert (x : A) (sorted : list A) : list A :=
  match sorted with
  | [] => [x]
  | y :: rest =>
      if Qcltb zeroQ (compare x y) then y :: sortInsert x rest
      else x :: y :: rest
  end.

Definition jsSort (l : list A) : list A := fold_right sortInsert [] l.
End Sort.

Section Analyzer.
Variable CONFIG : config.

(** [getSearchQueryData]: one element per row of the report, with the
    query text lower-cased. *)
Definition getSearchQueryData (rows : list Row.t) : list Query.t :=
  map (fun row =>
         Query.mk (toLowerCase (Row.Query row))
                  (Row.CampaignName row)
                  (Row.Impressions row)
                  (Row.Clicks row)
                  (Row.Cost row)
                  (Row.Conversions row)
                  (Row.ConversionValue row))
      rows.

(** [acc[word] = true]; an assignment of a primitive to [__proto__] creates
    no property. *)
Definition flagWord (acc : obj bool) (word : string) : obj bool :=
  if String.eqb word "__proto__" then acc else setOwn word true acc.

(** The [stopWords] object built by [reduce]. *)
Definition stopWords : obj bool := fold_left flagWord (STOP_WORDS CONFIG) [].

(** The predicate of the [filter] call:
    [word.length > 1 && !stopWords[word]]. *)
Definition keepWord (word : string) : bool :=
  (1 <? Z.of_nat (String.length word)) && negb (truthyAt word stopWords).

(** [words]: the tokens of one element of [queryData]. *)
Definition words (query : Query.t) : list string :=
  filter keepWord (splitWhitespace (Query.query query)).

(** The tokenizer as a whole: lower-casing happens in
    [getSearchQueryData], splitting and filtering in [analyzeNgrams]. *)
Definition tokenize (raw : string) : list string :=
  filter keepWord (splitWhitespace (toLowerCase raw)).

(** [words.slice(i, i + ngramSize).join(' ')]. *)
Definition ngramAt (ws : list string) (ngramSize i : Z) : string :=
  join " " (slice ws i (i + ngramSize)).

(** The values [i] takes in
    [for (var i = 0; i <= words.length - ngramSize; i++)]. *)
Definition loopIndices (ws : list string) (ngramSize : Z) : list Z :=
  map Z.of_nat (seq 0 (Z.to_nat (Z.of_nat (List.length ws) - ngramSize + 1))).

(** The n-grams the loop produces for one token sequence, in order. *)
Definition generateNgrams (ws : list string) (ngramSize : Z) : list string :=
  map (ngramAt ws ngramSize) (loopIndices ws ngramSize).

(** The object literal created on the first occurrence of an n-gram. *)
Definition newTotals (ngram : string) : Ngram.totals :=
  Ngram.mkTotals ngram 0 zeroQ zeroQ zeroQ zeroQ zeroQ.

(** The six updates of the loop body. *)
Definition addQuery (query : Query.t) (ng : Ngram.totals) : Ngram.totals :=
  Ngram.mkTotals
    (Ngram.ngram ng)
    (Ngram.queries ng + 1)
    (Ngram.impressions ng + Query.impressions query)%Qc
    (Ngram.clicks ng + Query.clicks query)%Qc
    (Ngram.cost ng + Query.cost query)%Qc
    (Ngram.conversions ng + Query.conversions query)%Qc
    (Ngram.conversionValue ng + Query.conversionValue query)%Qc.

(** The body of the loop for one n-gram: create the entry when
    [ngrams[ngram]] is falsy, then update the object found under [ngram]
    (an inherited object is not among the own properties). *)
Definition countNgram (query : Query.t) (ngrams : obj Ngram.totals)
    (ngram : string) : obj Ngram.totals :=
  let ngrams' :=
    if negb (truthyAt ngram ngrams)
    then setOwn ngram (newTotals ngram) ngrams
    else ngrams in
  updateOwn ngram (addQuery query) ngrams'.

(** The callback of [queryData.forEach]. *)
Definition countQuery (ngramSize : Z) (ngrams : obj Ngram.totals)
    (query : Query.t) : obj Ngram.totals :=
  let ws := words query in
  fold_left (fun acc i => countNgram query acc (ngramAt ws ngramSize i))
            (loopIndices ws ngramSize) ngrams.

(** The five assignments of the derived-metrics loop. *)
Definition deriveMetrics (ng : Ngram.totals) : Ngram.t :=
  Ngram.mk ng
    (if Qcltb zeroQ (Ngram.impressions ng)
     then jsdiv (Ngram.clicks ng) (Ngram.impressions ng) else Fin zeroQ)
    (if Qcltb zeroQ (Ngram.clicks ng)
     then jsdiv (Ngram.cost ng) (Ngram.clicks ng) else Fin zeroQ)
    (if Qcltb zeroQ (Ngram.clicks ng)
     then jsdiv (Ngram.conversions ng) (Ngram.clicks ng) else Fin zeroQ)
    (if Qcltb zeroQ (Ngram.conversions ng)
     then jsdiv (Ngram.cost ng) (Ngram.conversions ng) else Fin zeroQ)
    (if Qcltb zeroQ (Ngram.cost ng)
     then jsdiv (Ngram.conversionValue ng) (Ngram.cost ng) else Fin zeroQ).

(** The totals after the pass over [queryData]. *)
Definition countAll (queryData : list Query.t) (ngramSize : Z)
    : obj Ngram.totals :=
  fold_left (countQuery ngramSize) queryData [].

Definition analyzeNgrams (queryData : list Query.t) (ngramSize : Z)
    : obj Ngram.t :=
  map (fun '(key, ng) => (key, deriveMetrics ng)) (countAll queryData ngramSize).

(** [ngramResults[size]] and [ngramResults[size] = ngrams]. *)
Fixpoint getResult (size : Z) (ngramResults : results) : option (obj Ngram.t) :=
  match ngramResults with
  | [] => None
  | (s, ngrams) :: rest =>
      if Z.eqb s size then Some ngrams else getResult size rest
  end.

Fixpoint setResult (size : Z) (ngrams : obj Ngram.t) (ngramResults : results)
    : results :=
  match ngramResults with
  | [] => [(size, ngrams)]
  | (s, old) :: rest =>
      if Z.eqb s size then (s, ngrams) :: rest
      else (s, old) :: setResult size ngrams rest
  end.

(** The object pushed onto [keywords]. *)
Definition keywordOf (size : Z) (ng : Ngram.t) : Keyword.t :=
  Keyword.mk
    (Ngram.ngram (Ngram.sums ng))
    size
    (if geb (Ngram.convRate ng) (HIGH_CONV_RATE CONFIG)
     then "High conversion rate" else "High CTR")
    (Ngram.impressions (Ngram.sums ng))
    (Ngram.clicks (Ngram.sums ng))
    (Ngram.ctr ng)
    (Ngram.conversions (Ngram.sums ng))
    (Ngram.convRate ng)
    (Ngram.cpa ng).

(** The object pushed onto [negatives]. *)
Definition negativeOf (size : Z) (ng : Ngram.t) : Negative.t :=
  Negative.mk
    (Ngram.ngram (Ngram.sums ng))
    size
    (if leb (Ngram.ctr ng) (LOW_CTR_THRESHOLD CONFIG)
     then "Low CTR" else "High CPA")
    (Ngram.impressions (Ngram.sums ng))
    (Ngram.clicks (Ngram.sums ng))
    (Ngram.ctr ng)
    (Ngram.cost (Ngram.sums ng))
    (Ngram.conversions (Ngram.sums ng))
    (Ngram.cpa ng).

(** The two tests of the loop body. *)
Definition isOpportunity (ng : Ngram.t) : bool :=
  geb (Ngram.ctr ng) (HIGH_CTR_THRESHOLD CONFIG)
  || geb (Ngram.convRate ng) (HIGH_CONV_RATE CONFIG).

Definition isNegative (ng : Ngram.t) : bool :=
  leb (Ngram.ctr ng) (LOW_CTR_THRESHOLD CONFIG)
  || (Qcltb zeroQ (TARGET_CPA CONFIG)
      && gtb (Ngram.cpa ng) (TARGET_CPA CONFIG * HIGH_CPA_MULTIPLIER CONFIG)%Qc).

(** The body of [for (var key in ngrams)] on the two arrays. *)
Definition classifyNgram (size : Z)
    (acc : list Keyword.t * list Negative.t) (ng : Ngram.t)
    : list Keyword.t * list Negative.t :=
  if Qcltb (Ngram.impressions (Ngram.sums ng)) (MIN_IMPRESSIONS CONFIG)
  then acc
  else if Qcleb (MIN_CLICKS CONFIG) (Ngram.clicks (Ngram.sums ng)) then
    let kws :=
      if isOpportunity ng then (fst acc ++ [keywordOf size ng])%list else fst acc in
    let negs :=
      if isNegative ng then (snd acc ++ [negativeOf size ng])%list else snd acc in
    (kws, negs)
  else acc.

(** The callback of [CONFIG.NGRAM_SIZES.forEach] in
    [generateRecommendations]; enumerating an undefined value runs no
    iteration. *)
Definition classifySize (ngramResults : results)
    (acc : list Keyword.t * list Negative.t) (size : Z)
    : list Keyword.t * list Negative.t :=
  match getResult size ngramResults with
  | None => acc
  | Some ngrams => fold_left (classifyNgram size) (map snd ngrams) acc
  end.

(** The two arrays as they are before sorting. *)
Definition classify (ngramResults : results)
    : list Keyword.t * list Negative.t :=
  fold_left (classifySize ngramResults) (NGRAM_SIZES CONFIG) ([], []).

Definition byConversions (a b : Keyword.t) : Qc :=
  (Keyword.conversions b - Keyword.conversions a)%Qc.

Definition byCost (a b : Negative.t) : Qc :=
  (Negative.cost b - Negative.cost a)%Qc.

(** The bound of the two [slice(0, 100)] calls. *)
Definition maxResultsPerCategory : Z := 100.

Definition generateRecommendations (ngramResults : results) : recommendations :=
  let emitted := classify ngramResults in
  mkRecommendations
    (slice (jsSort byConversions (fst emitted)) 0 maxResultsPerCategory)
    (slice (jsSort byCost (snd emitted)) 0 maxResultsPerCategory).

(** [main], without its logging and its writes to the spreadsheet. *)
Definition analyzeAll (queryData : list Query.t) : results :=
  fold_left (fun ngramResults size =>
               setResult size (analyzeNgrams queryData size) ngramResults)
            (NGRAM_SIZES CONFIG) [].

Definition main (rows : list Row.t) : completion outcome :=
  let queryData := getSearchQueryData rows in
  if (List.length queryData =? 0)%nat then Returned NoData
  else
    let ngramResults := analyzeAll queryData in
    let recs := generateRecommendations ngramResults in
    Returned (Analysed ngramResults recs).

End Analyzer.

(** The settings the script ships with. *)
Definition defaultStopWords : list string :=
  [ "a"; "an"; "the"; "and"; "or"; "but"; "in"; "on"; "at"; "to"; "for";
    "of"; "with"; "by"; "from"; "as"; "is"; "was"; "are"; "were"; "been";
    "be"; "have"; "has"; "had"; "do"; "does"; "did"; "will"; "would";
    "could"; "should"; "may"; "might"; "must"; "shall"; "can"; "need";
    "it"; "its"; "my"; "your"; "our"; "their"; "this"; "that"; "these";
    "those"; "i"; "you"; "he"; "she"; "we"; "they"; "what"; "which";
    "who"; "whom"; "how"; "when"; "where"; "why" ].

Definition defaultConfig : config :=
  mkConfig (Q2Qc 50) (Q2Qc 5) [1; 2; 3]
           (Q2Qc (5 # 100)) (Q2Qc (1 # 100)) (Q2Qc (3 # 100))
           (Q2Qc 2) (Q2Qc 0) defaultStopWords.

(* ================================================================== *)
(** ** Vocabulary of the statements *)
(* ================================================================== *)

(** The window of [n] tokens that starts at position [i]. *)
Definition window (ws : list string) (n i : nat) : list string :=
  firstn n (skipn i ws).

(** The (n-gram, query) pairs of a run: one pair per n-gram occurrence
    that the sliding window produces in a query, in the order of the run. *)
Definition occurrences (CONFIG : config) (queryData : list Query.t)
    (ngramSize : Z) : list (string * Query.t) :=
  flat_map (fun query =>
              map (fun ngram => (ngram, query))
                  (generateNgrams (words CONFIG query) ngramSize))
           queryData.

(** The queries that produce the n-gram [key], each repeated once per
    occurrence of [key] in it. *)
Definition contributors (CONFIG : config) (key : string)
    (queryData : list Query.t) (ngramSize : Z) : list Query.t :=
  map snd (filter (fun p => String.eqb (fst p) key)
                  (occurrences CONFIG queryData ngramSize)).

Definition sumQc (l : list Qc) : Qc := fold_right Qcplus zeroQ l.

(** The totals that the contributions [cs] add up to. *)
Definition totalsOf (key : string) (cs : list Query.t) : Ngram.totals :=
  Ngram.mkTotals key
    (Z.of_nat (List.length cs))
    (sumQc (map Query.impressions cs))
    (sumQc (map Query.clicks cs))
    (sumQc (map Query.cost cs))
    (sumQc (map Query.conversions cs))
    (sumQc (map Query.conversionValue cs)).

(** One more contribution to the totals found under a key, if any. *)
Definition bump (key : string) (found : option Ngram.totals)
    (query : Query.t) : option Ngram.totals :=
  Some (addQuery query
          (match found with Some ng => ng | None => newTotals key end)).

(** What every token of a query satisfies. *)
Definition goodToken (CONFIG : config) (w : string) : Prop :=
  (1 < String.length w)%nat /\ ~ In w (STOP_WORDS CONFIG)
  /\ inPrototype w = false /\ hasChar " "%char w = false.

(** The number of times the sliding window of size [n] produces [key] in
    one query. *)
Definition occurrencesIn (CONFIG : config) (key : string) (ngramSize : Z)
    (query : Query.t) : nat :=
  count_occ string_dec (generateNgrams (words CONFIG query) ngramSize) key.

(** The data model of the report: no metric of a query is negative. *)
Definition nonNegative (query : Query.t) : Prop :=
  (zeroQ <= Query.impressions query)%Qc /\
  (zeroQ <= Query.clicks query)%Qc /\
  (zeroQ <= Query.cost query)%Qc /\
  (zeroQ <= Query.conversions query)%Qc /\
  (zeroQ <= Query.conversionValue query)%Qc.

(** The quotient [a / b], and zero when the denominator is zero. *)
Definition ratioOrZero (a b : Qc) : Qc :=
  if Qceqb b zeroQ then zeroQ else (a / b)%Qc.

(** The two volume tests every recommendation has passed:
    [impressions >= MIN_IMPRESSIONS] and [clicks >= MIN_CLICKS]. *)
Definition eligible (CONFIG : config) (ng : Ngram.t) : bool :=
  negb (Qcltb (Ngram.impressions (Ngram.sums ng)) (MIN_IMPRESSIONS CONFIG))
  && Qcleb (MIN_CLICKS CONFIG) (Ngram.clicks (Ngram.sums ng)).

(** What the loop body pushes for one aggregate. *)
Definition keywordsFor (CONFIG : config) (size : Z) (ng : Ngram.t)
    : list Keyword.t :=
  if eligible CONFIG ng && isOpportunity CONFIG ng
  then [keywordOf CONFIG size ng] else [].

Definition negativesFor (CONFIG : config) (size : Z) (ng : Ngram.t)
    : list Negative.t :=
  if eligible CONFIG ng && isNegative CONFIG ng
  then [negativeOf CONFIG size ng] else [].

(** The aggregates the classifier visits for one size, in the order of the
    visit. *)
Definition aggregatesOf (ngramResults : results) (size : Z) : list Ngram.t :=
  match getResult size ngramResults with
  | None => []
  | Some ngrams => map snd ngrams
  end.


Definition jsnum_eq_dec (x y : jsnum) : {x = y} + {x <> y}.
Proof. decide equality. apply Qc_eq_dec. Defined.


Definition Negative_eq_dec (x y : Negative.t) : {x = y} + {x <> y}.
Proof.
  decide equality;
    auto using jsnum_eq_dec, Qc_eq_dec, string_dec, Z.eq_dec.
Defined.

(** Descending order of the two sort keys. *)
Definition conversionsDescending (a b : Keyword.t) : Prop :=
  (Keyword.conversions b <= Keyword.conversions a)%Qc.

Definition costDescending (a b : Negative.t) : Prop :=
  (Negative.cost b <= Negative.cost a)%Qc.

(* ================================================================== *)
(** ** Sample data *)
(* ================================================================== *)

(** A report row and four elements of [queryData]. *)
Definition sampleRow : Row.t :=
  Row.mk "Buy cheap Shoes" "shop" (Q2Qc 100) (Q2Qc 10) (Q2Qc 20)
         (Q2Qc 0) (Q2Qc 0).

Definition sampleQueryA : Query.t :=
  Query.mk "buy cheap shoes" "shop" (Q2Qc 100) (Q2Qc 10) (Q2Qc 20)
           (Q2Qc 0) (Q2Qc 0).

Definition sampleQueryB : Query.t :=
  Query.mk "cheap shoes online" "shop" (Q2Qc 60) (Q2Qc 1) (Q2Qc (5 # 2))
           (Q2Qc (1 # 2)) (Q2Qc 30).

Definition sampleQueryC : Query.t :=
  Query.mk "widget" "shop" (Q2Qc 100) (Q2Qc 0) (Q2Qc 0) (Q2Qc 0) (Q2Qc 0).

Definition sampleQueryD : Query.t :=
  Query.mk "gadget" "shop" (Q2Qc 1000) (Q2Qc 5) (Q2Qc 10) (Q2Qc 0) (Q2Qc 0).

(** The aggregates that single queries leave under some of their n-grams. *)
Definition sampleEntry : Ngram.t :=
  deriveMetrics (totalsOf "cheap shoes" [sampleQueryA]).

Definition sampleEntryBuy : Ngram.t :=
  deriveMetrics (totalsOf "buy" [sampleQueryA]).


Definition sampleEntryD : Ngram.t :=
  deriveMetrics (totalsOf "gadget" [sampleQueryD]).

(** The shipped settings with an empty size list, and with the size 0. *)
Definition emptySizes : config :=
  mkConfig (Q2Qc 50) (Q2Qc 5) []
           (Q2Qc (5 # 100)) (Q2Qc (1 # 100)) (Q2Qc (3 # 100))
           (Q2Qc 2) (Q2Qc 0) defaultStopWords.

Definition zeroSize : config :=
  mkConfig (Q2Qc 50) (Q2Qc 5) [0]
           (Q2Qc (5 # 100)) (Q2Qc (1 # 100)) (Q2Qc (3 # 100))
           (Q2Qc 2) (Q2Qc 0) defaultStopWords.

(* ================================================================== *)
(** ** Further vocabulary *)
(* ================================================================== *)

Definition sumZ (l : list Z) : Z := fold_right Z.add 0 l.

(** The upper-case letters of the ASCII range. *)
Definition isUpper (c : ascii) : bool :=
  let n := nat_of_ascii c in ((65 <=? n)%nat && (n <=? 90)%nat).

Definition noUpper (s : string) : bool :=
  forallb (fun c => negb (isUpper c)) (list_ascii_of_string s).

(** The number of windows of size [n] in a query. *)
Definition windowsIn (CONFIG : config) (n : Z) (query : Query.t) : nat :=
  List.length (words CONFIG query) + 1 - Z.to_nat n.

(** The clicks of a query do not exceed its impressions. *)
Definition clicksWithinImpressions (query : Query.t) : Prop :=
  (Query.clicks query <= Query.impressions query)%Qc.

(** A count as a number. *)
Definition natQc (k : nat) : Qc := Q2Qc (inject_Z (Z.of_nat k)).

(** A finite number that is not negative, and one that is at most 1. *)
Definition finiteNonNegative (x : jsnum) : Prop :=
  match x with Fin q => (zeroQ <= q)%Qc | _ => False end.

Definition finiteAtMostOne (x : jsnum) : Prop :=
  match x with Fin q => (q <= Q2Qc 1)%Qc | _ => False end.

(** The queries that have at least [n] tokens. *)
Definition longEnough (CONFIG : config) (n : Z) (query : Query.t) : bool :=
  n <=? Z.of_nat (List.length (words CONFIG query)).

(* ================================================================== *)
(** ** The Slack table helper *)
(* ================================================================== *)

(** [arr.map(function(x, i) { ... })]. *)
Fixpoint mapiFrom {A B : Type} (f : nat -> A -> B) (i : nat) (l : list A)
    : list B :=
  match l with
  | [] => []
  | x :: rest => f i x :: mapiFrom f (S i) rest
  end.

Definition mapi {A B : Type} (f : nat -> A -> B) (l : list A) : list B :=
  mapiFrom f 0 l.

(** The line feed character. *)
Definition newline : string := String (ascii_of_nat 10) EmptyString.

(** [k] spaces. *)
Fixpoint spaces (k : nat) : string :=
  match k with
  | O => EmptyString
  | S k' => String " "%char (spaces k')
  end.

Module Slack.

(** The loop [while (str.length < len) str += ' ']; every iteration makes
    [str] one character longer, so at most [len] iterations run. *)
Fixpoint padLoop (fuel : nat) (str : string) (len : Z) : string :=
  match fuel with
  | O => str
  | S fuel' =>
      if Z.of_nat (String.length str) <? len
      then padLoop fuel' (str ++ " ") len
      else str
  end.

(** [padRight(str, len)]; [len] is [None] when the caller passes
    [undefined], and then the test of the loop is false. *)
Definition padRight (str : string) (len : option Z) : string :=
  match len with
  | None => str
  | Some n => padLoop (Z.to_nat n) str n
  end.

(** [repeat(char, count)]. *)
Definition repeat (char : string) (count : Z) : string :=
  fold_left (fun result _ => result ++ char) (seq 0 (Z.to_nat count))
            EmptyString.

(** The answer of [UrlFetchApp.fetch]: a response, or an exception. *)
Inductive fetched : Type :=
| Response (code : Z) (content : string)
| Exception (message : string).

Section Table.
(** The values in the cells, with [String(v)] and the truth value of [v]. *)
Context {V : Type}.
Variable toText : V -> string.
Variable truthy : V -> bool.

(** [String(cell || '')]. *)
Definition valueText (cell : V) : string :=
  if truthy cell then toText cell else EmptyString.

(** [String(row[i] || '')]. *)
Definition cellText (row : list V) (i : nat) : string :=
  match nth_error row i with
  | Some cell => valueText cell
  | None => EmptyString
  end.

(** The callback that computes one element of [widths]. *)
Definition columnWidth (rows : list (list V)) (i : nat) (h : V) : Z :=
  fold_left (fun maxLen row =>
               let cellLen := Z.of_nat (String.length (cellText row i)) in
               if maxLen <? cellLen then cellLen else maxLen)
            rows (Z.of_nat (String.length (toText h))).

Definition widths (headers : list V) (rows : list (list V)) : list Z :=
  mapi (columnWidth rows) headers.

Definition headerRow (headers : list V) (rows : list (list V)) : string :=
  join " | " (mapi (fun i h => padRight (toText h)
                                        (nth_error (widths headers rows) i))
                   headers).

Definition separator (headers : list V) (rows : list (list V)) : string :=
  join "-+-" (map (fun w => repeat "-" w) (widths headers rows)).

Definition dataRow (headers : list V) (rows : list (list V)) (row : list V)
    : string :=
  join " | " (mapi (fun i cell => padRight (valueText cell)
                                           (nth_error (widths headers rows) i))
                   row).

(** [lines], after the last push. *)
Definition tableLines (headers : list V) (rows : list (list V))
    : list string :=
  headerRow headers rows :: separator headers rows
  :: map (dataRow headers rows) rows.

Definition tableText (headers : list V) (rows : list (list V)) : string :=
  "```" ++ newline ++ join newline (tableLines headers rows)
  ++ newline ++ "```".

(** [sendSlackTable]; [fetch] answers the request for a URL and the text
    of the payload. *)
Definition sendSlackTable (fetch : string -> string -> fetched)
    (webhookUrl title : string) (headers : list V) (rows : list (list V))
    : bool :=
  if String.eqb webhookUrl EmptyString then false
  else
    match fetch webhookUrl
                ("*" ++ title ++ "*" ++ newline ++ tableText headers rows) with
    | Response code _ => code =? 200
    | Exception _ => false
    end.

End Table.
End Slack.

(** A table whose cells are strings: the empty string is the falsy one. *)
Definition textTruthy (s : string) : bool := negb (String.eqb s EmptyString).

Definition sampleHeaders : list string := ["N-Gram"; "Clicks"].

Definition sampleCells : list (list string) :=
  [["cheap shoes"; "11"]; ["buy"; ""]].

(* ================================================================== *)
(** ** Reporting to the spreadsheet *)
(* ================================================================== *)

(** A row of a size sheet: the array of eleven values, position by
    position ([Impressions] is position 3). *)
Module SizeRow.
Record t : Type := mk {
  Date : string;
  NGram : string;
  Queries : Z;
  Impressions : Qc;
  Clicks : Qc;
  CTR : jsnum;
  Cost : Qc;
  Conversions : Qc;
  ConvRate : jsnum;
  CPA : jsnum;
  ROAS : jsnum
}.
End SizeRow.

(** An element of the [data] that [logRecommendations] receives: an
    element of [keywords] or of [negatives]; the latter has no [convRate]
    property. *)
Module Item.
Record t : Type := mk {
  ngram : string;
  size : Z;
  reason : string;
  impressions : Qc;
  clicks : Qc;
  ctr : jsnum;
  conversions : Qc;
  convRate : option jsnum;
  cpa : jsnum
}.
End Item.

(** A row of a recommendation sheet: the array of ten values. *)
Module RecRow.
Record t : Type := mk {
  Date : string;
  NGram : string;
  Size : Z;
  Reason : string;
  Impressions : Qc;
  Clicks : Qc;
  CTR : jsnum;
  Conversions : Qc;
  ConvRate : jsnum;
  CPA : jsnum
}.
End RecRow.

Module Sheets.

(** The names of the sheets: [size + '-Grams'] and the two fixed names. *)
Inductive name : Type :=
| Grams (size : Z)
| KeywordOpportunities
| NegativeCandidates.

Definition name_eqb (a b : name) : bool :=
  match a, b with
  | Grams s, Grams s' => Z.eqb s s'
  | KeywordOpportunities, KeywordOpportunities => true
  | NegativeCandidates, NegativeCandidates => true
  | _, _ => false
  end.

Inductive row : Type :=
| Header (titles : list string)
| OfSize (r : SizeRow.t)
| OfRecommendation (r : RecRow.t).

(** A spreadsheet: its sheets in order of creation, each with its rows from
    the first to the last one. *)
Definition spreadsheet : Type := list (name * list row).

Fixpoint getSheetByName (n : name) (ss : spreadsheet) : option (list row) :=
  match ss with
  | [] => None
  | (m, rows) :: rest =>
      if name_eqb m n then Some rows else getSheetByName n rest
  end.

(** [insertSheet(n)] followed by [appendRow(titles)] on the new sheet. *)
Definition insertSheetWithHeader (n : name) (titles : list string)
    (ss : spreadsheet) : spreadsheet :=
  (ss ++ [(n, [Header titles])])%list.

(** [sheet.getRange(sheet.getLastRow() + 1, 1, rows.length, width)
    .setValues(rows)]: the rows are written below the last row. *)
Fixpoint setValuesBelowLastRow (n : name) (rows : list row)
    (ss : spreadsheet) : spreadsheet :=
  match ss with
  | [] => []
  | (m, old) :: rest =>
      if name_eqb m n then (m, (old ++ rows)%list) :: rest
      else (m, old) :: setValuesBelowLastRow n rows rest
  end.

End Sheets.

Definition sizeSheetTitles : list string :=
  [ "Date"; "N-Gram"; "Queries"; "Impressions"; "Clicks"; "CTR";
    "Cost"; "Conversions"; "Conv Rate"; "CPA"; "ROAS" ].

Definition recommendationSheetTitles : list string :=
  [ "Date"; "N-Gram"; "Size"; "Reason"; "Impressions"; "Clicks";
    "CTR"; "Conversions"; "Conv Rate"; "CPA" ].

(** [x || 0] for a number, for a quotient and for a property that may be
    missing: zero and [NaN] are falsy, and so is [undefined]. *)
Definition numberOrZero (q : Qc) : Qc :=
  if Qceqb q zeroQ then zeroQ else q.

Definition metricOrZero (x : jsnum) : jsnum :=
  match x with
  | Fin q => Fin (numberOrZero q)
  | NaN => Fin zeroQ
  | PInf => PInf
  | NInf => NInf
  end.

Definition missingOrZero (x : option jsnum) : jsnum :=
  match x with
  | Some y => metricOrZero y
  | None => Fin zeroQ
  end.

Definition itemOfKeyword (k : Keyword.t) : Item.t :=
  Item.mk (Keyword.ngram k) (Keyword.size k) (Keyword.reason k)
          (Keyword.impressions k) (Keyword.clicks k) (Keyword.ctr k)
          (Keyword.conversions k) (Some (Keyword.convRate k))
          (Keyword.cpa k).

Definition itemOfNegative (k : Negative.t) : Item.t :=
  Item.mk (Negative.ngram k) (Negative.size k) (Negative.reason k)
          (Negative.impressions k) (Negative.clicks k) (Negative.ctr k)
          (Negative.conversions k) None (Negative.cpa k).

Section Reporting.
Variable CONFIG : config.

(** The array pushed onto [rows] for one aggregate. *)
Definition sizeRowOf (dateStr : string) (ng : Ngram.t) : SizeRow.t :=
  SizeRow.mk dateStr
    (Ngram.ngram (Ngram.sums ng))
    (Ngram.queries (Ngram.sums ng))
    (Ngram.impressions (Ngram.sums ng))
    (Ngram.clicks (Ngram.sums ng))
    (Ngram.ctr ng)
    (Ngram.cost (Ngram.sums ng))
    (Ngram.conversions (Ngram.sums ng))
    (Ngram.convRate ng)
    (Ngram.cpa ng)
    (Ngram.roas ng).

(** The body of [for (var key in ngrams)] in [logResults]. *)
Definition pushSizeRow (dateStr : string) (rows : list SizeRow.t)
    (ng : Ngram.t) : list SizeRow.t :=
  if Qcltb (Ngram.impressions (Ngram.sums ng)) (MIN_IMPRESSIONS CONFIG)
  then rows
  else (rows ++ [sizeRowOf dateStr ng])%list.

(** [rows] of one size as the loop leaves it; enumerating an undefined
    value runs no iteration. *)
Definition collectSizeRows (dateStr : string) (ngrams : option (obj Ngram.t))
    : list SizeRow.t :=
  match ngrams with
  | None => []
  | Some o => fold_left (pushSizeRow dateStr) (map snd o) []
  end.

(** The comparator [b[3] - a[3]]. *)
Definition byImpressions (a b : SizeRow.t) : Qc :=
  (SizeRow.Impressions b - SizeRow.Impressions a)%Qc.

(** The callback of [CONFIG.NGRAM_SIZES.forEach] in [logResults]. *)
Definition logSize (ngramResults : results) (dateStr : string)
    (ss : Sheets.spreadsheet) (size : Z) : Sheets.spreadsheet :=
  let ss' :=
    match Sheets.getSheetByName (Sheets.Grams size) ss with
    | Some _ => ss
    | None =>
        Sheets.insertSheetWithHeader (Sheets.Grams size) sizeSheetTitles ss
    end in
  let rows := collectSizeRows dateStr (getResult size ngramResults) in
  if (0 <? List.length rows)%nat
  then Sheets.setValuesBelowLastRow (Sheets.Grams size)
         (map Sheets.OfSize (jsSort byImpressions rows)) ss'
  else ss'.

(** The callback of [data.map] in [logRecommendations]. *)
Definition recRowOf (dateStr : string) (item : Item.t) : RecRow.t :=
  RecRow.mk dateStr
    (Item.ngram item)
    (Item.size item)
    (Item.reason item)
    (Item.impressions item)
    (Item.clicks item)
    (Item.ctr item)
    (numberOrZero (Item.conversions item))
    (missingOrZero (Item.convRate item))
    (metricOrZero (Item.cpa item)).

Definition logRecommendations (ss : Sheets.spreadsheet)
    (sheetName : Sheets.name) (data : list Item.t) (dateStr : string)
    : Sheets.spreadsheet :=
  let ss' :=
    match Sheets.getSheetByName sheetName ss with
    | Some _ => ss
    | None =>
        Sheets.insertSheetWithHeader sheetName recommendationSheetTitles ss
    end in
  let rows := map (recRowOf dateStr) data in
  if (0 <? List.length rows)%nat
  then Sheets.setValuesBelowLastRow sheetName
         (map Sheets.OfRecommendation rows) ss'
  else ss'.

(** [logResults]; [dateStr] is the formatted date of the run. *)
Definition logResults (ngramResults : results) (recs : recommendations)
    (dateStr : string) (ss : Sheets.spreadsheet) : Sheets.spreadsheet :=
  let ss1 := fold_left (logSize ngramResults dateStr) (NGRAM_SIZES CONFIG) ss in
  let ss2 :=
    logRecommendations ss1 Sheets.KeywordOpportunities
                       (map itemOfKeyword (keywords recs)) dateStr in
  logRecommendations ss2 Sheets.NegativeCandidates
                     (map itemOfNegative (negatives recs)) dateStr.

End Reporting.

(** The rows of a sheet below its first row hold no header. *)
Definition isHeader (r : Sheets.row) : bool :=
  match r with Sheets.Header _ => true | _ => false end.

Definition headedSheet (rows : list Sheets.row) : Prop :=
  exists titles data,
    rows = Sheets.Header titles :: data
    /\ forallb (fun r => negb (isHeader r)) data = true.

(** The names of the sheets the run writes to. *)
Definition reportSheets (CONFIG : config) : list Sheets.name :=
  (map Sheets.Grams (NGRAM_SIZES CONFIG)
   ++ [Sheets.KeywordOpportunities; Sheets.NegativeCandidates])%list.

(** Descending order of position 3 of the rows of a size sheet. *)
Definition impressionsDescending (a b : SizeRow.t) : Prop :=
  (SizeRow.Impressions b <= SizeRow.Impressions a)%Qc.

(** The rows written to a size sheet by one run. *)
Definition sizeRows (CONFIG : config) (dateStr : string)
    (ngrams : option (obj Ngram.t)) : list SizeRow.t :=
  jsSort byImpressions (collectSizeRows CONFIG dateStr ngrams).

(** The rows of a sheet once [added] has been written to it: below the rows
    it had, or below the header of a sheet that the run creates. *)
Definition written (titles : list string) (before : option (list Sheets.row))
    (added : list Sheets.row) : list Sheets.row :=
  (match before with
   | Some old => old
   | None => [Sheets.Header titles]
   end ++ added)%list.

(** The test that admits an aggregate to its size sheet. *)
Definition reported (CONFIG : config) (ng : Ngram.t) : bool :=
  negb (Qcltb (Ngram.impressions (Ngram.sums ng)) (MIN_IMPRESSIONS CONFIG)).

Definition headerFree (rows : list Sheets.row) : bool :=
  forallb (fun r => negb (isHeader r)) rows.

(** [ss'] has every sheet of [ss], with the same rows followed by rows that
    are no headers; a sheet that only [ss'] has starts with its header. *)
Definition appendOnly (ss ss' : Sheets.spreadsheet) : Prop :=
  forall n,
    match Sheets.getSheetByName n ss with
    | Some old =>
        exists added,
          Sheets.getSheetByName n ss' = Some (old ++ added)%list
          /\ headerFree added = true
    | None =>
        Sheets.getSheetByName n ss' = None
        \/ exists rows,
             Sheets.getSheetByName n ss' = Some rows /\ headedSheet rows
    end.

(** The items that a run logs on the two recommendation sheets. *)
Definition loggedItems (recs : recommendations) : list Item.t :=
  (map itemOfKeyword (keywords recs)
   ++ map itemOfNegative (negatives recs))%list.

Definition sampleSheet : Sheets.spreadsheet :=
  [(Sheets.Grams 1,
    [Sheets.Header sizeSheetTitles;
     Sheets.OfSize (SizeRow.mk "2024-01-01" "shoes" 1 (Q2Qc 80) (Q2Qc 4)
                               (Fin (Q2Qc (1 # 20))) (Q2Qc 3) (Q2Qc 0)
                               (Fin (Q2Qc 0)) (Fin (Q2Qc 0))
                               (Fin (Q2Qc 0)))])].

(** The n-gram made of all tokens of a key but the last one. *)
Definition prefixKey (n : Z) (key : string) : string :=
  join " " (firstn (Z.to_nat n) (splitChar " "%char key)).

(** What the negative test reads of a record: its text and its two integer
    counts. *)
Definition recordCore (query : Query.t) : string * Qc * Qc :=
  (Query.query query, Query.impressions query, Query.clicks query).

(** A negative candidate without its cost, conversions and CPA. *)
Definition negativeCore (r : Negative.t)
    : string * Z * string * Qc * Qc * jsnum :=
  (Negative.ngram r, Negative.size r, Negative.reason r,
   Negative.impressions r, Negative.clicks r, Negative.ctr r).

(** The number of times the sliding window of size [n] produces [key] in a
    query text. *)
Definition occurrencesOfText (CONFIG : config) (key : string) (n : Z)
    (text : string) : nat :=
  count_occ string_dec
            (generateNgrams (filter (keepWord CONFIG) (splitWhitespace text))
                            n)
            key.

(** A query with the text and the counts of [sampleQueryD] and other
    amounts. *)
Definition sampleQueryE : Query.t :=
  Query.mk "gadget" "other" (Q2Qc 1000) (Q2Qc 5) (Q2Qc (7 # 10)) (Q2Qc 1)
           (Q2Qc 3).

(** The entry that the aggregator leaves under a key. *)
Definition entryOf (CONFIG : config) (queryData : list Query.t) (n : Z)
    (key : string) : Ngram.t :=
  deriveMetrics (totalsOf key (contributors CONFIG key queryData n)).

(* ================================================================== *)
(** ** Facts about numbers *)
(* ================================================================== *)

Lemma Qcleb_le (x y : Qc) : Qcleb x y = true <-> (x <= y)%Qc.
Proof. unfold Qcleb, Qcle. apply Qle_bool_iff. Qed.

Lemma Qcltb_lt (x y : Qc) : Qcltb x y = true <-> (x < y)%Qc.
Proof.
  unfold Qcltb, Qclt. rewrite negb_true_iff.
  split; intro H.
  - apply Qnot_le_lt. intro Hle. apply Qle_bool_iff in Hle. congruence.
  - destruct (Qle_bool y x) eqn:E; [|reflexivity].
    apply Qle_bool_iff in E. exfalso. exact (Qlt_not_le _ _ H E).
Qed.

Lemma Qceqb_eq (x y : Qc) : Qceqb x y = true <-> x = y.
Proof.
  unfold Qceqb. rewrite Qeq_bool_iff. split.
  - apply Qc_is_canon.
  - intros ->. reflexivity.
Qed.

Lemma Qceqb_neq (x y : Qc) : Qceqb x y = false <-> x <> y.
Proof.
  rewrite <- Qceqb_eq. destruct (Qceqb x y); split; congruence.
Qed.

Lemma Qcltb_false_le (x y : Qc) : Qcltb x y = false <-> (y <= x)%Qc.
Proof.
  unfold Qcltb. rewrite negb_false_iff. apply Qcleb_le.
Qed.

Lemma Qcleb_false_lt (x y : Qc) : Qcleb x y = false <-> (y < x)%Qc.
Proof.
  rewrite <- Qcltb_lt. unfold Qcltb, Qcleb.
  destruct (Qle_bool x y); simpl; split; congruence.
Qed.

Lemma jsdiv_nonzero (a b : Qc) : b <> zeroQ -> jsdiv a b = Fin (a / b)%Qc.
Proof.
  intro Hb. unfold jsdiv.
  destruct (Qceqb b zeroQ) eqn:E; [|reflexivity].
  apply Qceqb_eq in E. contradiction.
Qed.

Lemma Qclt_neq_zero (x : Qc) : (zeroQ < x)%Qc -> x <> zeroQ.
Proof.
  intros Hlt Heq. subst x. exact (Qclt_not_eq _ _ Hlt eq_refl).
Qed.

(* ================================================================== *)
(** ** The n-gram generator *)
(* ================================================================== *)

Lemma slice_window {A : Type} (l : list A) (i n : Z) :
  0 <= i -> 0 <= n -> i + n <= Z.of_nat (List.length l) ->
  slice l i (i + n) = firstn (Z.to_nat n) (skipn (Z.to_nat i) l).
Proof.
  intros Hi Hn Hlen. unfold slice, relativeIndex.
  destruct (i <? 0) eqn:Ei; [apply Z.ltb_lt in Ei; lia|].
  destruct (i + n <? 0) eqn:Ein; [apply Z.ltb_lt in Ein; lia|].
  rewrite !Z.min_l by lia.
  replace (i + n - i) with n by lia. reflexivity.
Qed.

Lemma slice_prefix {A : Type} (l : list A) (k : Z) :
  0 <= k -> slice l 0 k = firstn (Z.to_nat k) l.
Proof.
  intro Hk. unfold slice, relativeIndex. simpl (0 <? 0).
  destruct (k <? 0) eqn:Ek; [apply Z.ltb_lt in Ek; lia|].
  rewrite (Z.min_l 0) by lia. simpl skipn.
  rewrite Z.sub_0_r.
  destruct (Z.le_gt_cases k (Z.of_nat (List.length l))) as [Hle|Hgt].
  - rewrite Z.min_l by lia. reflexivity.
  - rewrite Z.min_r by lia. rewrite Nat2Z.id.
    rewrite firstn_all. symmetry. apply firstn_all2. lia.
Qed.

Lemma window_length (ws : list string) (n i : nat) :
  (i + n <= List.length ws)%nat -> List.length (window ws n i) = n.
Proof.
  intro H. unfold window. rewrite length_firstn, length_skipn. lia.
Qed.

Lemma generateNgrams_windows (ws : list string) (n : Z) :
  1 <= n ->
  generateNgrams ws n =
  map (fun i => join " " (window ws (Z.to_nat n) i))
      (seq 0 (List.length ws + 1 - Z.to_nat n)).
Proof.
  intro Hn. unfold generateNgrams, loopIndices.
  rewrite map_map.
  replace (Z.to_nat (Z.of_nat (List.length ws) - n + 1))
    with (List.length ws + 1 - Z.to_nat n)%nat by lia.
  apply map_ext_in. intros i Hi. apply in_seq in Hi.
  unfold ngramAt, window.
  rewrite slice_window by lia.
  rewrite Nat2Z.id. reflexivity.
Qed.

(** C4. For a token sequence of length [L] and a size [n >= 1] the generator
    produces no n-gram when [L < n], and otherwise exactly [L - n + 1]
    n-grams, the one at position [i] being the join with single spaces of
    the [n] consecutive tokens that start at position [i]. *)
Theorem generateNgrams_sliding_window (ws : list string) (n : Z) :
  1 <= n ->
  let L := Z.of_nat (List.length ws) in
  (L < n -> generateNgrams ws n = []) /\
  (n <= L ->
   Z.of_nat (List.length (generateNgrams ws n)) = L - n + 1 /\
   forall i : nat,
     Z.of_nat i < L - n + 1 ->
     List.length (window ws (Z.to_nat n) i) = Z.to_nat n /\
     nth_error (generateNgrams ws n) i =
       Some (join " " (window ws (Z.to_nat n) i))).
Proof.
  intros Hn L. subst L. rewrite generateNgrams_windows by assumption.
  split.
  - intro Hlt.
    replace (List.length ws + 1 - Z.to_nat n)%nat with 0%nat by lia.
    reflexivity.
  - intro Hle. split.
    + rewrite length_map, length_seq. lia.
    + intros i Hi. split.
      * apply window_length. lia.
      * rewrite nth_error_map.
        rewrite nth_error_seq.
        destruct (Nat.ltb_spec i (List.length ws + 1 - Z.to_nat n));
          [reflexivity | lia].
Qed.

Lemma generateNgrams_sliding_window_witness :
  let ws := ["buy"; "cheap"; "shoes"] in
  let L := Z.of_nat (List.length ws) in
  (L < 2 -> generateNgrams ws 2 = []) /\
  (2 <= L ->
   Z.of_nat (List.length (generateNgrams ws 2)) = L - 2 + 1 /\
   forall i : nat,
     Z.of_nat i < L - 2 + 1 ->
     List.length (window ws (Z.to_nat 2) i) = Z.to_nat 2 /\
     nth_error (generateNgrams ws 2) i =
       Some (join " " (window ws (Z.to_nat 2) i))).
Proof.
  apply (generateNgrams_sliding_window ["buy"; "cheap"; "shoes"] 2). lia.
Defined.

(* ================================================================== *)
(** ** Facts about objects *)
(* ================================================================== *)

Section ObjectFacts.
Context {A : Type}.
Implicit Types (o : obj A) (key k : string).

Lemma getOwn_setOwn_same key (v : A) o : getOwn key (setOwn key v o) = Some v.
Proof.
  induction o as [|[k w] rest IH]; simpl.
  - rewrite String.eqb_refl. reflexivity.
  - destruct (String.eqb k key) eqn:E; simpl; rewrite E; auto.
Qed.

Lemma getOwn_setOwn_other key k (v : A) o :
  k <> key -> getOwn k (setOwn key v o) = getOwn k o.
Proof.
  intro Hne. induction o as [|[k' w] rest IH]; simpl.
  - destruct (String.eqb_spec key k); [congruence | reflexivity].
  - destruct (String.eqb_spec k' key) as [->|Hk]; simpl.
    + destruct (String.eqb_spec key k); [congruence | reflexivity].
    + destruct (String.eqb k' k); auto.
Qed.

Lemma getOwn_updateOwn_same key (f : A -> A) o :
  getOwn key (updateOwn key f o) = option_map f (getOwn key o).
Proof.
  induction o as [|[k w] rest IH]; simpl; [reflexivity|].
  destruct (String.eqb k key) eqn:E; simpl; rewrite E; auto.
Qed.

Lemma getOwn_updateOwn_other key k (f : A -> A) o :
  k <> key -> getOwn k (updateOwn key f o) = getOwn k o.
Proof.
  intro Hne. induction o as [|[k' w] rest IH]; simpl; [reflexivity|].
  destruct (String.eqb_spec k' key) as [->|Hk]; simpl.
  - destruct (String.eqb_spec key k); [congruence | reflexivity].
  - destruct (String.eqb k' k); auto.
Qed.

Lemma getOwn_map {B : Type} (g : A -> B) key o :
  getOwn key (map (fun '(k, v) => (k, g v)) o) = option_map g (getOwn key o).
Proof.
  induction o as [|[k w] rest IH]; simpl; [reflexivity|].
  destruct (String.eqb k key); auto.
Qed.


Lemma getOwn_keys key o : In key (keys o) <-> getOwn key o <> None.
Proof.
  unfold keys. induction o as [|[k w] rest IH]; simpl.
  - split; [contradiction | congruence].
  - destruct (String.eqb_spec k key) as [->|Hk].
    + split; [discriminate | auto].
    + rewrite <- IH. split; [intros [H|H]; [contradiction | exact H] | auto].
Qed.

Lemma truthyAt_false key o :
  truthyAt key o = false -> getOwn key o = None /\ inPrototype key = false.
Proof.
  unfold truthyAt. destruct (getOwn key o); [discriminate | auto].
Qed.

End ObjectFacts.

Lemma inPrototype_no_space (key : string) :
  inPrototype key = true -> hasChar " "%char key = false.
Proof.
  unfold inPrototype. intro H. apply existsb_exists in H.
  destruct H as [k [Hin Hk]]. apply String.eqb_eq in Hk. subst k.
  simpl in Hin.
  repeat (destruct Hin as [<-|Hin]; [reflexivity|]).
  contradiction.
Qed.

Lemma hasChar_append_sep (c : ascii) (a b : string) :
  hasChar c (a ++ String c b) = true.
Proof.
  unfold hasChar. induction a as [|x a IH]; simpl.
  - rewrite Ascii.eqb_refl. reflexivity.
  - rewrite IH. apply orb_true_r.
Qed.

(* ================================================================== *)
(** ** Facts about the tokenizer *)
(* ================================================================== *)

Section TokenizerFacts.
Variable CONFIG : config.

Lemma truthyAt_flagWord (w word : string) (o : obj bool) :
  truthyAt w (flagWord o word) = String.eqb w word || truthyAt w o.
Proof.
  unfold flagWord.
  destruct (String.eqb_spec word "__proto__") as [->|Hword].
  - destruct (String.eqb_spec w "__proto__") as [->|Hw]; [|reflexivity].
    unfold truthyAt. destruct (getOwn "__proto__" o); reflexivity.
  - unfold truthyAt.
    destruct (String.eqb_spec w word) as [->|Hw].
    + rewrite getOwn_setOwn_same. reflexivity.
    + rewrite getOwn_setOwn_other by assumption. reflexivity.
Qed.

Lemma truthyAt_fold_flagWord (w : string) (l : list string) (o : obj bool) :
  truthyAt w (fold_left flagWord l o) =
  existsb (String.eqb w) l || truthyAt w o.
Proof.
  revert o. induction l as [|word l IH]; intro o; simpl; [reflexivity|].
  rewrite IH, truthyAt_flagWord.
  destruct (String.eqb w word), (existsb (String.eqb w) l); reflexivity.
Qed.

(** [stopWords[word]] is truthy for the configured stop words and for the
    names inherited from [Object.prototype]. *)
Lemma truthyAt_stopWords (w : string) :
  truthyAt w (stopWords CONFIG) =
  existsb (String.eqb w) (STOP_WORDS CONFIG) || inPrototype w.
Proof.
  unfold stopWords. rewrite truthyAt_fold_flagWord. reflexivity.
Qed.

Lemma keepWord_spec (w : string) :
  keepWord CONFIG w = true <->
  (1 < String.length w)%nat /\ ~ In w (STOP_WORDS CONFIG)
  /\ inPrototype w = false.
Proof.
  unfold keepWord. rewrite truthyAt_stopWords.
  rewrite andb_true_iff, negb_true_iff, orb_false_iff, Z.ltb_lt.
  split.
  - intros [Hlen [Hstop Hproto]]. repeat split; [lia | | assumption].
    intro Hin.
    assert (existsb (String.eqb w) (STOP_WORDS CONFIG) = true) as E.
    { apply existsb_exists. exists w. split; [assumption|].
      apply String.eqb_refl. }
    congruence.
  - intros [Hlen [Hstop Hproto]]. repeat split; [lia | | assumption].
    destruct (existsb (String.eqb w) (STOP_WORDS CONFIG)) eqn:E;
      [|reflexivity].
    apply existsb_exists in E. destruct E as [x [Hin Hx]].
    apply String.eqb_eq in Hx. subst x. contradiction.
Qed.

Lemma splitWhitespace_pieces (s : string) :
  Forall (fun p => hasWhitespace p = false) (splitWhitespace s).
Proof.
  induction s as [|c rest IH]; simpl.
  - constructor; [reflexivity | constructor].
  - destruct (isWhitespace c) eqn:Ec.
    + destruct (startsWithWhitespace rest); [assumption|].
      constructor; [reflexivity | assumption].
    + destruct (splitWhitespace rest) as [|p ps].
      * constructor; [|constructor].
        unfold hasWhitespace. simpl. rewrite Ec. reflexivity.
      * inversion IH as [|? ? Hp Hps]; subst.
        constructor; [|assumption].
        unfold hasWhitespace in *. simpl. rewrite Ec. exact Hp.
Qed.

Lemma hasWhitespace_space (s : string) :
  hasWhitespace s = false -> hasChar " "%char s = false.
Proof.
  unfold hasWhitespace, hasChar.
  induction (list_ascii_of_string s) as [|c l IH]; cbn [existsb];
    [reflexivity|].
  rewrite orb_false_iff. intros [Hc Hl]. rewrite (IH Hl), orb_false_r.
  destruct (Ascii.eqb_spec " "%char c) as [<-|Hne]; [|reflexivity].
  discriminate Hc.
Qed.

Lemma words_good (query : Query.t) :
  Forall (goodToken CONFIG) (words CONFIG query).
Proof.
  unfold words. apply Forall_forall. intros w Hw.
  apply filter_In in Hw. destruct Hw as [Hin Hkeep].
  apply keepWord_spec in Hkeep. destruct Hkeep as [Hlen [Hstop Hproto]].
  pose proof (splitWhitespace_pieces (Query.query query)) as Hws.
  rewrite Forall_forall in Hws.
  repeat split; try assumption.
  apply hasWhitespace_space. auto.
Qed.

End TokenizerFacts.

(* ================================================================== *)
(** ** Facts about the aggregator *)
(* ================================================================== *)

Lemma firstn_incl {A : Type} (n : nat) (l : list A) : incl (firstn n l) l.
Proof.
  intros x Hx. rewrite <- (firstn_skipn n l). apply in_or_app. now left.
Qed.

Lemma skipn_incl {A : Type} (n : nat) (l : list A) : incl (skipn n l) l.
Proof.
  intros x Hx. rewrite <- (firstn_skipn n l). apply in_or_app. now right.
Qed.

Lemma slice_incl {A : Type} (l : list A) (start stop : Z) :
  incl (slice l start stop) l.
Proof.
  unfold slice. intros x Hx.
  apply firstn_incl in Hx. apply skipn_incl in Hx. exact Hx.
Qed.

Lemma join_not_inPrototype (l : list string) :
  Forall (fun w => inPrototype w = false) l ->
  inPrototype (join " " l) = false.
Proof.
  intro Hl. destruct l as [|w [|w' rest]].
  - reflexivity.
  - inversion Hl; assumption.
  - destruct (inPrototype (join " " (w :: w' :: rest))) eqn:E; [|reflexivity].
    apply inPrototype_no_space in E.
    change (join " " (w :: w' :: rest))
      with (w ++ String " "%char (join " " (w' :: rest))) in E.
    rewrite hasChar_append_sep in E. discriminate.
Qed.

Lemma generateNgrams_not_inPrototype (ws : list string) (n : Z) (g : string) :
  Forall (fun w => inPrototype w = false) ws ->
  In g (generateNgrams ws n) -> inPrototype g = false.
Proof.
  intros Hws Hg. unfold generateNgrams in Hg.
  apply in_map_iff in Hg. destruct Hg as [i [<- _]].
  unfold ngramAt. apply join_not_inPrototype.
  apply Forall_forall. intros w Hw. apply slice_incl in Hw.
  rewrite Forall_forall in Hws. auto.
Qed.

Section AggregatorFacts.
Variable CONFIG : config.

Lemma occurrences_not_inPrototype (queryData : list Query.t) (n : Z) :
  Forall (fun p => inPrototype (fst p) = false)
         (occurrences CONFIG queryData n).
Proof.
  apply Forall_forall. intros [g q] Hin.
  unfold occurrences in Hin. apply in_flat_map in Hin.
  destruct Hin as [query [_ Hin]]. apply in_map_iff in Hin.
  destruct Hin as [g' [[= -> ->] Hg]]. simpl.
  apply (generateNgrams_not_inPrototype (words CONFIG q) n); [|assumption].
  eapply Forall_impl; [|apply words_good].
  intros w Hw. apply Hw.
Qed.

(** The effect of one loop iteration on the entry found under [key]. *)
Lemma getOwn_countNgram (query : Query.t) (ngrams : obj Ngram.totals)
    (ngram key : string) :
  inPrototype ngram = false ->
  getOwn key (countNgram query ngrams ngram) =
  if String.eqb ngram key then bump key (getOwn key ngrams) query
  else getOwn key ngrams.
Proof.
  intro Hproto. unfold countNgram, truthyAt, bump.
  destruct (String.eqb_spec ngram key) as [->|Hne].
  - rewrite getOwn_updateOwn_same.
    destruct (getOwn key ngrams) as [ng|] eqn:E; simpl.
    + rewrite E. reflexivity.
    + rewrite Hproto. simpl. rewrite getOwn_setOwn_same. reflexivity.
  - rewrite getOwn_updateOwn_other by congruence.
    destruct (getOwn ngram ngrams); simpl; [reflexivity|].
    rewrite Hproto. simpl. apply getOwn_setOwn_other. congruence.
Qed.

Lemma countQuery_generateNgrams (n : Z) (ngrams : obj Ngram.totals)
    (query : Query.t) :
  countQuery CONFIG n ngrams query =
  fold_left (fun acc p => countNgram (snd p) acc (fst p))
            (map (fun ngram => (ngram, query))
                 (generateNgrams (words CONFIG query) n))
            ngrams.
Proof.
  unfold countQuery, generateNgrams.
  generalize (loopIndices (words CONFIG query) n). intro l.
  revert ngrams. induction l as [|i l IH]; intro ngrams; simpl;
    [reflexivity | apply IH].
Qed.

Lemma countAll_occurrences (queryData : list Query.t) (n : Z) :
  countAll CONFIG queryData n =
  fold_left (fun acc p => countNgram (snd p) acc (fst p))
            (occurrences CONFIG queryData n) [].
Proof.
  unfold countAll, occurrences. generalize (@nil (string * Ngram.totals)).
  induction queryData as [|q rest IH]; intro o; simpl; [reflexivity|].
  rewrite fold_left_app, <- countQuery_generateNgrams. apply IH.
Qed.

Lemma getOwn_fold_countNgram (key : string) (occs : list (string * Query.t))
    (ngrams : obj Ngram.totals) :
  Forall (fun p => inPrototype (fst p) = false) occs ->
  getOwn key (fold_left (fun acc p => countNgram (snd p) acc (fst p))
                        occs ngrams) =
  fold_left (bump key)
            (map snd (filter (fun p => String.eqb (fst p) key) occs))
            (getOwn key ngrams).
Proof.
  intro Hoccs. revert ngrams.
  induction Hoccs as [|[g q] occs Hg _ IH]; intro ngrams; simpl;
    [reflexivity|].
  rewrite IH, getOwn_countNgram by exact Hg. simpl.
  destruct (String.eqb g key); reflexivity.
Qed.

Lemma fold_bump_Some (key : string) (cs : list Query.t) (ng : Ngram.totals) :
  fold_left (bump key) cs (Some ng) =
  Some (Ngram.mkTotals
          (Ngram.ngram ng)
          (Ngram.queries ng + Z.of_nat (List.length cs))
          (Ngram.impressions ng + sumQc (map Query.impressions cs))%Qc
          (Ngram.clicks ng + sumQc (map Query.clicks cs))%Qc
          (Ngram.cost ng + sumQc (map Query.cost cs))%Qc
          (Ngram.conversions ng + sumQc (map Query.conversions cs))%Qc
          (Ngram.conversionValue ng
           + sumQc (map Query.conversionValue cs))%Qc).
Proof.
  revert ng. induction cs as [|q cs IH]; intro ng.
  - simpl. unfold zeroQ. rewrite !Qcplus_0_r, Z.add_0_r.
    destruct ng; reflexivity.
  - change (fold_left (bump key) (q :: cs) (Some ng))
      with (fold_left (bump key) cs (Some (addQuery q ng))).
    rewrite IH. unfold addQuery.
    cbn [Ngram.ngram Ngram.queries Ngram.impressions Ngram.clicks Ngram.cost
         Ngram.conversions Ngram.conversionValue map sumQc fold_right
         List.length].
    rewrite <- !Qcplus_assoc.
    replace (Ngram.queries ng + 1 + Z.of_nat (List.length cs))
      with (Ngram.queries ng + Z.of_nat (S (List.length cs))) by lia.
    reflexivity.
Qed.

Lemma fold_bump_None (key : string) (cs : list Query.t) :
  fold_left (bump key) cs None =
  match cs with
  | [] => None
  | _ :: _ => Some (totalsOf key cs)
  end.
Proof.
  destruct cs as [|q cs]; [reflexivity|].
  change (fold_left (bump key) (q :: cs) None)
    with (fold_left (bump key) cs (Some (addQuery q (newTotals key)))).
  rewrite fold_bump_Some.
  unfold addQuery, newTotals, totalsOf, zeroQ.
  cbn [Ngram.ngram Ngram.queries Ngram.impressions Ngram.clicks Ngram.cost
       Ngram.conversions Ngram.conversionValue map sumQc fold_right
       List.length].
  rewrite !Qcplus_0_l.
  replace (0 + 1 + Z.of_nat (List.length cs))
    with (Z.of_nat (S (List.length cs))) by lia.
  reflexivity.
Qed.

(** The totals stored under every key after the pass over the queries. *)
Lemma getOwn_countAll (key : string) (queryData : list Query.t) (n : Z) :
  getOwn key (countAll CONFIG queryData n) =
  match contributors CONFIG key queryData n with
  | [] => None
  | _ :: _ => Some (totalsOf key (contributors CONFIG key queryData n))
  end.
Proof.
  rewrite countAll_occurrences.
  rewrite getOwn_fold_countNgram by apply occurrences_not_inPrototype.
  simpl. apply fold_bump_None.
Qed.

Lemma getOwn_analyzeNgrams (key : string) (queryData : list Query.t) (n : Z) :
  getOwn key (analyzeNgrams CONFIG queryData n) =
  match contributors CONFIG key queryData n with
  | [] => None
  | _ :: _ =>
      Some (deriveMetrics (totalsOf key (contributors CONFIG key queryData n)))
  end.
Proof.
  unfold analyzeNgrams. rewrite getOwn_map, getOwn_countAll.
  destruct (contributors CONFIG key queryData n); reflexivity.
Qed.

End AggregatorFacts.

Section Contributors.
Variable CONFIG : config.

Lemma contributors_cons (key : string) (q : Query.t)
    (rest : list Query.t) (n : Z) :
  contributors CONFIG key (q :: rest) n =
  (repeat q (occurrencesIn CONFIG key n q)
   ++ contributors CONFIG key rest n)%list.
Proof.
  unfold contributors, occurrences, occurrencesIn. simpl flat_map.
  rewrite filter_app, map_app. f_equal.
  induction (generateNgrams (words CONFIG q) n) as [|g gs IH];
    [reflexivity|].
  simpl. destruct (String.eqb_spec g key) as [->|Hne].
  - destruct (string_dec key key); [|contradiction].
    simpl. f_equal. exact IH.
  - destruct (string_dec g key); [contradiction | exact IH].
Qed.

Lemma contributors_length (key : string) (queryData : list Query.t) (n : Z) :
  List.length (contributors CONFIG key queryData n) =
  list_sum (map (occurrencesIn CONFIG key n) queryData).
Proof.
  induction queryData as [|q rest IH]; [reflexivity|].
  rewrite contributors_cons, length_app, repeat_length, IH. reflexivity.
Qed.

Lemma contributors_Permutation (key : string) (data1 data2 : list Query.t)
    (n : Z) :
  Permutation data1 data2 ->
  Permutation (contributors CONFIG key data1 n)
              (contributors CONFIG key data2 n).
Proof.
  induction 1 as [| q l l' _ IH | q q' l | l l' l'' _ IH1 _ IH2].
  - apply Permutation_refl.
  - rewrite !contributors_cons. apply Permutation_app_head. exact IH.
  - rewrite !contributors_cons. rewrite !app_assoc.
    apply Permutation_app_tail. apply Permutation_app_comm.
  - eapply Permutation_trans; eassumption.
Qed.

Lemma contributors_In (key : string) (queryData : list Query.t) (n : Z)
    (q : Query.t) :
  In q (contributors CONFIG key queryData n) ->
  In q queryData /\ In key (generateNgrams (words CONFIG q) n).
Proof.
  unfold contributors, occurrences. intro H.
  apply in_map_iff in H. destruct H as [[g q'] [Hq Hin]]. simpl in Hq.
  subst q'. apply filter_In in Hin. destruct Hin as [Hin Hkey].
  simpl in Hkey. apply String.eqb_eq in Hkey. subst g.
  apply in_flat_map in Hin. destruct Hin as [query [Hquery Hin]].
  apply in_map_iff in Hin. destruct Hin as [g [[= -> ->] Hg]].
  split; assumption.
Qed.

End Contributors.

Lemma sumQc_Permutation (l l' : list Qc) :
  Permutation l l' -> sumQc l = sumQc l'.
Proof.
  induction 1 as [| x l l' _ IH | x y l | l l' l'' _ IH1 _ IH2]; simpl.
  - reflexivity.
  - rewrite IH. reflexivity.
  - rewrite !Qcplus_assoc, (Qcplus_comm y x). reflexivity.
  - congruence.
Qed.

Lemma sumQc_nonneg (l : list Qc) :
  Forall (fun x => (zeroQ <= x)%Qc) l -> (zeroQ <= sumQc l)%Qc.
Proof.
  induction 1 as [|x l Hx _ IH]; simpl.
  - apply Qcle_refl.
  - replace zeroQ with (zeroQ + zeroQ)%Qc by apply Qcplus_0_l.
    apply Qcplus_le_compat; assumption.
Qed.

Lemma totalsOf_Permutation (key : string) (cs cs' : list Query.t) :
  Permutation cs cs' -> totalsOf key cs = totalsOf key cs'.
Proof.
  intro H. unfold totalsOf.
  rewrite (Permutation_length H).
  rewrite (sumQc_Permutation _ _ (Permutation_map Query.impressions H)).
  rewrite (sumQc_Permutation _ _ (Permutation_map Query.clicks H)).
  rewrite (sumQc_Permutation _ _ (Permutation_map Query.cost H)).
  rewrite (sumQc_Permutation _ _ (Permutation_map Query.conversions H)).
  rewrite (sumQc_Permutation _ _ (Permutation_map Query.conversionValue H)).
  reflexivity.
Qed.

(** C3. For every record sequence, size and n-gram text: the map has an
    entry for the text exactly when some query produces it, and then the
    entry's [queries] is the number of (query, occurrence) pairs that produce
    the text, repeats within a query included, and each total is the sum of
    the corresponding metric of the query over these pairs. *)
Theorem analyzeNgrams_counts_every_occurrence (CONFIG : config)
    (queryData : list Query.t) (n : Z) (key : string) :
  let cs := contributors CONFIG key queryData n in
  List.length cs = list_sum (map (occurrencesIn CONFIG key n) queryData) /\
  match getOwn key (analyzeNgrams CONFIG queryData n) with
  | None => cs = []
  | Some ng =>
      cs <> [] /\
      Ngram.ngram (Ngram.sums ng) = key /\
      Ngram.queries (Ngram.sums ng) = Z.of_nat (List.length cs) /\
      Ngram.impressions (Ngram.sums ng) = sumQc (map Query.impressions cs) /\
      Ngram.clicks (Ngram.sums ng) = sumQc (map Query.clicks cs) /\
      Ngram.cost (Ngram.sums ng) = sumQc (map Query.cost cs) /\
      Ngram.conversions (Ngram.sums ng) = sumQc (map Query.conversions cs) /\
      Ngram.conversionValue (Ngram.sums ng)
        = sumQc (map Query.conversionValue cs)
  end.
Proof.
  intro cs. subst cs. split; [apply contributors_length|].
  rewrite getOwn_analyzeNgrams.
  destruct (contributors CONFIG key queryData n) as [|q cs] eqn:E;
    [reflexivity|].
  simpl. repeat split. discriminate.
Qed.

(** C8. Running the aggregator on a permutation of the record sequence
    gives a map with the same keys and, under every key, the same totals and
    derived metrics (the sums being exact). *)
Theorem analyzeNgrams_order_independent (CONFIG : config)
    (data1 data2 : list Query.t) (n : Z) :
  Permutation data1 data2 ->
  forall key : string,
    getOwn key (analyzeNgrams CONFIG data1 n)
    = getOwn key (analyzeNgrams CONFIG data2 n)
    /\ (In key (keys (analyzeNgrams CONFIG data1 n))
        <-> In key (keys (analyzeNgrams CONFIG data2 n))).
Proof.
  intros Hperm key.
  assert (getOwn key (analyzeNgrams CONFIG data1 n)
          = getOwn key (analyzeNgrams CONFIG data2 n)) as Heq.
  { rewrite !getOwn_analyzeNgrams.
    pose proof (contributors_Permutation CONFIG key _ _ n Hperm) as Hc.
    destruct (contributors CONFIG key data1 n) as [|q cs] eqn:E1.
    - apply Permutation_nil in Hc. rewrite Hc. reflexivity.
    - destruct (contributors CONFIG key data2 n) as [|q' cs'] eqn:E2.
      + apply Permutation_sym, Permutation_nil in Hc. discriminate.
      + rewrite (totalsOf_Permutation key _ _ Hc). reflexivity. }
  split; [exact Heq|].
  rewrite !getOwn_keys, Heq. reflexivity.
Qed.

Lemma analyzeNgrams_order_independent_witness :
  Permutation [sampleQueryA; sampleQueryB] [sampleQueryB; sampleQueryA] /\
  (getOwn "cheap shoes"
          (analyzeNgrams defaultConfig [sampleQueryA; sampleQueryB] 2)
   = getOwn "cheap shoes"
            (analyzeNgrams defaultConfig [sampleQueryB; sampleQueryA] 2)
   /\ (In "cheap shoes"
          (keys (analyzeNgrams defaultConfig [sampleQueryA; sampleQueryB] 2))
       <-> In "cheap shoes"
              (keys (analyzeNgrams defaultConfig
                                   [sampleQueryB; sampleQueryA] 2)))).
Proof.
  split.
  - apply perm_swap.
  - apply (analyzeNgrams_order_independent defaultConfig
             [sampleQueryA; sampleQueryB] [sampleQueryB; sampleQueryA] 2).
    apply perm_swap.
Defined.

(* ================================================================== *)
(** ** The shape of the keys *)
(* ================================================================== *)

Lemma splitChar_no_sep (c : ascii) (w : string) :
  hasChar c w = false -> splitChar c w = [w].
Proof.
  unfold hasChar. induction w as [|x w IH]; cbn [list_ascii_of_string existsb splitChar];
    [reflexivity|].
  rewrite orb_false_iff. intros [Hx Hw].
  rewrite Ascii.eqb_sym, Hx, (IH Hw). reflexivity.
Qed.

Lemma splitChar_append_sep (c : ascii) (w rest : string) :
  hasChar c w = false ->
  splitChar c (w ++ String c rest) = w :: splitChar c rest.
Proof.
  unfold hasChar. induction w as [|x w IH];
    cbn [list_ascii_of_string existsb splitChar String.append].
  - intros _. rewrite Ascii.eqb_refl. reflexivity.
  - rewrite orb_false_iff. intros [Hx Hw].
    rewrite Ascii.eqb_sym, Hx, (IH Hw). reflexivity.
Qed.

Lemma splitChar_join (l : list string) :
  l <> [] ->
  Forall (fun w => hasChar " "%char w = false) l ->
  splitChar " "%char (join " " l) = l.
Proof.
  intros Hne Hl. induction Hl as [|w l Hw Hl IH]; [contradiction|].
  destruct l as [|w' l].
  - simpl. apply splitChar_no_sep. exact Hw.
  - change (join " " (w :: w' :: l))
      with (w ++ String " "%char (join " " (w' :: l))).
    rewrite splitChar_append_sep by exact Hw.
    rewrite IH by discriminate. reflexivity.
Qed.

(** C10. For a size [n >= 1], every key of the map produced for size [n]
    splits on single spaces into exactly [n] tokens, each longer than one
    character and none a stop word, and its entry counts at least one
    occurrence. *)
Theorem analyzeNgrams_key_shape (CONFIG : config) (queryData : list Query.t)
    (n : Z) (key : string) (ng : Ngram.t) :
  1 <= n ->
  getOwn key (analyzeNgrams CONFIG queryData n) = Some ng ->
  List.length (splitChar " "%char key) = Z.to_nat n /\
  Forall (fun token => (1 < String.length token)%nat
                       /\ ~ In token (STOP_WORDS CONFIG))
         (splitChar " "%char key) /\
  1 <= Ngram.queries (Ngram.sums ng).
Proof.
  intros Hn Hget. rewrite getOwn_analyzeNgrams in Hget.
  destruct (contributors CONFIG key queryData n) as [|q cs] eqn:E;
    [discriminate|].
  injection Hget as <-.
  assert (In q (contributors CONFIG key queryData n)) as Hq
    by (rewrite E; now left).
  apply contributors_In in Hq. destruct Hq as [_ Hkey].
  rewrite generateNgrams_windows in Hkey by exact Hn.
  apply in_map_iff in Hkey. destruct Hkey as [i [<- Hi]].
  apply in_seq in Hi.
  assert (List.length (window (words CONFIG q) (Z.to_nat n) i) = Z.to_nat n)
    as Hlen by (apply window_length; lia).
  assert (Forall (goodToken CONFIG) (window (words CONFIG q) (Z.to_nat n) i))
    as Hgood.
  { apply Forall_forall. intros w Hw. unfold window in Hw.
    apply firstn_incl, skipn_incl in Hw.
    pose proof (words_good CONFIG q) as Hall.
    rewrite Forall_forall in Hall. auto. }
  rewrite splitChar_join.
  - split; [exact Hlen|]. split.
    + eapply Forall_impl; [|exact Hgood].
      intros w [H1 [H2 _]]. split; assumption.
    + simpl. lia.
  - intro Hnil. rewrite Hnil in Hlen. simpl in Hlen. lia.
  - eapply Forall_impl; [|exact Hgood]. intros w Hw. apply Hw.
Qed.

Lemma analyzeNgrams_key_shape_witness :
  List.length (splitChar " "%char "cheap shoes") = Z.to_nat 2 /\
  Forall (fun token => (1 < String.length token)%nat
                       /\ ~ In token (STOP_WORDS defaultConfig))
         (splitChar " "%char "cheap shoes") /\
  1 <= Ngram.queries (Ngram.sums sampleEntry).
Proof.
  apply (analyzeNgrams_key_shape defaultConfig [sampleQueryA] 2
           "cheap shoes" sampleEntry).
  - lia.
  - vm_compute. reflexivity.
Defined.

(* ================================================================== *)
(** ** The derived metrics *)
(* ================================================================== *)

Lemma guarded_quotient (a b : Qc) :
  (zeroQ <= b)%Qc ->
  (if Qcltb zeroQ b then jsdiv a b else Fin zeroQ) = Fin (ratioOrZero a b).
Proof.
  intro Hb. unfold ratioOrZero.
  destruct (Qcltb zeroQ b) eqn:E.
  - apply Qcltb_lt in E. pose proof (Qclt_neq_zero b E) as Hne.
    rewrite jsdiv_nonzero by exact Hne.
    apply Qceqb_neq in Hne. rewrite Hne. reflexivity.
  - apply Qcltb_false_le in E.
    assert (b = zeroQ) as -> by (apply Qcle_antisym; assumption).
    reflexivity.
Qed.

Lemma guarded_quotient_finite (a b : Qc) :
  isFinite (if Qcltb zeroQ b then jsdiv a b else Fin zeroQ) = true.
Proof.
  destruct (Qcltb zeroQ b) eqn:E; [|reflexivity].
  apply Qcltb_lt in E. rewrite jsdiv_nonzero by (apply Qclt_neq_zero, E).
  reflexivity.
Qed.

Lemma totalsOf_nonneg (key : string) (cs : list Query.t) :
  Forall nonNegative cs ->
  (zeroQ <= Ngram.impressions (totalsOf key cs))%Qc /\
  (zeroQ <= Ngram.clicks (totalsOf key cs))%Qc /\
  (zeroQ <= Ngram.cost (totalsOf key cs))%Qc /\
  (zeroQ <= Ngram.conversions (totalsOf key cs))%Qc.
Proof.
  intro H. simpl.
  repeat split; apply sumQc_nonneg, Forall_map;
    (eapply Forall_impl; [|exact H]); intros q Hq; apply Hq.
Qed.

(** C5. For every aggregate the aggregator stores for records without
    negative metrics, each derived metric is a finite number: ctr is
    clicks/impressions, cpc is cost/clicks, convRate is conversions/clicks,
    cpa is cost/conversions and roas is conversionValue/cost, and each is 0
    when its denominator is 0. *)
Theorem derived_metrics_zero_safe (CONFIG : config)
    (queryData : list Query.t) (n : Z) (key : string) (ng : Ngram.t) :
  Forall nonNegative queryData ->
  getOwn key (analyzeNgrams CONFIG queryData n) = Some ng ->
  let t := Ngram.sums ng in
  Ngram.ctr ng = Fin (ratioOrZero (Ngram.clicks t) (Ngram.impressions t)) /\
  Ngram.cpc ng = Fin (ratioOrZero (Ngram.cost t) (Ngram.clicks t)) /\
  Ngram.convRate ng
    = Fin (ratioOrZero (Ngram.conversions t) (Ngram.clicks t)) /\
  Ngram.cpa ng = Fin (ratioOrZero (Ngram.cost t) (Ngram.conversions t)) /\
  Ngram.roas ng
    = Fin (ratioOrZero (Ngram.conversionValue t) (Ngram.cost t)).
Proof.
  intros Hdata Hget. rewrite getOwn_analyzeNgrams in Hget.
  destruct (contributors CONFIG key queryData n) as [|q cs] eqn:E;
    [discriminate|].
  injection Hget as <-.
  assert (Forall nonNegative (q :: cs)) as Hcs.
  { rewrite <- E. apply Forall_forall. intros x Hx.
    apply contributors_In in Hx. destruct Hx as [Hx _].
    rewrite Forall_forall in Hdata. auto. }
  destruct (totalsOf_nonneg key (q :: cs) Hcs) as [Hi [Hc [Hco Hcv]]].
  cbv zeta. unfold deriveMetrics.
  cbn [Ngram.sums Ngram.ctr Ngram.cpc Ngram.convRate Ngram.cpa Ngram.roas].
  repeat split; apply guarded_quotient; assumption.
Qed.

Lemma derived_metrics_zero_safe_witness :
  let t := Ngram.sums sampleEntry in
  Ngram.ctr sampleEntry
    = Fin (ratioOrZero (Ngram.clicks t) (Ngram.impressions t)) /\
  Ngram.cpc sampleEntry = Fin (ratioOrZero (Ngram.cost t) (Ngram.clicks t)) /\
  Ngram.convRate sampleEntry
    = Fin (ratioOrZero (Ngram.conversions t) (Ngram.clicks t)) /\
  Ngram.cpa sampleEntry
    = Fin (ratioOrZero (Ngram.cost t) (Ngram.conversions t)) /\
  Ngram.roas sampleEntry
    = Fin (ratioOrZero (Ngram.conversionValue t) (Ngram.cost t)).
Proof.
  apply (derived_metrics_zero_safe defaultConfig [sampleQueryA] 2
           "cheap shoes" sampleEntry).
  - constructor; [|constructor].
    unfold nonNegative, sampleQueryA, zeroQ, Qcle. simpl.
    repeat split; unfold Qle; simpl; lia.
  - vm_compute. reflexivity.
Defined.

(* ================================================================== *)
(** ** Sorting and truncation *)
(* ================================================================== *)

Section SortFacts.
Context {A : Type}.
Variable key : A -> Qc.

(** The comparators of the script have the form [b.key - a.key]. *)
Let compare (a b : A) : Qc := (key b - key a)%Qc.
Let descending (a b : A) : Prop := (key b <= key a)%Qc.

Lemma compare_positive (x y : A) :
  Qcltb zeroQ (compare x y) = true <-> (key x < key y)%Qc.
Proof.
  rewrite Qcltb_lt. unfold compare, Qcminus, zeroQ.
  symmetry. apply Qclt_minus_iff.
Qed.

Lemma sortInsert_Permutation (x : A) (l : list A) :
  Permutation (sortInsert compare x l) (x :: l).
Proof.
  induction l as [|y l IH]; simpl; [apply Permutation_refl|].
  destruct (Qcltb zeroQ (compare x y)).
  - eapply Permutation_trans; [apply perm_skip, IH | apply perm_swap].
  - apply Permutation_refl.
Qed.

Lemma jsSort_Permutation (l : list A) : Permutation (jsSort compare l) l.
Proof.
  induction l as [|x l IH]; simpl; [apply perm_nil|].
  eapply Permutation_trans; [apply sortInsert_Permutation|].
  apply perm_skip, IH.
Qed.

Lemma sortInsert_HdRel (x a : A) (l : list A) :
  descending a x -> HdRel descending a l ->
  HdRel descending a (sortInsert compare x l).
Proof.
  intros Hax Hl. destruct l as [|y l]; simpl.
  - constructor. exact Hax.
  - destruct (Qcltb zeroQ (compare x y)); constructor;
      [inversion Hl; assumption | exact Hax].
Qed.

Lemma sortInsert_Sorted (x : A) (l : list A) :
  Sorted descending l -> Sorted descending (sortInsert compare x l).
Proof.
  induction 1 as [|y l Hl IH Hy]; simpl.
  - repeat constructor.
  - destruct (Qcltb zeroQ (compare x y)) eqn:E.
    + apply compare_positive in E.
      constructor; [exact IH|].
      apply sortInsert_HdRel; [|exact Hy].
      unfold descending. apply Qclt_le_weak. exact E.
    + constructor; [constructor; assumption|].
      constructor. unfold descending.
      apply Qcnot_lt_le. intro Hlt. apply compare_positive in Hlt.
      congruence.
Qed.

Lemma jsSort_Sorted (l : list A) : Sorted descending (jsSort compare l).
Proof.
  induction l as [|x l IH]; simpl; [constructor|].
  apply sortInsert_Sorted, IH.
Qed.

Lemma jsSort_StronglySorted (l : list A) :
  StronglySorted descending (jsSort compare l).
Proof.
  apply Sorted_StronglySorted; [|apply jsSort_Sorted].
  intros a b c Hab Hbc. unfold descending in *.
  eapply Qcle_trans; eassumption.
Qed.

End SortFacts.

Lemma StronglySorted_app_inv {A : Type} (R : A -> A -> Prop)
    (l1 l2 : list A) :
  StronglySorted R (l1 ++ l2) ->
  StronglySorted R l1 /\ StronglySorted R l2
  /\ (forall x y, In x l1 -> In y l2 -> R x y).
Proof.
  induction l1 as [|a l1 IH]; simpl; intro H.
  - repeat split; [constructor | exact H | contradiction].
  - inversion H as [|? ? Hs Hall]; subst.
    destruct (IH Hs) as [H1 [H2 H12]].
    repeat split; [| exact H2 |].
    + constructor; [exact H1|].
      rewrite Forall_forall in *. intros y Hy. apply Hall.
      apply in_or_app. now left.
    + intros x y [<-|Hx] Hy.
      * rewrite Forall_forall in Hall. apply Hall.
        apply in_or_app. now right.
      * auto.
Qed.

Section Ranking.
Context {A : Type}.
Variable key : A -> Qc.

(** What sorting by descending [key] and keeping a prefix of at most [cap]
    elements guarantees. *)
Lemma sorted_prefix (cap : Z) (l : list A) :
  0 <= cap ->
  let kept := slice (jsSort (fun a b => key b - key a)%Qc l) 0 cap in
  List.length kept = Nat.min (Z.to_nat cap) (List.length l) /\
  Z.of_nat (List.length kept) <= cap /\
  StronglySorted (fun a b => key b <= key a)%Qc kept /\
  exists dropped,
    Permutation (kept ++ dropped) l /\
    forall x y, In x kept -> In y dropped -> (key y <= key x)%Qc.
Proof.
  intros Hcap kept. subst kept. rewrite slice_prefix by exact Hcap.
  set (sorted := jsSort (fun a b => key b - key a)%Qc l).
  pose proof (jsSort_StronglySorted key l) as Hsorted.
  fold sorted in Hsorted.
  rewrite <- (firstn_skipn (Z.to_nat cap) sorted) in Hsorted.
  apply StronglySorted_app_inv in Hsorted.
  destruct Hsorted as [Hkept [_ Hcross]].
  assert (List.length sorted = List.length l) as Hlen
    by apply (Permutation_length (jsSort_Permutation key l)).
  split; [|split; [|split]].
  - rewrite length_firstn, Hlen. reflexivity.
  - pose proof (firstn_le_length (Z.to_nat cap) sorted). lia.
  - exact Hkept.
  - exists (skipn (Z.to_nat cap) sorted). split.
    + rewrite firstn_skipn. apply jsSort_Permutation.
    + exact Hcross.
Qed.

End Ranking.

(** C9. Each of the two returned lists has at most [maxResultsPerCategory]
    (100) elements, namely as many as were classified when these are fewer
    and 100 otherwise; the keyword opportunities are in descending order of
    conversions and the negative candidates in descending order of cost; and
    the sort comes before the cut: the elements cut off are, together with the
    ones kept, the classified ones, and none of them ranks above a kept one. *)
Theorem recommendations_sorted_and_capped (CONFIG : config)
    (ngramResults : results) :
  let recs := generateRecommendations CONFIG ngramResults in
  let emitted := classify CONFIG ngramResults in
  maxResultsPerCategory = 100 /\
  (List.length (keywords recs)
   = Nat.min 100 (List.length (fst emitted)) /\
   Z.of_nat (List.length (keywords recs)) <= maxResultsPerCategory /\
   StronglySorted conversionsDescending (keywords recs) /\
   exists dropped,
     Permutation (keywords recs ++ dropped) (fst emitted) /\
     forall x y, In x (keywords recs) -> In y dropped ->
                 conversionsDescending x y) /\
  (List.length (negatives recs)
   = Nat.min 100 (List.length (snd emitted)) /\
   Z.of_nat (List.length (negatives recs)) <= maxResultsPerCategory /\
   StronglySorted costDescending (negatives recs) /\
   exists dropped,
     Permutation (negatives recs ++ dropped) (snd emitted) /\
     forall x y, In x (negatives recs) -> In y dropped ->
                 costDescending x y).
Proof.
  intros recs emitted. split; [reflexivity|]. split.
  - apply (sorted_prefix Keyword.conversions maxResultsPerCategory
             (fst emitted)).
    unfold maxResultsPerCategory. lia.
  - apply (sorted_prefix Negative.cost maxResultsPerCategory (snd emitted)).
    unfold maxResultsPerCategory. lia.
Qed.

(* ================================================================== *)
(** ** The classifier *)
(* ================================================================== *)

Section ClassifierFacts.
Variable CONFIG : config.

Lemma classifyNgram_pushes (size : Z) (acc : list Keyword.t * list Negative.t)
    (ng : Ngram.t) :
  classifyNgram CONFIG size acc ng =
  ((fst acc ++ keywordsFor CONFIG size ng)%list,
   (snd acc ++ negativesFor CONFIG size ng)%list).
Proof.
  unfold classifyNgram, keywordsFor, negativesFor, eligible.
  destruct acc as [kws negs]. simpl fst. simpl snd.
  destruct (Qcltb (Ngram.impressions (Ngram.sums ng)) (MIN_IMPRESSIONS CONFIG));
    simpl; [rewrite !app_nil_r; reflexivity|].
  destruct (Qcleb (MIN_CLICKS CONFIG) (Ngram.clicks (Ngram.sums ng)));
    simpl; [|rewrite !app_nil_r; reflexivity].
  destruct (isOpportunity CONFIG ng), (isNegative CONFIG ng);
    rewrite ?app_nil_r; reflexivity.
Qed.

Lemma fold_classifyNgram (size : Z) (l : list Ngram.t)
    (acc : list Keyword.t * list Negative.t) :
  fold_left (classifyNgram CONFIG size) l acc =
  ((fst acc ++ flat_map (keywordsFor CONFIG size) l)%list,
   (snd acc ++ flat_map (negativesFor CONFIG size) l)%list).
Proof.
  revert acc. induction l as [|ng l IH]; intro acc; simpl.
  - rewrite !app_nil_r. destruct acc; reflexivity.
  - rewrite IH, classifyNgram_pushes. simpl. rewrite <- !app_assoc.
    reflexivity.
Qed.

Lemma classifySize_pushes (ngramResults : results) (size : Z)
    (acc : list Keyword.t * list Negative.t) :
  classifySize CONFIG ngramResults acc size =
  ((fst acc
    ++ flat_map (keywordsFor CONFIG size) (aggregatesOf ngramResults size))%list,
   (snd acc
    ++ flat_map (negativesFor CONFIG size)
                (aggregatesOf ngramResults size))%list).
Proof.
  unfold classifySize, aggregatesOf.
  destruct (getResult size ngramResults) as [ngrams|].
  - apply fold_classifyNgram.
  - simpl. rewrite !app_nil_r. destruct acc; reflexivity.
Qed.

Lemma fold_classifySize (ngramResults : results) (sizes : list Z)
    (acc : list Keyword.t * list Negative.t) :
  fold_left (classifySize CONFIG ngramResults) sizes acc =
  ((fst acc
    ++ flat_map (fun size => flat_map (keywordsFor CONFIG size)
                                      (aggregatesOf ngramResults size))
                sizes)%list,
   (snd acc
    ++ flat_map (fun size => flat_map (negativesFor CONFIG size)
                                      (aggregatesOf ngramResults size))
                sizes)%list).
Proof.
  revert acc. induction sizes as [|size sizes IH]; intro acc; simpl.
  - rewrite !app_nil_r. destruct acc; reflexivity.
  - rewrite IH, classifySize_pushes. simpl. rewrite <- !app_assoc.
    reflexivity.
Qed.

(** The two arrays before sorting, aggregate by aggregate. *)
Lemma classify_pushes (ngramResults : results) :
  classify CONFIG ngramResults =
  (flat_map (fun size => flat_map (keywordsFor CONFIG size)
                                  (aggregatesOf ngramResults size))
            (NGRAM_SIZES CONFIG),
   flat_map (fun size => flat_map (negativesFor CONFIG size)
                                  (aggregatesOf ngramResults size))
            (NGRAM_SIZES CONFIG)).
Proof.
  unfold classify. rewrite fold_classifySize. reflexivity.
Qed.

Lemma eligible_spec (ng : Ngram.t) :
  eligible CONFIG ng = true <->
  (MIN_IMPRESSIONS CONFIG <= Ngram.impressions (Ngram.sums ng))%Qc
  /\ (MIN_CLICKS CONFIG <= Ngram.clicks (Ngram.sums ng))%Qc.
Proof.
  unfold eligible.
  rewrite andb_true_iff, negb_true_iff, Qcltb_false_le, Qcleb_le.
  reflexivity.
Qed.

Lemma isNegative_spec (ng : Ngram.t) :
  isNegative CONFIG ng = true <->
  leb (Ngram.ctr ng) (LOW_CTR_THRESHOLD CONFIG) = true
  \/ ((zeroQ < TARGET_CPA CONFIG)%Qc
      /\ gtb (Ngram.cpa ng)
             (TARGET_CPA CONFIG * HIGH_CPA_MULTIPLIER CONFIG)%Qc = true).
Proof.
  unfold isNegative.
  rewrite orb_true_iff, andb_true_iff, Qcltb_lt. reflexivity.
Qed.

Lemma isOpportunity_spec (ng : Ngram.t) :
  isOpportunity CONFIG ng = true <->
  geb (Ngram.ctr ng) (HIGH_CTR_THRESHOLD CONFIG) = true
  \/ geb (Ngram.convRate ng) (HIGH_CONV_RATE CONFIG) = true.
Proof.
  unfold isOpportunity. apply orb_true_iff.
Qed.


Lemma In_negativesFor (size : Z) (ng : Ngram.t) (r : Negative.t) :
  In r (negativesFor CONFIG size ng) <->
  r = negativeOf CONFIG size ng
  /\ eligible CONFIG ng && isNegative CONFIG ng = true.
Proof.
  unfold negativesFor.
  destruct (eligible CONFIG ng && isNegative CONFIG ng); simpl.
  - split; [intros [<-|[]]; auto | intros [-> _]; auto].
  - split; [contradiction | intros [_ H]; discriminate].
Qed.


End ClassifierFacts.





Section KeywordFacts.
Variable CONFIG : config.


End KeywordFacts.


(* ================================================================== *)
(** ** The orchestrator *)
(* ================================================================== *)

Lemma getResult_setResult_same (size : Z) (ngrams : obj Ngram.t)
    (ngramResults : results) :
  getResult size (setResult size ngrams ngramResults) = Some ngrams.
Proof.
  induction ngramResults as [|[s old] rest IH]; simpl.
  - rewrite Z.eqb_refl. reflexivity.
  - destruct (Z.eqb s size) eqn:E; simpl; rewrite E; auto.
Qed.

Lemma getResult_setResult_other (size s : Z) (ngrams : obj Ngram.t)
    (ngramResults : results) :
  s <> size ->
  getResult s (setResult size ngrams ngramResults) = getResult s ngramResults.
Proof.
  intro Hne. induction ngramResults as [|[s' old] rest IH]; simpl.
  - destruct (Z.eqb_spec size s); [congruence | reflexivity].
  - destruct (Z.eqb_spec s' size) as [->|Hs]; simpl.
    + destruct (Z.eqb_spec size s); [congruence | reflexivity].
    + destruct (Z.eqb s' s); auto.
Qed.

Lemma getResult_fold_setResult (F : Z -> obj Ngram.t) (sizes : list Z)
    (s : Z) (ngramResults : results) :
  getResult s (fold_left (fun acc size => setResult size (F size) acc)
                         sizes ngramResults) =
  if existsb (Z.eqb s) sizes then Some (F s) else getResult s ngramResults.
Proof.
  revert ngramResults.
  induction sizes as [|size sizes IH]; intro ngramResults; simpl;
    [reflexivity|].
  rewrite IH. destruct (existsb (Z.eqb s) sizes);
    [rewrite orb_true_r; reflexivity|].
  rewrite orb_false_r.
  destruct (Z.eqb_spec s size) as [->|Hne].
  - apply getResult_setResult_same.
  - apply getResult_setResult_other. exact Hne.
Qed.

Lemma getResult_analyzeAll (CONFIG : config) (queryData : list Query.t)
    (s : Z) :
  getResult s (analyzeAll CONFIG queryData) =
  if existsb (Z.eqb s) (NGRAM_SIZES CONFIG)
  then Some (analyzeNgrams CONFIG queryData s) else None.
Proof.
  unfold analyzeAll.
  apply (getResult_fold_setResult (analyzeNgrams CONFIG queryData)).
Qed.

(** C2, as stated, fails: with an empty size list, and with the size list
    [0], a run over one report row returns normally; with the size 0 the
    aggregator has run and has counted the empty n-gram four times. *)
Lemma no_configuration_error_counterexample :
  main emptySizes [sampleRow]
    = Returned (Analysed [] (mkRecommendations [] []))
  /\ (exists ngramResults recs,
        main zeroSize [sampleRow] = Returned (Analysed ngramResults recs)
        /\ option_map
             (map (fun p => (fst p, Ngram.queries (Ngram.sums (snd p)))))
             (getResult 0 ngramResults)
           = Some [("", 4)]).
Proof.
  split; [reflexivity|].
  eexists. eexists. split; [reflexivity|].
  vm_compute. reflexivity.
Qed.

(** C2, amended. The orchestrator does not inspect the size list and throws
    no configuration error: for every size list a run returns normally.
    When the report has no row it returns before any aggregation; otherwise
    it runs the aggregator for each configured size, whatever its sign, and
    the classifier once on the results. *)
Theorem main_runs_for_every_size_list (CONFIG : config) (rows : list Row.t) :
  let queryData := getSearchQueryData rows in
  let ngramResults := analyzeAll CONFIG queryData in
  (forall message, main CONFIG rows <> Thrown message)
  /\ main CONFIG rows
     = match rows with
       | [] => Returned NoData
       | _ :: _ =>
           Returned (Analysed ngramResults
                              (generateRecommendations CONFIG ngramResults))
       end
  /\ forall size,
       getResult size ngramResults
       = if existsb (Z.eqb size) (NGRAM_SIZES CONFIG)
         then Some (analyzeNgrams CONFIG queryData size) else None.
Proof.
  intros queryData ngramResults. split; [|split].
  - intro message. unfold main.
    destruct (List.length (getSearchQueryData rows) =? 0)%nat; discriminate.
  - destruct rows; reflexivity.
  - intro size. apply getResult_analyzeAll.
Qed.

(* ================================================================== *)
(** ** The tokenizer on inherited property names *)
(* ================================================================== *)

(** What the tokenizer keeps: the pieces longer than one character that are
    neither stop words nor names inherited from [Object.prototype]. *)
Lemma tokenize_filter (CONFIG : config) (raw : string) :
  tokenize CONFIG raw =
  filter (fun w => (1 <? String.length w)%nat
                   && negb (existsb (String.eqb w) (STOP_WORDS CONFIG))
                   && negb (inPrototype w))
         (splitWhitespace (toLowerCase raw)).
Proof.
  unfold tokenize. apply filter_ext. intro w.
  unfold keepWord. rewrite truthyAt_stopWords, negb_orb, andb_assoc.
  f_equal. f_equal.
  destruct (Nat.ltb_spec 1 (String.length w));
    destruct (Z.ltb_spec 1 (Z.of_nat (String.length w))); auto; lia.
Qed.

(** C6 at the query "constructor toys": the token "constructor" has eleven
    characters and is not a stop word, and the tokenizer drops it, because
    [stopWords["constructor"]] is the function every object inherits. *)
Theorem tokenize_drops_inherited_name :
  tokenize defaultConfig "constructor toys" = ["toys"]
  /\ splitWhitespace (toLowerCase "constructor toys")
     = ["constructor"; "toys"]
  /\ (1 < String.length "constructor")%nat
  /\ ~ In "constructor" (STOP_WORDS defaultConfig)
  /\ truthyAt "constructor" (stopWords defaultConfig) = true.
Proof.
  split; [reflexivity|]. split; [reflexivity|].
  split; [simpl; lia|]. split; [|reflexivity].
  simpl. intro H.
  repeat (destruct H as [H|H]; [discriminate H|]). exact H.
Qed.

(* ================================================================== *)
(** ** The maps of a run are well formed *)
(* ================================================================== *)

Section KeysFacts.
Context {A : Type}.
Implicit Types (o : obj A) (key k : string).

Lemma keys_updateOwn key (f : A -> A) o : keys (updateOwn key f o) = keys o.
Proof.
  unfold keys. induction o as [|[k w] rest IH]; simpl; [reflexivity|].
  destruct (String.eqb k key); simpl; [reflexivity | rewrite IH; reflexivity].
Qed.

Lemma keys_setOwn_new key (v : A) o :
  getOwn key o = None -> keys (setOwn key v o) = (keys o ++ [key])%list.
Proof.
  unfold keys. induction o as [|[k w] rest IH]; simpl; [reflexivity|].
  destruct (String.eqb k key); [discriminate|].
  intro H. simpl. rewrite (IH H). reflexivity.
Qed.

Lemma In_getOwn key (v : A) o :
  NoDup (keys o) -> In (key, v) o -> getOwn key o = Some v.
Proof.
  unfold keys. induction o as [|[k w] rest IH]; simpl; [contradiction|].
  intros Hnodup Hin. inversion Hnodup as [|? ? Hk Hrest]; subst.
  destruct Hin as [[= -> ->]|Hin].
  - rewrite String.eqb_refl. reflexivity.
  - destruct (String.eqb_spec k key) as [->|Hne]; [|auto].
    exfalso. apply Hk. apply in_map_iff. exists (key, v). auto.
Qed.

End KeysFacts.

Section WellFormed.
Variable CONFIG : config.

Lemma keys_countNgram (query : Query.t) (ngrams : obj Ngram.totals)
    (ngram : string) :
  NoDup (keys ngrams) -> NoDup (keys (countNgram query ngrams ngram)).
Proof.
  intro Hnodup. unfold countNgram, truthyAt. rewrite keys_updateOwn.
  destruct (getOwn ngram ngrams) eqn:E; simpl; [exact Hnodup|].
  destruct (inPrototype ngram); simpl; [exact Hnodup|].
  rewrite keys_setOwn_new by exact E.
  apply NoDup_app; [exact Hnodup | repeat constructor; simpl; tauto |].
  intros k Hk [<-|[]]. apply getOwn_keys in Hk. congruence.
Qed.

Lemma keys_countAll (queryData : list Query.t) (n : Z) :
  NoDup (keys (countAll CONFIG queryData n)).
Proof.
  rewrite countAll_occurrences.
  generalize (occurrences CONFIG queryData n). intro occs.
  assert (NoDup (keys (@nil (string * Ngram.totals)))) as H by constructor.
  revert H. generalize (@nil (string * Ngram.totals)).
  induction occs as [|p occs IH]; intros o Ho; simpl; [exact Ho|].
  apply IH. apply keys_countNgram. exact Ho.
Qed.



End WellFormed.


(* ================================================================== *)
(** ** What the returned recommendations have in common *)
(* ================================================================== *)

Section ReturnedFacts.
Variable CONFIG : config.

Lemma In_keywordsFor (size : Z) (ng : Ngram.t) (r : Keyword.t) :
  In r (keywordsFor CONFIG size ng) <->
  r = keywordOf CONFIG size ng
  /\ eligible CONFIG ng && isOpportunity CONFIG ng = true.
Proof.
  unfold keywordsFor.
  destruct (eligible CONFIG ng && isOpportunity CONFIG ng); simpl.
  - split; [intros [<-|[]]; auto | intros [-> _]; auto].
  - split; [contradiction | intros [_ H]; discriminate].
Qed.

Lemma returned_keywords_emitted (ngramResults : results) (r : Keyword.t) :
  In r (keywords (generateRecommendations CONFIG ngramResults)) ->
  In r (fst (classify CONFIG ngramResults)).
Proof.
  unfold generateRecommendations. cbn [keywords]. intro Hin.
  apply slice_incl in Hin.
  eapply Permutation_in; [|exact Hin].
  apply (jsSort_Permutation Keyword.conversions).
Qed.

Lemma returned_negatives_emitted (ngramResults : results) (r : Negative.t) :
  In r (negatives (generateRecommendations CONFIG ngramResults)) ->
  In r (snd (classify CONFIG ngramResults)).
Proof.
  unfold generateRecommendations. cbn [negatives]. intro Hin.
  apply slice_incl in Hin.
  eapply Permutation_in; [|exact Hin].
  apply (jsSort_Permutation Negative.cost).
Qed.

Lemma emitted_keyword_source (ngramResults : results) (r : Keyword.t) :
  In r (fst (classify CONFIG ngramResults)) ->
  exists size ng,
    In size (NGRAM_SIZES CONFIG)
    /\ In ng (aggregatesOf ngramResults size)
    /\ r = keywordOf CONFIG size ng
    /\ eligible CONFIG ng = true /\ isOpportunity CONFIG ng = true.
Proof.
  rewrite classify_pushes. simpl fst. intro Hin.
  apply in_flat_map in Hin. destruct Hin as [size [Hsize Hin]].
  apply in_flat_map in Hin. destruct Hin as [ng [Hng Hin]].
  apply In_keywordsFor in Hin. destruct Hin as [-> Htests].
  apply andb_true_iff in Htests. destruct Htests as [He Ho].
  exists size, ng. auto.
Qed.

Lemma emitted_negative_source (ngramResults : results) (r : Negative.t) :
  In r (snd (classify CONFIG ngramResults)) ->
  exists size ng,
    In size (NGRAM_SIZES CONFIG)
    /\ In ng (aggregatesOf ngramResults size)
    /\ r = negativeOf CONFIG size ng
    /\ eligible CONFIG ng = true /\ isNegative CONFIG ng = true.
Proof.
  rewrite classify_pushes. simpl snd. intro Hin.
  apply in_flat_map in Hin. destruct Hin as [size [Hsize Hin]].
  apply in_flat_map in Hin. destruct Hin as [ng [Hng Hin]].
  apply In_negativesFor in Hin. destruct Hin as [-> Htests].
  apply andb_true_iff in Htests. destruct Htests as [He Ho].
  exists size, ng. auto.
Qed.

End ReturnedFacts.

(** X1. Every returned keyword opportunity carries a configured size, at
    least [MIN_IMPRESSIONS] impressions and [MIN_CLICKS] clicks, and a CTR
    or a conversion rate at or above its threshold; its reason is
    "High conversion rate" exactly when the conversion rate qualifies. *)
Theorem returned_keyword_qualifies (CONFIG : config) (ngramResults : results)
    (r : Keyword.t) :
  In r (keywords (generateRecommendations CONFIG ngramResults)) ->
  In (Keyword.size r) (NGRAM_SIZES CONFIG)
  /\ (MIN_IMPRESSIONS CONFIG <= Keyword.impressions r)%Qc
  /\ (MIN_CLICKS CONFIG <= Keyword.clicks r)%Qc
  /\ (geb (Keyword.ctr r) (HIGH_CTR_THRESHOLD CONFIG) = true
      \/ geb (Keyword.convRate r) (HIGH_CONV_RATE CONFIG) = true)
  /\ (Keyword.reason r = "High conversion rate"
      <-> geb (Keyword.convRate r) (HIGH_CONV_RATE CONFIG) = true)
  /\ (Keyword.reason r = "High CTR"
      <-> geb (Keyword.convRate r) (HIGH_CONV_RATE CONFIG) = false).
Proof.
  intro Hin. apply returned_keywords_emitted in Hin.
  apply emitted_keyword_source in Hin.
  destruct Hin as [size [ng [Hsize [_ [-> [He Ho]]]]]].
  apply eligible_spec in He. destruct He as [Himp Hclicks].
  apply isOpportunity_spec in Ho.
  unfold keywordOf. cbn [Keyword.size Keyword.impressions Keyword.clicks
                         Keyword.ctr Keyword.convRate Keyword.reason].
  repeat split; try assumption;
    destruct (geb (Ngram.convRate ng) (HIGH_CONV_RATE CONFIG));
    intros; congruence.
Qed.

Lemma returned_keyword_qualifies_witness :
  let CONFIG := defaultConfig in
  let r := keywordOf CONFIG 1 sampleEntryBuy in
  In (Keyword.size r) (NGRAM_SIZES CONFIG)
  /\ (MIN_IMPRESSIONS CONFIG <= Keyword.impressions r)%Qc
  /\ (MIN_CLICKS CONFIG <= Keyword.clicks r)%Qc
  /\ (geb (Keyword.ctr r) (HIGH_CTR_THRESHOLD CONFIG) = true
      \/ geb (Keyword.convRate r) (HIGH_CONV_RATE CONFIG) = true)
  /\ (Keyword.reason r = "High conversion rate"
      <-> geb (Keyword.convRate r) (HIGH_CONV_RATE CONFIG) = true)
  /\ (Keyword.reason r = "High CTR"
      <-> geb (Keyword.convRate r) (HIGH_CONV_RATE CONFIG) = false).
Proof.
  apply (returned_keyword_qualifies defaultConfig
           (analyzeAll defaultConfig [sampleQueryA])).
  vm_compute. left. reflexivity.
Defined.

(** X2. Every returned negative candidate carries a configured size and at
    least [MIN_IMPRESSIONS] impressions and [MIN_CLICKS] clicks; its reason
    is "Low CTR" exactly when its CTR is at or below [LOW_CTR_THRESHOLD],
    and otherwise it is "High CPA", the target CPA is positive and the CPA
    exceeds [TARGET_CPA * HIGH_CPA_MULTIPLIER].  So with no target CPA
    every reason is "Low CTR". *)
Theorem returned_negative_reason (CONFIG : config) (ngramResults : results)
    (r : Negative.t) :
  In r (negatives (generateRecommendations CONFIG ngramResults)) ->
  In (Negative.size r) (NGRAM_SIZES CONFIG)
  /\ (MIN_IMPRESSIONS CONFIG <= Negative.impressions r)%Qc
  /\ (MIN_CLICKS CONFIG <= Negative.clicks r)%Qc
  /\ (Negative.reason r = "Low CTR"
      <-> leb (Negative.ctr r) (LOW_CTR_THRESHOLD CONFIG) = true)
  /\ (leb (Negative.ctr r) (LOW_CTR_THRESHOLD CONFIG) = false ->
      Negative.reason r = "High CPA"
      /\ (zeroQ < TARGET_CPA CONFIG)%Qc
      /\ gtb (Negative.cpa r)
             (TARGET_CPA CONFIG * HIGH_CPA_MULTIPLIER CONFIG)%Qc = true)
  /\ ((TARGET_CPA CONFIG <= zeroQ)%Qc -> Negative.reason r = "Low CTR").
Proof.
  intro Hin. apply returned_negatives_emitted in Hin.
  apply emitted_negative_source in Hin.
  destruct Hin as [size [ng [Hsize [_ [-> [He Hn]]]]]].
  apply eligible_spec in He. destruct He as [Himp Hclicks].
  apply isNegative_spec in Hn.
  unfold negativeOf. cbn [Negative.size Negative.impressions Negative.clicks
                          Negative.ctr Negative.cpa Negative.reason].
  split; [exact Hsize|]. split; [exact Himp|]. split; [exact Hclicks|].
  destruct (leb (Ngram.ctr ng) (LOW_CTR_THRESHOLD CONFIG)) eqn:E.
  - split; [split; reflexivity|]. split; [discriminate | reflexivity].
  - destruct Hn as [Hn|[Ht Hcpa]]; [discriminate|].
    split; [split; discriminate|]. split; [auto|].
    intro Hle. exfalso. exact (Qcle_not_lt _ _ Hle Ht).
Qed.

Lemma returned_negative_reason_witness :
  let CONFIG := defaultConfig in
  let r := negativeOf CONFIG 1 sampleEntryD in
  In (Negative.size r) (NGRAM_SIZES CONFIG)
  /\ (MIN_IMPRESSIONS CONFIG <= Negative.impressions r)%Qc
  /\ (MIN_CLICKS CONFIG <= Negative.clicks r)%Qc
  /\ (Negative.reason r = "Low CTR"
      <-> leb (Negative.ctr r) (LOW_CTR_THRESHOLD CONFIG) = true)
  /\ (leb (Negative.ctr r) (LOW_CTR_THRESHOLD CONFIG) = false ->
      Negative.reason r = "High CPA"
      /\ (zeroQ < TARGET_CPA CONFIG)%Qc
      /\ gtb (Negative.cpa r)
             (TARGET_CPA CONFIG * HIGH_CPA_MULTIPLIER CONFIG)%Qc = true)
  /\ ((TARGET_CPA CONFIG <= zeroQ)%Qc -> Negative.reason r = "Low CTR").
Proof.
  apply (returned_negative_reason defaultConfig
           (analyzeAll defaultConfig [sampleQueryD])).
  vm_compute. left. reflexivity.
Defined.

(* ================================================================== *)
(** ** What the totals of a map add up to *)
(* ================================================================== *)

Lemma sumQc_app (l l' : list Qc) :
  sumQc (l ++ l') = (sumQc l + sumQc l')%Qc.
Proof.
  induction l as [|x l IH]; simpl.
  - unfold zeroQ. rewrite Qcplus_0_l. reflexivity.
  - rewrite IH. apply Qcplus_assoc.
Qed.

Lemma sumQc_map_plus {X : Type} (f g : X -> Qc) (l : list X) :
  sumQc (map (fun x => f x + g x)%Qc l)
  = (sumQc (map f l) + sumQc (map g l))%Qc.
Proof.
  induction l as [|x l IH]; simpl.
  - unfold zeroQ. rewrite Qcplus_0_l. reflexivity.
  - rewrite IH. ring.
Qed.

Lemma sumQc_indicator (ks : list string) (g : string) (x : Qc) :
  NoDup ks -> In g ks ->
  sumQc (map (fun k => if String.eqb g k then x else zeroQ) ks) = x.
Proof.
  induction 1 as [|k ks Hk Hnodup IH]; [contradiction|].
  intros [->|Hin]; simpl.
  - rewrite String.eqb_refl.
    replace (sumQc (map (fun k => if String.eqb g k then x else zeroQ) ks))
      with zeroQ; [unfold zeroQ; apply Qcplus_0_r|].
    clear IH Hnodup. induction ks as [|k' ks IH]; [reflexivity|].
    simpl. destruct (String.eqb_spec g k') as [->|Hne].
    + exfalso. apply Hk. now left.
    + rewrite <- IH; [unfold zeroQ; rewrite Qcplus_0_l; reflexivity|].
      intro H. apply Hk. now right.
  - destruct (String.eqb_spec g k) as [->|Hne]; [contradiction|].
    rewrite (IH Hin). unfold zeroQ. apply Qcplus_0_l.
Qed.

Lemma list_sum_indicator (ks : list string) (g : string) :
  NoDup ks -> In g ks ->
  list_sum (map (fun k => if String.eqb g k then 1%nat else 0%nat) ks)
  = 1%nat.
Proof.
  induction 1 as [|k ks Hk Hnodup IH]; [contradiction|].
  intros [->|Hin]; simpl.
  - rewrite String.eqb_refl.
    replace (list_sum
               (map (fun k => if String.eqb g k then 1%nat else 0%nat) ks))
      with 0%nat; [reflexivity|].
    clear IH Hnodup. induction ks as [|k' ks IH]; [reflexivity|].
    simpl. destruct (String.eqb_spec g k') as [->|Hne].
    + exfalso. apply Hk. now left.
    + rewrite <- IH; [reflexivity|].
      intro H. apply Hk. now right.
  - destruct (String.eqb_spec g k) as [->|Hne]; [contradiction|].
    rewrite (IH Hin). reflexivity.
Qed.

Lemma list_sum_map_plus {X : Type} (f g : X -> nat) (l : list X) :
  list_sum (map (fun x => f x + g x)%nat l)
  = (list_sum (map f l) + list_sum (map g l))%nat.
Proof.
  induction l as [|x l IH]; simpl; [reflexivity | rewrite IH; lia].
Qed.

Lemma list_sum_zeros {X : Type} (l : list X) :
  list_sum (map (fun _ => 0%nat) l) = 0%nat.
Proof. induction l; simpl; auto. Qed.

Lemma sumQc_zeros {X : Type} (l : list X) :
  sumQc (map (fun _ => zeroQ) l) = zeroQ.
Proof.
  induction l as [|x l IH]; simpl; [reflexivity|].
  rewrite IH. unfold zeroQ. apply Qcplus_0_l.
Qed.

Section Partition.
Context {V : Type}.
Variable ks : list string.
Hypothesis ks_NoDup : NoDup ks.

(** The pairs filed under each key of [ks] are, all together, all pairs. *)
Lemma partition_lengths (occs : list (string * V)) :
  (forall p, In p occs -> In (fst p) ks) ->
  list_sum (map (fun k => List.length
                            (filter (fun p => String.eqb (fst p) k) occs))
                ks)
  = List.length occs.
Proof.
  induction occs as [|p occs IH]; intro Hcover.
  - simpl. apply list_sum_zeros.
  - rewrite (map_ext _
       (fun k => ((if String.eqb (fst p) k then 1 else 0)
                  + List.length
                      (filter (fun p => String.eqb (fst p) k) occs))%nat)).
    + rewrite list_sum_map_plus, list_sum_indicator, IH.
      * reflexivity.
      * intros q Hq. apply Hcover. now right.
      * exact ks_NoDup.
      * apply Hcover. now left.
    + intro k. simpl. destruct (String.eqb (fst p) k); reflexivity.
Qed.

Lemma partition_sums (f : V -> Qc) (occs : list (string * V)) :
  (forall p, In p occs -> In (fst p) ks) ->
  sumQc (map (fun k =>
                sumQc (map f (map snd
                                  (filter (fun p => String.eqb (fst p) k)
                                          occs))))
             ks)
  = sumQc (map (fun p => f (snd p)) occs).
Proof.
  induction occs as [|p occs IH]; intro Hcover.
  - simpl. apply (sumQc_zeros ks).
  - rewrite (map_ext _
       (fun k => ((if String.eqb (fst p) k then f (snd p) else zeroQ)
                  + sumQc (map f (map snd
                                      (filter (fun p => String.eqb (fst p) k)
                                              occs))))%Qc)).
    + rewrite sumQc_map_plus, sumQc_indicator, IH.
      * reflexivity.
      * intros q Hq. apply Hcover. now right.
      * exact ks_NoDup.
      * apply Hcover. now left.
    + intro k. simpl. destruct (String.eqb (fst p) k); simpl;
        [reflexivity | unfold zeroQ; rewrite Qcplus_0_l; reflexivity].
Qed.

End Partition.

Lemma natQc_succ (k : nat) : natQc (S k) = (Q2Qc 1 + natQc k)%Qc.
Proof.
  unfold natQc, Qcplus. apply Q2Qc_eq_iff.
  rewrite Nat2Z.inj_succ, <- Z.add_1_l, inject_Z_plus.
  unfold Q2Qc. cbn [this]. rewrite !Qred_correct. reflexivity.
Qed.

Lemma sumQc_constant {X : Type} (x : Qc) (l : list X) :
  sumQc (map (fun _ => x) l) = (natQc (List.length l) * x)%Qc.
Proof.
  induction l as [|y l IH]; simpl.
  - symmetry. apply Qcmult_0_l.
  - rewrite IH, natQc_succ. ring.
Qed.

Lemma length_flat_map_sum {X Y : Type} (f : X -> list Y) (l : list X) :
  List.length (flat_map f l)
  = list_sum (map (fun x => List.length (f x)) l).
Proof.
  induction l as [|x l IH]; simpl; [reflexivity|].
  rewrite length_app, IH. reflexivity.
Qed.

Lemma sumZ_of_nat {X : Type} (h : X -> nat) (l : list X) :
  sumZ (map (fun x => Z.of_nat (h x)) l) = Z.of_nat (list_sum (map h l)).
Proof.
  induction l as [|x l IH]; simpl; [reflexivity | rewrite IH; lia].
Qed.

Section AddUp.
Variable CONFIG : config.

Lemma generateNgrams_length (ws : list string) (n : Z) :
  1 <= n ->
  List.length (generateNgrams ws n)
  = (List.length ws + 1 - Z.to_nat n)%nat.
Proof.
  intro Hn. rewrite generateNgrams_windows by exact Hn.
  rewrite length_map, length_seq. reflexivity.
Qed.

Lemma occurrences_length (queryData : list Query.t) (n : Z) :
  1 <= n ->
  List.length (occurrences CONFIG queryData n)
  = list_sum (map (windowsIn CONFIG n) queryData).
Proof.
  intro Hn. unfold occurrences. rewrite length_flat_map_sum.
  f_equal. apply map_ext. intro q.
  rewrite length_map. apply generateNgrams_length. exact Hn.
Qed.

Lemma occurrences_sum (f : Query.t -> Qc) (queryData : list Query.t)
    (n : Z) :
  1 <= n ->
  sumQc (map (fun p => f (snd p)) (occurrences CONFIG queryData n))
  = sumQc (map (fun q => (natQc (windowsIn CONFIG n q) * f q)%Qc) queryData).
Proof.
  intro Hn. unfold occurrences.
  induction queryData as [|q rest IH]; [reflexivity|].
  simpl. rewrite map_app, sumQc_app, IH. f_equal.
  rewrite map_map. simpl.
  rewrite (sumQc_constant (f q)). unfold windowsIn.
  rewrite generateNgrams_length by exact Hn. reflexivity.
Qed.

(** The entries of a map, key by key. *)
Lemma analyzeNgrams_entries (queryData : list Query.t) (n : Z) :
  analyzeNgrams CONFIG queryData n
  = map (fun k => (k, deriveMetrics
                        (totalsOf k (contributors CONFIG k queryData n))))
        (keys (countAll CONFIG queryData n)).
Proof.
  unfold analyzeNgrams, keys. rewrite map_map.
  apply map_ext_in. intros [k ng] Hin. simpl. f_equal. f_equal.
  apply (In_getOwn k ng _ (keys_countAll CONFIG queryData n)) in Hin.
  rewrite getOwn_countAll in Hin.
  destruct (contributors CONFIG k queryData n); [discriminate|].
  injection Hin as <-. reflexivity.
Qed.

Lemma occurrences_covered (queryData : list Query.t) (n : Z)
    (p : string * Query.t) :
  In p (occurrences CONFIG queryData n) ->
  In (fst p) (keys (countAll CONFIG queryData n)).
Proof.
  intro Hin. apply getOwn_keys. rewrite getOwn_countAll.
  assert (In (snd p) (contributors CONFIG (fst p) queryData n)) as Hc.
  { unfold contributors. apply in_map. apply filter_In.
    split; [exact Hin | apply String.eqb_refl]. }
  destruct (contributors CONFIG (fst p) queryData n);
    [contradiction | discriminate].
Qed.

Lemma keys_have_contributors (queryData : list Query.t) (n : Z)
    (k : string) :
  In k (keys (countAll CONFIG queryData n)) ->
  (1 <= List.length (contributors CONFIG k queryData n))%nat.
Proof.
  intro Hin. apply getOwn_keys in Hin. rewrite getOwn_countAll in Hin.
  destruct (contributors CONFIG k queryData n); [congruence | simpl; lia].
Qed.

End AddUp.

(** X3. For a size [n >= 1], the [queries] counts of a map add up to the
    number of windows of the run, the sum over the queries of
    max(0, tokens - n + 1); each query's impressions are counted once per
    window; and the map has at most as many keys as there are windows. *)
Theorem totals_add_up (CONFIG : config) (queryData : list Query.t) (n : Z) :
  1 <= n ->
  let ngrams := analyzeNgrams CONFIG queryData n in
  sumZ (map (fun p => Ngram.queries (Ngram.sums (snd p))) ngrams)
  = Z.of_nat (list_sum (map (windowsIn CONFIG n) queryData))
  /\ sumQc (map (fun p => Ngram.impressions (Ngram.sums (snd p))) ngrams)
     = sumQc (map (fun q => (natQc (windowsIn CONFIG n q)
                             * Query.impressions q)%Qc)
                  queryData)
  /\ (List.length ngrams
      <= list_sum (map (windowsIn CONFIG n) queryData))%nat.
Proof.
  intros Hn ngrams. subst ngrams.
  rewrite analyzeNgrams_entries, !map_map. simpl.
  rewrite length_map.
  pose proof (keys_countAll CONFIG queryData n) as Hnodup.
  pose proof (occurrences_covered CONFIG queryData n) as Hcover.
  rewrite <- (occurrences_length CONFIG queryData n Hn).
  rewrite <- (occurrences_sum CONFIG Query.impressions queryData n Hn).
  rewrite <- (partition_lengths _ Hnodup _ Hcover).
  rewrite <- (partition_sums _ Hnodup Query.impressions _ Hcover).
  split; [|split].
  - rewrite sumZ_of_nat. f_equal. f_equal. apply map_ext. intro k.
    unfold contributors. apply length_map.
  - reflexivity.
  - generalize (keys_have_contributors CONFIG queryData n).
    generalize (keys (countAll CONFIG queryData n)). intros ks Hks.
    induction ks as [|k ks IH]; [simpl; lia|].
    simpl. specialize (Hks k (or_introl eq_refl)) as Hk.
    unfold contributors in Hk. rewrite length_map in Hk.
    assert (List.length ks
            <= list_sum
                 (map (fun k0 =>
                         List.length
                           (filter (fun p => String.eqb (fst p) k0)
                                   (occurrences CONFIG queryData n)))
                      ks))%nat as IH'.
    { apply IH. intros k' Hk'. apply Hks. now right. }
    lia.
Qed.

Lemma totals_add_up_witness :
  let CONFIG := defaultConfig in
  let queryData := [sampleQueryA; sampleQueryB] in
  let ngrams := analyzeNgrams CONFIG queryData 2 in
  sumZ (map (fun p => Ngram.queries (Ngram.sums (snd p))) ngrams)
  = Z.of_nat (list_sum (map (windowsIn CONFIG 2) queryData))
  /\ sumQc (map (fun p => Ngram.impressions (Ngram.sums (snd p))) ngrams)
     = sumQc (map (fun q => (natQc (windowsIn CONFIG 2 q)
                             * Query.impressions q)%Qc)
                  queryData)
  /\ (List.length ngrams
      <= list_sum (map (windowsIn CONFIG 2) queryData))%nat.
Proof.
  apply (totals_add_up defaultConfig [sampleQueryA; sampleQueryB] 2). lia.
Defined.

(* ================================================================== *)
(** ** The range of the derived metrics *)
(* ================================================================== *)

Lemma Qcdiv_nonneg (a b : Qc) :
  (zeroQ <= a)%Qc -> (zeroQ <= b)%Qc -> (zeroQ <= a / b)%Qc.
Proof.
  unfold Qcle, Qcdiv, Qcmult, Qcinv, zeroQ, Q2Qc. cbn [this].
  intros Ha Hb. rewrite !Qred_correct in *.
  apply Qmult_le_0_compat; [exact Ha|].
  apply Qinv_le_0_compat. exact Hb.
Qed.

Lemma Qcdiv_le_one (a b : Qc) :
  (zeroQ < b)%Qc -> (a <= b)%Qc -> (a / b <= Q2Qc 1)%Qc.
Proof.
  unfold Qcle, Qclt, Qcdiv, Qcmult, Qcinv, zeroQ, Q2Qc. cbn [this].
  intros Hb Hab. rewrite !Qred_correct in *.
  apply Qle_shift_div_r; [exact Hb|].
  rewrite Qmult_1_l. exact Hab.
Qed.

Lemma ratioOrZero_nonneg (a b : Qc) :
  (zeroQ <= a)%Qc -> (zeroQ <= b)%Qc -> (zeroQ <= ratioOrZero a b)%Qc.
Proof.
  intros Ha Hb. unfold ratioOrZero.
  destruct (Qceqb b zeroQ); [apply Qcle_refl | apply Qcdiv_nonneg; assumption].
Qed.

Lemma ratioOrZero_le_one (a b : Qc) :
  (zeroQ <= b)%Qc -> (a <= b)%Qc -> (ratioOrZero a b <= Q2Qc 1)%Qc.
Proof.
  intros Hb Hab. unfold ratioOrZero.
  destruct (Qceqb b zeroQ) eqn:E.
  - unfold Qcle, zeroQ. simpl. unfold Qle. simpl. lia.
  - apply Qceqb_neq in E. apply Qcdiv_le_one; [|exact Hab].
    destruct (Qcle_lt_or_eq _ _ Hb) as [Hlt|Heq]; [exact Hlt | congruence].
Qed.

Lemma sumQc_le {X : Type} (f g : X -> Qc) (l : list X) :
  Forall (fun x => (f x <= g x)%Qc) l ->
  (sumQc (map f l) <= sumQc (map g l))%Qc.
Proof.
  induction 1 as [|x l Hx _ IH]; simpl.
  - apply Qcle_refl.
  - apply Qcplus_le_compat; assumption.
Qed.

Lemma totalsOf_conversionValue_nonneg (key : string) (cs : list Query.t) :
  Forall nonNegative cs ->
  (zeroQ <= Ngram.conversionValue (totalsOf key cs))%Qc.
Proof.
  intro H. simpl. apply sumQc_nonneg, Forall_map.
  eapply Forall_impl; [|exact H]. intros q Hq. apply Hq.
Qed.

(** X4. For records without negative metrics every derived metric of every
    stored aggregate is a finite number that is not negative; when moreover
    no record has more clicks than impressions, the CTR of every aggregate
    is at most 1. *)
Theorem derived_metrics_range (CONFIG : config) (queryData : list Query.t)
    (n : Z) (key : string) (ng : Ngram.t) :
  Forall nonNegative queryData ->
  getOwn key (analyzeNgrams CONFIG queryData n) = Some ng ->
  finiteNonNegative (Ngram.ctr ng)
  /\ finiteNonNegative (Ngram.cpc ng)
  /\ finiteNonNegative (Ngram.convRate ng)
  /\ finiteNonNegative (Ngram.cpa ng)
  /\ finiteNonNegative (Ngram.roas ng)
  /\ (Forall clicksWithinImpressions queryData ->
      finiteAtMostOne (Ngram.ctr ng)).
Proof.
  intros Hdata Hget. rewrite getOwn_analyzeNgrams in Hget.
  destruct (contributors CONFIG key queryData n) as [|q cs] eqn:E;
    [discriminate|].
  injection Hget as <-.
  assert (forall x, In x (q :: cs) -> In x queryData) as Hsub.
  { intros x Hx. rewrite <- E in Hx.
    apply contributors_In in Hx. apply Hx. }
  assert (Forall nonNegative (q :: cs)) as Hcs.
  { apply Forall_forall. intros x Hx.
    rewrite Forall_forall in Hdata. auto. }
  destruct (totalsOf_nonneg key (q :: cs) Hcs) as [Hi [Hc [Hco Hcv]]].
  pose proof (totalsOf_conversionValue_nonneg key (q :: cs) Hcs) as Hv.
  unfold deriveMetrics.
  cbn [Ngram.ctr Ngram.cpc Ngram.convRate Ngram.cpa Ngram.roas].
  rewrite !guarded_quotient by assumption.
  unfold finiteNonNegative, finiteAtMostOne.
  repeat split; try (apply ratioOrZero_nonneg; assumption).
  intro Hwithin. apply ratioOrZero_le_one; [exact Hi|].
  unfold totalsOf. cbn [Ngram.clicks Ngram.impressions].
  apply sumQc_le. apply Forall_forall. intros x Hx.
  rewrite Forall_forall in Hwithin. apply Hwithin, Hsub, Hx.
Qed.

Lemma derived_metrics_range_witness :
  finiteNonNegative (Ngram.ctr sampleEntry)
  /\ finiteNonNegative (Ngram.cpc sampleEntry)
  /\ finiteNonNegative (Ngram.convRate sampleEntry)
  /\ finiteNonNegative (Ngram.cpa sampleEntry)
  /\ finiteNonNegative (Ngram.roas sampleEntry)
  /\ (Forall clicksWithinImpressions [sampleQueryA] ->
      finiteAtMostOne (Ngram.ctr sampleEntry)).
Proof.
  apply (derived_metrics_range defaultConfig [sampleQueryA] 2
           "cheap shoes" sampleEntry).
  - constructor; [|constructor].
    unfold nonNegative, sampleQueryA, zeroQ, Qcle. simpl.
    repeat split; unfold Qle; simpl; lia.
  - vm_compute. reflexivity.
Defined.

(* ================================================================== *)
(** ** The keys are lower-case *)
(* ================================================================== *)

Lemma lowerChar_not_upper (c : ascii) : isUpper (lowerChar c) = false.
Proof.
  destruct c as [[] [] [] [] [] [] [] []]; reflexivity.
Qed.

Lemma noUpper_toLowerCase (s : string) : noUpper (toLowerCase s) = true.
Proof.
  unfold noUpper. induction s as [|c s IH]; [reflexivity|].
  cbn [toLowerCase list_ascii_of_string forallb].
  rewrite lowerChar_not_upper, IH. reflexivity.
Qed.

Lemma noUpper_String (c : ascii) (s : string) :
  noUpper (String c s) = negb (isUpper c) && noUpper s.
Proof. reflexivity. Qed.

Lemma noUpper_append (a b : string) :
  noUpper (a ++ b) = noUpper a && noUpper b.
Proof.
  induction a as [|c a IH]; [reflexivity|].
  cbn [String.append]. rewrite !noUpper_String, IH. apply andb_assoc.
Qed.

Lemma splitWhitespace_noUpper (s : string) :
  noUpper s = true ->
  Forall (fun p => noUpper p = true) (splitWhitespace s).
Proof.
  induction s as [|c rest IH]; intro Hs.
  - repeat constructor.
  - rewrite noUpper_String in Hs. apply andb_true_iff in Hs.
    destruct Hs as [Hc Hrest]. specialize (IH Hrest).
    cbn [splitWhitespace]. destruct (isWhitespace c).
    + destruct (startsWithWhitespace rest); [exact IH|].
      constructor; [reflexivity | exact IH].
    + destruct (splitWhitespace rest) as [|p ps].
      * constructor; [|constructor].
        rewrite noUpper_String, Hc. reflexivity.
      * inversion IH as [|? ? Hp Hps]; subst.
        constructor; [|exact Hps].
        rewrite noUpper_String, Hc, Hp. reflexivity.
Qed.

Lemma join_noUpper (l : list string) :
  Forall (fun w => noUpper w = true) l -> noUpper (join " " l) = true.
Proof.
  induction 1 as [|w l Hw Hl IH]; [reflexivity|].
  destruct l as [|w' l]; [exact Hw|].
  change (join " " (w :: w' :: l))
    with (w ++ String " "%char (join " " (w' :: l))).
  rewrite noUpper_append, noUpper_String, Hw, IH. reflexivity.
Qed.

(** X5. Whatever the case of the query texts in the report, and whatever
    the size, no key of a map of the run contains an upper-case ASCII
    letter. *)
Theorem keys_are_lower_case (CONFIG : config) (rows : list Row.t) (n : Z)
    (key : string) :
  In key (keys (analyzeNgrams CONFIG (getSearchQueryData rows) n)) ->
  noUpper key = true.
Proof.
  intro Hin. apply getOwn_keys in Hin. rewrite getOwn_analyzeNgrams in Hin.
  destruct (contributors CONFIG key (getSearchQueryData rows) n)
    as [|q cs] eqn:E; [congruence|].
  assert (In q (contributors CONFIG key (getSearchQueryData rows) n)) as Hq
    by (rewrite E; now left).
  apply contributors_In in Hq. destruct Hq as [Hq Hkey].
  unfold getSearchQueryData in Hq. apply in_map_iff in Hq.
  destruct Hq as [row [<- _]].
  unfold generateNgrams in Hkey. apply in_map_iff in Hkey.
  destruct Hkey as [i [<- _]].
  unfold ngramAt. apply join_noUpper.
  apply Forall_forall. intros w Hw. apply slice_incl in Hw.
  unfold words in Hw. apply filter_In in Hw. destruct Hw as [Hw _].
  cbn [Query.query] in Hw.
  pose proof (splitWhitespace_noUpper _
                (noUpper_toLowerCase (Row.Query row))) as Hall.
  rewrite Forall_forall in Hall. auto.
Qed.

Lemma keys_are_lower_case_witness :
  noUpper "cheap shoes" = true.
Proof.
  apply (keys_are_lower_case defaultConfig [sampleRow] 2 "cheap shoes").
  vm_compute. auto.
Defined.

(* ================================================================== *)
(** ** Permutations and concatenations *)
(* ================================================================== *)

Lemma Permutation_flat_map_left {X Y : Type} (f : X -> list Y)
    (l l' : list X) :
  Permutation l l' -> Permutation (flat_map f l) (flat_map f l').
Proof.
  induction 1 as [| x l l' _ IH | x y l | l l' l'' _ IH1 _ IH2]; simpl.
  - apply perm_nil.
  - apply Permutation_app_head, IH.
  - rewrite !app_assoc. apply Permutation_app_tail, Permutation_app_comm.
  - eapply Permutation_trans; eassumption.
Qed.

Lemma Permutation_flat_map_pointwise {X Y : Type} (f g : X -> list Y)
    (l : list X) :
  (forall x, Permutation (f x) (g x)) ->
  Permutation (flat_map f l) (flat_map g l).
Proof.
  intro Hfg. induction l as [|x l IH]; simpl; [apply perm_nil|].
  apply Permutation_app; [apply Hfg | exact IH].
Qed.

(* ================================================================== *)
(** ** Queries that are too short *)
(* ================================================================== *)

Lemma occurrences_long_enough (CONFIG : config) (queryData : list Query.t)
    (n : Z) :
  1 <= n ->
  occurrences CONFIG (filter (longEnough CONFIG n) queryData) n
  = occurrences CONFIG queryData n.
Proof.
  intro Hn. unfold occurrences.
  induction queryData as [|q rest IH]; [reflexivity|].
  simpl. unfold longEnough at 1.
  destruct (Z.leb_spec n (Z.of_nat (List.length (words CONFIG q)))) as [H|H].
  - simpl. rewrite IH. reflexivity.
  - rewrite IH. rewrite (generateNgrams_windows _ n Hn).
    replace (List.length (words CONFIG q) + 1 - Z.to_nat n)%nat with 0%nat
      by lia.
    reflexivity.
Qed.

(** X7. For a size [n >= 1], a query with fewer than [n] tokens contributes
    to no aggregate: the map is the one computed from the queries that have
    at least [n] tokens, and it is empty when there is none. *)
Theorem short_queries_ignored (CONFIG : config) (queryData : list Query.t)
    (n : Z) :
  1 <= n ->
  analyzeNgrams CONFIG queryData n
  = analyzeNgrams CONFIG (filter (longEnough CONFIG n) queryData) n
  /\ (filter (longEnough CONFIG n) queryData = [] ->
      analyzeNgrams CONFIG queryData n = []).
Proof.
  intro Hn.
  assert (analyzeNgrams CONFIG queryData n
          = analyzeNgrams CONFIG (filter (longEnough CONFIG n) queryData) n)
    as Heq.
  { unfold analyzeNgrams. rewrite !countAll_occurrences.
    rewrite occurrences_long_enough by exact Hn. reflexivity. }
  split; [exact Heq|].
  intro Hnone. rewrite Heq, Hnone. reflexivity.
Qed.

Lemma short_queries_ignored_witness :
  analyzeNgrams defaultConfig [sampleQueryC; sampleQueryA] 2
  = analyzeNgrams defaultConfig
      (filter (longEnough defaultConfig 2) [sampleQueryC; sampleQueryA]) 2
  /\ (filter (longEnough defaultConfig 2) [sampleQueryC; sampleQueryA] = [] ->
      analyzeNgrams defaultConfig [sampleQueryC; sampleQueryA] 2 = []).
Proof.
  apply (short_queries_ignored defaultConfig [sampleQueryC; sampleQueryA] 2).
  lia.
Defined.

(* ================================================================== *)
(** ** The Slack table *)
(* ================================================================== *)

Lemma append_length (a b : string) :
  String.length (a ++ b) = (String.length a + String.length b)%nat.
Proof.
  induction a as [|c a IH]; simpl; [reflexivity | rewrite IH; reflexivity].
Qed.

Lemma append_assoc (a b c : string) : ((a ++ b) ++ c = a ++ (b ++ c))%string.
Proof.
  induction a as [|x a IH]; simpl; [reflexivity | rewrite IH; reflexivity].
Qed.

Lemma append_nil_r (a : string) : (a ++ "")%string = a.
Proof.
  induction a as [|x a IH]; simpl; [reflexivity | rewrite IH; reflexivity].
Qed.

Lemma spaces_length (k : nat) : String.length (spaces k) = k.
Proof.
  induction k as [|k IH]; simpl; [reflexivity | rewrite IH; reflexivity].
Qed.

Lemma padLoop_closed (fuel : nat) (str : string) (len : Z) :
  (Z.to_nat (len - Z.of_nat (String.length str)) <= fuel)%nat ->
  Slack.padLoop fuel str len
  = (str ++ spaces (Z.to_nat (len - Z.of_nat (String.length str))))%string.
Proof.
  revert str. induction fuel as [|fuel IH]; intros str Hfuel.
  - replace (Z.to_nat (len - Z.of_nat (String.length str))) with 0%nat
      by lia.
    simpl. symmetry. apply append_nil_r.
  - simpl. destruct (Z.ltb_spec (Z.of_nat (String.length str)) len) as [H|H].
    + rewrite IH by (rewrite append_length; simpl; lia).
      rewrite append_assoc, append_length. f_equal.
      replace (Z.to_nat (len - Z.of_nat (String.length str)))
        with (S (Z.to_nat
                   (len - Z.of_nat (String.length str
                                    + String.length " "))))
        by (simpl; lia).
      reflexivity.
    + replace (Z.to_nat (len - Z.of_nat (String.length str))) with 0%nat
        by lia.
      symmetry. apply append_nil_r.
Qed.

(** X8. [padRight(str, len)] returns [str] followed by [len - str.length]
    spaces, so a string of length max(str.length, len); it returns [str]
    unchanged when it is already that long or when [len] is undefined. *)
Theorem padRight_pads (str : string) (len : Z) :
  Slack.padRight str (Some len)
  = (str ++ spaces (Z.to_nat (len - Z.of_nat (String.length str))))%string
  /\ Z.of_nat (String.length (Slack.padRight str (Some len)))
     = Z.max (Z.of_nat (String.length str)) len
  /\ (len <= Z.of_nat (String.length str) ->
      Slack.padRight str (Some len) = str)
  /\ Slack.padRight str None = str.
Proof.
  assert (Slack.padRight str (Some len)
          = (str ++ spaces (Z.to_nat (len - Z.of_nat (String.length str))))
              %string) as Heq.
  { unfold Slack.padRight. apply padLoop_closed. lia. }
  split; [exact Heq|]. split; [|split].
  - rewrite Heq, append_length, spaces_length. lia.
  - intro Hle. rewrite Heq.
    replace (Z.to_nat (len - Z.of_nat (String.length str))) with 0%nat
      by lia.
    apply append_nil_r.
  - reflexivity.
Qed.

Lemma repeat_fold_length (char : string) (l : list nat) (acc : string) :
  String.length (fold_left (fun result _ => result ++ char)%string l acc)
  = (String.length acc + List.length l * String.length char)%nat.
Proof.
  revert acc. induction l as [|x l IH]; intro acc; simpl; [lia|].
  rewrite IH, append_length. lia.
Qed.

(** X9. [repeat(char, count)] has [count] times the length of [char], and
    is empty when [count] is not positive. *)
Theorem repeat_length (char : string) (count : Z) :
  String.length (Slack.repeat char count)
  = (Z.to_nat count * String.length char)%nat
  /\ (count <= 0 -> Slack.repeat char count = EmptyString).
Proof.
  unfold Slack.repeat. split.
  - rewrite repeat_fold_length, length_seq. reflexivity.
  - intro Hle. replace (Z.to_nat count) with 0%nat by lia. reflexivity.
Qed.

Lemma join_length (sep : string) (l : list string) :
  String.length (join sep l)
  = (list_sum (map String.length l)
     + String.length sep * (List.length l - 1))%nat.
Proof.
  induction l as [|x rest IH]; [simpl; lia|].
  destruct rest as [|y rest].
  - simpl. lia.
  - change (join sep (x :: y :: rest))
      with (x ++ sep ++ join sep (y :: rest))%string.
    rewrite !append_length, IH. simpl. lia.
Qed.

Lemma mapiFrom_length {A B : Type} (f : nat -> A -> B) (j : nat) (l : list A) :
  List.length (mapiFrom f j l) = List.length l.
Proof.
  revert j. induction l as [|x l IH]; intro j; simpl;
    [reflexivity | rewrite IH; reflexivity].
Qed.

Lemma mapiFrom_nth_error {A B : Type} (f : nat -> A -> B) (j i : nat)
    (l : list A) :
  nth_error (mapiFrom f j l) i = option_map (f (j + i)%nat) (nth_error l i).
Proof.
  revert j i. induction l as [|x l IH]; intros j i.
  - destruct i; reflexivity.
  - destruct i as [|i]; simpl.
    + rewrite Nat.add_0_r. reflexivity.
    + rewrite IH. replace (S j + i)%nat with (j + S i)%nat by lia.
      reflexivity.
Qed.

(** The lengths of the cells of a line whose cells all fill their column. *)
Lemma mapiFrom_lengths {A : Type} (f : nat -> A -> string) (j : nat)
    (l : list A) (ws : list Z) :
  List.length l = List.length ws ->
  (forall i a w, nth_error l i = Some a -> nth_error ws i = Some w ->
                 String.length (f (j + i)%nat a) = Z.to_nat w) ->
  map String.length (mapiFrom f j l) = map Z.to_nat ws.
Proof.
  revert j ws. induction l as [|a l IH]; intros j ws Hlen Hcells.
  - destruct ws; [reflexivity | discriminate].
  - destruct ws as [|w ws]; [discriminate|]. simpl. f_equal.
    + rewrite <- (Hcells 0%nat a w eq_refl eq_refl).
      rewrite Nat.add_0_r. reflexivity.
    + apply IH; [simpl in Hlen; lia|].
      intros i a' w' Ha Hw.
      replace (S j + i)%nat with (j + S i)%nat by lia.
      apply Hcells; assumption.
Qed.

Section TableFacts.
Context {V : Type}.
Variable toText : V -> string.
Variable truthy : V -> bool.

Lemma columnWidth_fold_ge (i : nat) (rows : list (list V)) (init : Z) :
  init <= fold_left
            (fun maxLen row =>
               let cellLen :=
                 Z.of_nat (String.length
                             (Slack.cellText toText truthy row i)) in
               if maxLen <? cellLen then cellLen else maxLen)
            rows init
  /\ forall row, In row rows ->
       Z.of_nat (String.length (Slack.cellText toText truthy row i))
       <= fold_left
            (fun maxLen row =>
               let cellLen :=
                 Z.of_nat (String.length
                             (Slack.cellText toText truthy row i)) in
               if maxLen <? cellLen then cellLen else maxLen)
            rows init.
Proof.
  revert init. induction rows as [|r rows IH]; intro init; simpl.
  - split; [lia | contradiction].
  - set (c := Z.of_nat (String.length (Slack.cellText toText truthy r i))).
    destruct (IH (if init <? c then c else init)) as [Hinit Hrows].
    assert (init <= (if init <? c then c else init)
            /\ c <= (if init <? c then c else init)) as [Hi Hc]
      by (destruct (Z.ltb_spec init c); lia).
    split; [eapply Z.le_trans; [exact Hi | exact Hinit]|].
    intros row [<-|Hin];
      [eapply Z.le_trans; [exact Hc | exact Hinit] | apply Hrows, Hin].
Qed.

Lemma widths_nth_error (headers : list V) (rows : list (list V)) (i : nat) :
  nth_error (Slack.widths toText truthy headers rows) i
  = option_map (Slack.columnWidth toText truthy rows i)
               (nth_error headers i).
Proof.
  unfold Slack.widths, mapi. rewrite mapiFrom_nth_error. reflexivity.
Qed.

Lemma widths_length (headers : list V) (rows : list (list V)) :
  List.length (Slack.widths toText truthy headers rows)
  = List.length headers.
Proof. apply mapiFrom_length. Qed.

Lemma padRight_fills (s : string) (w : Z) :
  Z.of_nat (String.length s) <= w ->
  String.length (Slack.padRight s (Some w)) = Z.to_nat w.
Proof.
  intro Hle. unfold Slack.padRight.
  rewrite padLoop_closed by lia.
  rewrite append_length, spaces_length. lia.
Qed.

Lemma headerRow_cells (headers : list V) (rows : list (list V)) :
  map String.length
      (mapi (fun i h =>
               Slack.padRight (toText h)
                 (nth_error (Slack.widths toText truthy headers rows) i))
            headers)
  = map Z.to_nat (Slack.widths toText truthy headers rows).
Proof.
  apply mapiFrom_lengths; [symmetry; apply widths_length|].
  intros i h w Hh Hw. simpl.
  rewrite widths_nth_error, Hh in *. simpl in Hw. injection Hw as <-.
  apply padRight_fills. apply columnWidth_fold_ge.
Qed.

Lemma dataRow_cells (headers : list V) (rows : list (list V))
    (row : list V) :
  In row rows -> List.length row = List.length headers ->
  map String.length
      (mapi (fun i cell =>
               Slack.padRight (Slack.valueText toText truthy cell)
                 (nth_error (Slack.widths toText truthy headers rows) i))
            row)
  = map Z.to_nat (Slack.widths toText truthy headers rows).
Proof.
  intros Hin Hlen.
  apply mapiFrom_lengths; [rewrite widths_length; exact Hlen|].
  intros i cell w Hcell Hw. simpl.
  rewrite widths_nth_error in *.
  destruct (nth_error headers i) as [h|]; [|discriminate].
  simpl in Hw. injection Hw as <-.
  apply padRight_fills.
  replace (Slack.valueText toText truthy cell)
    with (Slack.cellText toText truthy row i)
    by (unfold Slack.cellText; rewrite Hcell; reflexivity).
  apply columnWidth_fold_ge. exact Hin.
Qed.

Lemma separator_cells (ws : list Z) :
  map String.length (map (fun w => Slack.repeat "-" w) ws) = map Z.to_nat ws.
Proof.
  rewrite map_map. apply map_ext. intro w.
  unfold Slack.repeat. rewrite repeat_fold_length, length_seq. simpl. lia.
Qed.

End TableFacts.

(** X10. When every row has as many cells as there are headers, all lines of
    the table (the header line, the separator and one line per row) have
    the same length: the sum of the column widths plus three characters
    between neighbouring columns. *)
Theorem table_lines_aligned {V : Type} (toText : V -> string)
    (truthy : V -> bool) (headers : list V) (rows : list (list V)) :
  Forall (fun row => List.length row = List.length headers) rows ->
  let lineLength :=
    (list_sum (map Z.to_nat (Slack.widths toText truthy headers rows))
     + 3 * (List.length headers - 1))%nat in
  List.length (Slack.tableLines toText truthy headers rows)
  = (2 + List.length rows)%nat
  /\ Forall (fun line => String.length line = lineLength)
            (Slack.tableLines toText truthy headers rows).
Proof.
  intros Hrows lineLength. subst lineLength. unfold Slack.tableLines.
  split; [simpl; rewrite length_map; reflexivity|].
  constructor; [|constructor].
  - unfold Slack.headerRow. rewrite join_length, headerRow_cells.
    unfold mapi. rewrite mapiFrom_length. reflexivity.
  - unfold Slack.separator. rewrite join_length, separator_cells.
    rewrite length_map, widths_length. reflexivity.
  - apply Forall_forall. intros line Hline. apply in_map_iff in Hline.
    destruct Hline as [row [<- Hin]].
    rewrite Forall_forall in Hrows. specialize (Hrows row Hin).
    unfold Slack.dataRow. rewrite join_length, dataRow_cells by assumption.
    unfold mapi. rewrite mapiFrom_length, Hrows. reflexivity.
Qed.

Lemma table_lines_aligned_witness :
  let lineLength :=
    (list_sum (map Z.to_nat
                   (Slack.widths (fun s => s) textTruthy
                                 sampleHeaders sampleCells))
     + 3 * (List.length sampleHeaders - 1))%nat in
  List.length (Slack.tableLines (fun s => s) textTruthy
                                sampleHeaders sampleCells)
  = (2 + List.length sampleCells)%nat
  /\ Forall (fun line => String.length line = lineLength)
            (Slack.tableLines (fun s => s) textTruthy
                              sampleHeaders sampleCells).
Proof.
  apply (table_lines_aligned (fun s => s) textTruthy
           sampleHeaders sampleCells).
  repeat constructor.
Defined.

(* ================================================================== *)
(** ** Facts about the sheets *)
(* ================================================================== *)

Lemma name_eqb_eq (a b : Sheets.name) : Sheets.name_eqb a b = true <-> a = b.
Proof.
  destruct a, b; simpl; try (split; [discriminate | congruence]);
    try (split; reflexivity).
  rewrite Z.eqb_eq. split; congruence.
Qed.

Lemma name_eqb_refl (a : Sheets.name) : Sheets.name_eqb a a = true.
Proof. apply name_eqb_eq. reflexivity. Qed.

Lemma getSheetByName_insert (m n : Sheets.name) (titles : list string)
    (ss : Sheets.spreadsheet) :
  Sheets.getSheetByName m (Sheets.insertSheetWithHeader n titles ss)
  = match Sheets.getSheetByName m ss with
    | Some rows => Some rows
    | None => if Sheets.name_eqb n m then Some [Sheets.Header titles]
              else None
    end.
Proof.
  unfold Sheets.insertSheetWithHeader.
  induction ss as [|[k rows] rest IH]; simpl; [reflexivity|].
  destruct (Sheets.name_eqb k m); [reflexivity | exact IH].
Qed.

Lemma getSheetByName_setValues (m n : Sheets.name) (rows : list Sheets.row)
    (ss : Sheets.spreadsheet) :
  Sheets.getSheetByName m (Sheets.setValuesBelowLastRow n rows ss)
  = if Sheets.name_eqb n m
    then option_map (fun old => (old ++ rows)%list)
                    (Sheets.getSheetByName m ss)
    else Sheets.getSheetByName m ss.
Proof.
  induction ss as [|[k old] rest IH]; simpl.
  - destruct (Sheets.name_eqb n m); reflexivity.
  - destruct (Sheets.name_eqb k n) eqn:Ekn; simpl.
    + apply name_eqb_eq in Ekn. subst k.
      destruct (Sheets.name_eqb n m); reflexivity.
    + destruct (Sheets.name_eqb k m) eqn:Ekm; [|exact IH].
      apply name_eqb_eq in Ekm. subst k.
      destruct (Sheets.name_eqb n m) eqn:Enm; [|reflexivity].
      apply name_eqb_eq in Enm. subst n.
      rewrite name_eqb_refl in Ekn. discriminate.
Qed.

Lemma jsSort_nil_length {A : Type} (compare : A -> A -> Qc) (l : list A) :
  List.length (jsSort compare l) = List.length l.
Proof.
  induction l as [|x l IH]; [reflexivity|]. simpl.
  rewrite <- IH. generalize (jsSort compare l). intro s.
  induction s as [|y s IHs]; [reflexivity|]. simpl.
  destruct (Qcltb zeroQ (compare x y)); simpl; [rewrite IHs|]; reflexivity.
Qed.

Section SheetFacts.
Variable CONFIG : config.

(** Writing to a sheet, created first when it is missing. *)
Lemma getSheetByName_write (m n : Sheets.name) (titles : list string)
    (rows : list Sheets.row) (ss : Sheets.spreadsheet) :
  Sheets.getSheetByName m
    (let ss' :=
       match Sheets.getSheetByName n ss with
       | Some _ => ss
       | None => Sheets.insertSheetWithHeader n titles ss
       end in
     if (0 <? List.length rows)%nat
     then Sheets.setValuesBelowLastRow n rows ss' else ss')
  = if Sheets.name_eqb n m
    then Some (written titles (Sheets.getSheetByName m ss) rows)
    else Sheets.getSheetByName m ss.
Proof.
  cbv zeta. unfold written.
  destruct (Sheets.name_eqb n m) eqn:Enm.
  - apply name_eqb_eq in Enm. subst m.
    destruct rows as [|r rows].
    + change (0 <? List.length (@nil Sheets.row))%nat with false.
      cbv iota. rewrite app_nil_r.
      destruct (Sheets.getSheetByName n ss) eqn:E; [exact E|].
      rewrite getSheetByName_insert, E, name_eqb_refl. reflexivity.
    + change (0 <? List.length (r :: rows))%nat with true. cbv iota.
      rewrite getSheetByName_setValues, name_eqb_refl.
      destruct (Sheets.getSheetByName n ss) eqn:E.
      * rewrite E. reflexivity.
      * rewrite getSheetByName_insert, E, name_eqb_refl. reflexivity.
  - assert (Sheets.getSheetByName m
              match Sheets.getSheetByName n ss with
              | Some _ => ss
              | None => Sheets.insertSheetWithHeader n titles ss
              end = Sheets.getSheetByName m ss) as Hkeep.
    { destruct (Sheets.getSheetByName n ss); [reflexivity|].
      rewrite getSheetByName_insert, Enm.
      destruct (Sheets.getSheetByName m ss); reflexivity. }
    destruct (0 <? List.length rows)%nat; [|exact Hkeep].
    rewrite getSheetByName_setValues, Enm. exact Hkeep.
Qed.

Lemma getSheetByName_logSize (m : Sheets.name) (ngramResults : results)
    (dateStr : string) (ss : Sheets.spreadsheet) (size : Z) :
  Sheets.getSheetByName m (logSize CONFIG ngramResults dateStr ss size)
  = if Sheets.name_eqb (Sheets.Grams size) m
    then Some (written sizeSheetTitles (Sheets.getSheetByName m ss)
                 (map Sheets.OfSize
                      (sizeRows CONFIG dateStr
                                (getResult size ngramResults))))
    else Sheets.getSheetByName m ss.
Proof.
  unfold logSize, sizeRows.
  set (rows := collectSizeRows CONFIG dateStr (getResult size ngramResults)).
  replace (0 <? List.length rows)%nat
    with (0 <? List.length (map Sheets.OfSize (jsSort byImpressions rows)))%nat
    by (rewrite length_map, jsSort_nil_length; reflexivity).
  apply (getSheetByName_write m (Sheets.Grams size) sizeSheetTitles
           (map Sheets.OfSize (jsSort byImpressions rows)) ss).
Qed.

Lemma getSheetByName_logRecommendations (m n : Sheets.name)
    (data : list Item.t) (dateStr : string) (ss : Sheets.spreadsheet) :
  Sheets.getSheetByName m (logRecommendations ss n data dateStr)
  = if Sheets.name_eqb n m
    then Some (written recommendationSheetTitles
                 (Sheets.getSheetByName m ss)
                 (map Sheets.OfRecommendation (map (recRowOf dateStr) data)))
    else Sheets.getSheetByName m ss.
Proof.
  unfold logRecommendations.
  replace (0 <? List.length (map (recRowOf dateStr) data))%nat
    with (0 <? List.length
                 (map Sheets.OfRecommendation
                      (map (recRowOf dateStr) data)))%nat
    by (rewrite !length_map; reflexivity).
  apply (getSheetByName_write m n recommendationSheetTitles
           (map Sheets.OfRecommendation (map (recRowOf dateStr) data)) ss).
Qed.

End SheetFacts.

(* ================================================================== *)
(** ** The rows of a size sheet *)
(* ================================================================== *)

Section SizeRowFacts.
Variable CONFIG : config.

Lemma fold_pushSizeRow (dateStr : string) (l : list Ngram.t)
    (rows : list SizeRow.t) :
  fold_left (pushSizeRow CONFIG dateStr) l rows
  = (rows ++ map (sizeRowOf dateStr) (filter (reported CONFIG) l))%list.
Proof.
  revert rows. induction l as [|ng l IH]; intro rows; simpl.
  - symmetry. apply app_nil_r.
  - rewrite IH. unfold pushSizeRow, reported.
    destruct (Qcltb (Ngram.impressions (Ngram.sums ng))
                    (MIN_IMPRESSIONS CONFIG)); simpl;
      [reflexivity | rewrite <- app_assoc; reflexivity].
Qed.

Lemma collectSizeRows_filter (dateStr : string) (o : obj Ngram.t) :
  collectSizeRows CONFIG dateStr (Some o)
  = map (sizeRowOf dateStr) (filter (reported CONFIG) (map snd o)).
Proof.
  unfold collectSizeRows. apply fold_pushSizeRow.
Qed.

Lemma reported_spec (ng : Ngram.t) :
  reported CONFIG ng = true
  <-> (MIN_IMPRESSIONS CONFIG <= Ngram.impressions (Ngram.sums ng))%Qc.
Proof.
  unfold reported. rewrite negb_true_iff. apply Qcltb_false_le.
Qed.

Lemma In_sizeRows (dateStr : string) (ngramResults : results) (size : Z)
    (ng : Ngram.t) :
  In ng (aggregatesOf ngramResults size) ->
  (MIN_IMPRESSIONS CONFIG <= Ngram.impressions (Ngram.sums ng))%Qc ->
  In (sizeRowOf dateStr ng)
     (sizeRows CONFIG dateStr (getResult size ngramResults)).
Proof.
  unfold aggregatesOf, sizeRows. intros Hin Himp.
  destruct (getResult size ngramResults) as [o|]; [|contradiction].
  eapply Permutation_in;
    [apply Permutation_sym, (jsSort_Permutation SizeRow.Impressions)|].
  rewrite collectSizeRows_filter. apply in_map. apply filter_In.
  split; [exact Hin | apply reported_spec; exact Himp].
Qed.

End SizeRowFacts.

Section SizeSheetFacts.
Variable CONFIG : config.

(** The sheet of a size after the pass over a list of sizes: the rows of
    the size are written once per occurrence of the size in the list. *)
Lemma getSheetByName_fold_logSize (ngramResults : results)
    (dateStr : string) (size : Z) (sizes : list Z)
    (ss : Sheets.spreadsheet) :
  Sheets.getSheetByName (Sheets.Grams size)
    (fold_left (logSize CONFIG ngramResults dateStr) sizes ss)
  = if (count_occ Z.eq_dec sizes size =? 0)%nat
    then Sheets.getSheetByName (Sheets.Grams size) ss
    else Some (written sizeSheetTitles
                 (Sheets.getSheetByName (Sheets.Grams size) ss)
                 (List.concat
                    (List.repeat
                       (map Sheets.OfSize
                            (sizeRows CONFIG dateStr
                                      (getResult size ngramResults)))
                       (count_occ Z.eq_dec sizes size)))).
Proof.
  revert ss. induction sizes as [|s sizes IH]; intro ss; [reflexivity|].
  cbn [fold_left]. rewrite IH, getSheetByName_logSize.
  cbn [count_occ]. destruct (Z.eq_dec s size) as [->|Hne].
  - rewrite name_eqb_refl. cbn [Nat.eqb List.repeat List.concat].
    destruct (count_occ Z.eq_dec sizes size) as [|c]; cbn [Nat.eqb].
    + cbn [List.repeat List.concat]. rewrite app_nil_r. reflexivity.
    + unfold written. rewrite app_assoc. reflexivity.
  - destruct (Sheets.name_eqb (Sheets.Grams s) (Sheets.Grams size)) eqn:E;
      [|reflexivity].
    apply name_eqb_eq in E. congruence.
Qed.

End SizeSheetFacts.

(** X11. After [logResults], the sheet of a configured size holds the rows
    it had (or the header of a new sheet) followed, once for every time the
    size is listed in [NGRAM_SIZES], by the rows of the size: these are in
    descending order of impressions and are, up to that order, the rows of
    exactly the aggregates of the size with at least [MIN_IMPRESSIONS]
    impressions, whatever their clicks. *)
Theorem logResults_size_sheet (CONFIG : config) (ngramResults : results)
    (recs : recommendations) (dateStr : string) (ss : Sheets.spreadsheet)
    (size : Z) :
  In size (NGRAM_SIZES CONFIG) ->
  exists rows,
    StronglySorted impressionsDescending rows
    /\ Permutation rows
         (map (sizeRowOf dateStr)
              (filter (fun ng => Qcleb (MIN_IMPRESSIONS CONFIG)
                                       (Ngram.impressions (Ngram.sums ng)))
                      (aggregatesOf ngramResults size)))
    /\ Sheets.getSheetByName (Sheets.Grams size)
         (logResults CONFIG ngramResults recs dateStr ss)
       = Some (written sizeSheetTitles
                 (Sheets.getSheetByName (Sheets.Grams size) ss)
                 (List.concat
                    (List.repeat
                       (map Sheets.OfSize rows)
                       (count_occ Z.eq_dec (NGRAM_SIZES CONFIG) size)))).
Proof.
  intro Hsize.
  exists (sizeRows CONFIG dateStr (getResult size ngramResults)).
  split; [|split].
  - apply (jsSort_StronglySorted SizeRow.Impressions).
  - unfold sizeRows, aggregatesOf.
    eapply Permutation_trans;
      [apply (jsSort_Permutation SizeRow.Impressions)|].
    destruct (getResult size ngramResults) as [o|]; [|apply perm_nil].
    rewrite collectSizeRows_filter.
    rewrite (filter_ext (reported CONFIG)
               (fun ng => Qcleb (MIN_IMPRESSIONS CONFIG)
                                (Ngram.impressions (Ngram.sums ng)))).
    + apply Permutation_refl.
    + intro ng. unfold reported, Qcltb, Qcleb. apply negb_involutive.
  - unfold logResults.
    rewrite !getSheetByName_logRecommendations. cbn [Sheets.name_eqb].
    rewrite getSheetByName_fold_logSize.
    apply (count_occ_In Z.eq_dec) in Hsize.
    destruct (count_occ Z.eq_dec (NGRAM_SIZES CONFIG) size) as [|c];
      [lia | reflexivity].
Qed.

Lemma logResults_size_sheet_witness :
  let CONFIG :=
    mkConfig (Q2Qc 50) (Q2Qc 5) [1; 2; 1]
             (Q2Qc (5 # 100)) (Q2Qc (1 # 100)) (Q2Qc (3 # 100))
             (Q2Qc 2) (Q2Qc 0) defaultStopWords in
  let ngramResults := analyzeAll CONFIG [sampleQueryA; sampleQueryC] in
  let recs := generateRecommendations CONFIG ngramResults in
  exists rows,
    StronglySorted impressionsDescending rows
    /\ Permutation rows
         (map (sizeRowOf "2024-02-01")
              (filter (fun ng => Qcleb (MIN_IMPRESSIONS CONFIG)
                                       (Ngram.impressions (Ngram.sums ng)))
                      (aggregatesOf ngramResults 1)))
    /\ Sheets.getSheetByName (Sheets.Grams 1)
         (logResults CONFIG ngramResults recs "2024-02-01" sampleSheet)
       = Some (written sizeSheetTitles
                 (Sheets.getSheetByName (Sheets.Grams 1) sampleSheet)
                 (List.concat
                    (List.repeat
                       (map Sheets.OfSize rows)
                       (count_occ Z.eq_dec (NGRAM_SIZES CONFIG) 1)))).
Proof.
  cbv zeta.
  apply (logResults_size_sheet
           (mkConfig (Q2Qc 50) (Q2Qc 5) [1; 2; 1]
                     (Q2Qc (5 # 100)) (Q2Qc (1 # 100)) (Q2Qc (3 # 100))
                     (Q2Qc 2) (Q2Qc 0) defaultStopWords)).
  simpl. auto.
Defined.

(* ================================================================== *)
(** ** A run only appends to the spreadsheet *)
(* ================================================================== *)

Lemma headerFree_app (a b : list Sheets.row) :
  headerFree (a ++ b) = headerFree a && headerFree b.
Proof. unfold headerFree. apply forallb_app. Qed.

Lemma headerFree_OfSize (l : list SizeRow.t) :
  headerFree (map Sheets.OfSize l) = true.
Proof. induction l; simpl; auto. Qed.

Lemma headerFree_OfRecommendation (l : list RecRow.t) :
  headerFree (map Sheets.OfRecommendation l) = true.
Proof. induction l; simpl; auto. Qed.

Lemma headedSheet_app (rows added : list Sheets.row) :
  headedSheet rows -> headerFree added = true -> headedSheet (rows ++ added).
Proof.
  intros [titles [data [-> Hdata]]] Hadded.
  exists titles, (data ++ added)%list. split; [reflexivity|].
  fold (headerFree (data ++ added)). rewrite headerFree_app.
  fold (headerFree data) in Hdata. rewrite Hdata, Hadded. reflexivity.
Qed.

Lemma appendOnly_refl (ss : Sheets.spreadsheet) : appendOnly ss ss.
Proof.
  intro n. destruct (Sheets.getSheetByName n ss) as [old|] eqn:E.
  - exists []. rewrite app_nil_r. auto.
  - now left.
Qed.

Lemma appendOnly_trans (ss1 ss2 ss3 : Sheets.spreadsheet) :
  appendOnly ss1 ss2 -> appendOnly ss2 ss3 -> appendOnly ss1 ss3.
Proof.
  intros H12 H23 n. specialize (H12 n). specialize (H23 n).
  destruct (Sheets.getSheetByName n ss1) as [old|].
  - destruct H12 as [a1 [E2 Ha1]]. rewrite E2 in H23.
    destruct H23 as [a2 [E3 Ha2]].
    exists (a1 ++ a2)%list. rewrite E3, app_assoc, headerFree_app, Ha1, Ha2.
    auto.
  - destruct H12 as [E2|[rows [E2 Hrows]]]; rewrite E2 in H23.
    + exact H23.
    + destruct H23 as [a2 [E3 Ha2]]. right.
      exists (rows ++ a2)%list. split; [exact E3|].
      apply headedSheet_app; assumption.
Qed.

Lemma appendOnly_write (n : Sheets.name) (titles : list string)
    (rows : list Sheets.row) (ss ss' : Sheets.spreadsheet) :
  headerFree rows = true ->
  (forall m,
     Sheets.getSheetByName m ss'
     = if Sheets.name_eqb n m
       then Some (written titles (Sheets.getSheetByName m ss) rows)
       else Sheets.getSheetByName m ss) ->
  appendOnly ss ss'.
Proof.
  intros Hrows Hget m. rewrite (Hget m). unfold written.
  destruct (Sheets.name_eqb n m).
  - destruct (Sheets.getSheetByName m ss) as [old|].
    + exists rows. auto.
    + right. eexists. split; [reflexivity|].
      exists titles, rows. auto.
  - destruct (Sheets.getSheetByName m ss) as [old|]; [|now left].
    exists []. rewrite app_nil_r. auto.
Qed.

Lemma appendOnly_exists (ss ss' : Sheets.spreadsheet) (n : Sheets.name)
    (rows : list Sheets.row) (x : Sheets.row) :
  appendOnly ss ss' ->
  Sheets.getSheetByName n ss = Some rows -> In x rows ->
  exists rows', Sheets.getSheetByName n ss' = Some rows' /\ In x rows'.
Proof.
  intros Happ Hget Hin. specialize (Happ n). rewrite Hget in Happ.
  destruct Happ as [added [E _]].
  exists (rows ++ added)%list. split; [exact E|].
  apply in_or_app. now left.
Qed.

Section AppendFacts.
Variable CONFIG : config.

Lemma appendOnly_logSize (ngramResults : results) (dateStr : string)
    (ss : Sheets.spreadsheet) (size : Z) :
  appendOnly ss (logSize CONFIG ngramResults dateStr ss size).
Proof.
  eapply appendOnly_write; [apply headerFree_OfSize|].
  intro m. apply getSheetByName_logSize.
Qed.

Lemma appendOnly_logRecommendations (n : Sheets.name) (data : list Item.t)
    (dateStr : string) (ss : Sheets.spreadsheet) :
  appendOnly ss (logRecommendations ss n data dateStr).
Proof.
  eapply appendOnly_write; [apply headerFree_OfRecommendation|].
  intro m. apply getSheetByName_logRecommendations.
Qed.

Lemma appendOnly_fold_logSize (ngramResults : results) (dateStr : string)
    (sizes : list Z) (ss : Sheets.spreadsheet) :
  appendOnly ss (fold_left (logSize CONFIG ngramResults dateStr) sizes ss).
Proof.
  revert ss. induction sizes as [|size sizes IH]; intro ss; simpl.
  - apply appendOnly_refl.
  - eapply appendOnly_trans; [apply appendOnly_logSize | apply IH].
Qed.

Lemma appendOnly_logResults (ngramResults : results) (recs : recommendations)
    (dateStr : string) (ss : Sheets.spreadsheet) :
  appendOnly ss (logResults CONFIG ngramResults recs dateStr ss).
Proof.
  unfold logResults.
  eapply appendOnly_trans; [apply appendOnly_fold_logSize|].
  eapply appendOnly_trans; apply appendOnly_logRecommendations.
Qed.

(** After the pass over the sizes, each configured size has its sheet, and
    the sheet holds the rows of that size. *)
Lemma fold_logSize_contains (ngramResults : results) (dateStr : string)
    (sizes : list Z) (ss : Sheets.spreadsheet) (size : Z) :
  In size sizes ->
  exists rows,
    Sheets.getSheetByName (Sheets.Grams size)
      (fold_left (logSize CONFIG ngramResults dateStr) sizes ss) = Some rows
    /\ forall row,
         In row (sizeRows CONFIG dateStr (getResult size ngramResults)) ->
         In (Sheets.OfSize row) rows.
Proof.
  revert ss. induction sizes as [|s sizes IH]; intros ss Hsize;
    [contradiction|].
  simpl. destruct (Z.eq_dec s size) as [->|Hne].
  - clear IH Hsize.
    pose proof (getSheetByName_logSize CONFIG (Sheets.Grams size)
                  ngramResults dateStr ss size) as Hget.
    rewrite name_eqb_refl in Hget.
    pose proof (appendOnly_fold_logSize ngramResults dateStr sizes
                  (logSize CONFIG ngramResults dateStr ss size)
                  (Sheets.Grams size)) as Happ.
    rewrite Hget in Happ. destruct Happ as [added [E _]].
    eexists. split; [exact E|].
    intros row Hrow. apply in_or_app. left. unfold written.
    apply in_or_app. right. apply in_map. exact Hrow.
  - destruct Hsize as [Heq|Hsize]; [contradiction|].
    apply IH. exact Hsize.
Qed.

Lemma fold_logSize_other (ngramResults : results) (dateStr : string)
    (sizes : list Z) (ss : Sheets.spreadsheet) (m : Sheets.name) :
  (forall size, m <> Sheets.Grams size) ->
  Sheets.getSheetByName m
    (fold_left (logSize CONFIG ngramResults dateStr) sizes ss)
  = Sheets.getSheetByName m ss.
Proof.
  intro Hm. revert ss. induction sizes as [|s sizes IH]; intro ss; simpl;
    [reflexivity|].
  rewrite IH, getSheetByName_logSize.
  destruct (Sheets.name_eqb (Sheets.Grams s) m) eqn:E; [|reflexivity].
  apply name_eqb_eq in E. exfalso. apply (Hm s). congruence.
Qed.

End AppendFacts.

(** X12. A run never changes or removes a row that a sheet already has: the
    rows of every sheet of the spreadsheet are still there afterwards, in
    place, followed by the rows the run adds, none of which is a header. *)
Theorem logResults_keeps_rows (CONFIG : config) (ngramResults : results)
    (recs : recommendations) (dateStr : string) (ss : Sheets.spreadsheet)
    (n : Sheets.name) (old : list Sheets.row) :
  Sheets.getSheetByName n ss = Some old ->
  exists added,
    Sheets.getSheetByName n (logResults CONFIG ngramResults recs dateStr ss)
    = Some (old ++ added)%list
    /\ headerFree added = true.
Proof.
  intro Hold.
  pose proof (appendOnly_logResults CONFIG ngramResults recs dateStr ss n)
    as Happ.
  rewrite Hold in Happ. exact Happ.
Qed.

Lemma logResults_keeps_rows_witness :
  let CONFIG := defaultConfig in
  let ngramResults := analyzeAll CONFIG [sampleQueryA] in
  let recs := generateRecommendations CONFIG ngramResults in
  exists added,
    Sheets.getSheetByName (Sheets.Grams 1)
      (logResults CONFIG ngramResults recs "2024-02-01" sampleSheet)
    = Some ((Sheets.Header sizeSheetTitles
             :: [Sheets.OfSize
                   (SizeRow.mk "2024-01-01" "shoes" 1 (Q2Qc 80) (Q2Qc 4)
                               (Fin (Q2Qc (1 # 20))) (Q2Qc 3) (Q2Qc 0)
                               (Fin (Q2Qc 0)) (Fin (Q2Qc 0))
                               (Fin (Q2Qc 0)))])
            ++ added)%list
    /\ headerFree added = true.
Proof.
  apply (logResults_keeps_rows defaultConfig
           (analyzeAll defaultConfig [sampleQueryA])
           (generateRecommendations defaultConfig
              (analyzeAll defaultConfig [sampleQueryA]))
           "2024-02-01" sampleSheet (Sheets.Grams 1)).
  reflexivity.
Defined.

(** X13. When every sheet of the spreadsheet starts with a header and has
    no other header, the same holds after a run, and then there is a sheet
    for every configured size and for each of the two kinds of
    recommendation, also when the run has no row to write to it. *)
Theorem logResults_sheets_headed (CONFIG : config) (ngramResults : results)
    (recs : recommendations) (dateStr : string) (ss : Sheets.spreadsheet) :
  (forall n rows, Sheets.getSheetByName n ss = Some rows ->
                  headedSheet rows) ->
  let ss' := logResults CONFIG ngramResults recs dateStr ss in
  (forall n rows, Sheets.getSheetByName n ss' = Some rows ->
                  headedSheet rows)
  /\ (forall n, In n (reportSheets CONFIG) ->
                Sheets.getSheetByName n ss' <> None).
Proof.
  intros Hheaded ss'. split.
  - intros n rows Hrows.
    pose proof (appendOnly_logResults CONFIG ngramResults recs dateStr ss n)
      as Happ.
    fold ss' in Happ. rewrite Hrows in Happ.
    destruct (Sheets.getSheetByName n ss) as [old|] eqn:E.
    + destruct Happ as [added [[= ->] Hadded]].
      apply headedSheet_app; [apply (Hheaded n); exact E | exact Hadded].
    + destruct Happ as [Hnone|[rows' [[= <-] Hrows']]];
        [discriminate | exact Hrows'].
  - intros n Hn. subst ss'. unfold logResults.
    set (ss1 := fold_left (logSize CONFIG ngramResults dateStr)
                          (NGRAM_SIZES CONFIG) ss).
    set (ss2 := logRecommendations ss1 Sheets.KeywordOpportunities
                  (map itemOfKeyword (keywords recs)) dateStr).
    unfold reportSheets in Hn. apply in_app_or in Hn.
    destruct Hn as [Hn|[<-|[<-|[]]]].
    + apply in_map_iff in Hn. destruct Hn as [size [<- Hsize]].
      destruct (fold_logSize_contains CONFIG ngramResults dateStr
                  (NGRAM_SIZES CONFIG) ss size Hsize) as [rows [Hrows _]].
      fold ss1 in Hrows.
      pose proof (appendOnly_logRecommendations
                    Sheets.KeywordOpportunities
                    (map itemOfKeyword (keywords recs)) dateStr ss1
                    (Sheets.Grams size)) as H2.
      rewrite Hrows in H2. fold ss2 in H2. destruct H2 as [a2 [E2 _]].
      pose proof (appendOnly_logRecommendations
                    Sheets.NegativeCandidates
                    (map itemOfNegative (negatives recs)) dateStr ss2
                    (Sheets.Grams size)) as H3.
      rewrite E2 in H3. destruct H3 as [a3 [E3 _]].
      rewrite E3. discriminate.
    + pose proof (getSheetByName_logRecommendations
                    Sheets.KeywordOpportunities Sheets.KeywordOpportunities
                    (map itemOfKeyword (keywords recs)) dateStr ss1) as E2.
      fold ss2 in E2. simpl Sheets.name_eqb in E2.
      rewrite getSheetByName_logRecommendations. simpl Sheets.name_eqb.
      cbv iota. rewrite E2. discriminate.
    + rewrite getSheetByName_logRecommendations. simpl Sheets.name_eqb.
      cbv iota. discriminate.
Qed.

Lemma logResults_sheets_headed_witness :
  let CONFIG := defaultConfig in
  let ngramResults := analyzeAll CONFIG [sampleQueryA] in
  let recs := generateRecommendations CONFIG ngramResults in
  let ss' := logResults CONFIG ngramResults recs "2024-02-01" sampleSheet in
  (forall n rows, Sheets.getSheetByName n ss' = Some rows ->
                  headedSheet rows)
  /\ (forall n, In n (reportSheets CONFIG) ->
                Sheets.getSheetByName n ss' <> None).
Proof.
  apply (logResults_sheets_headed defaultConfig
           (analyzeAll defaultConfig [sampleQueryA])
           (generateRecommendations defaultConfig
              (analyzeAll defaultConfig [sampleQueryA]))
           "2024-02-01" sampleSheet).
  intros n rows. unfold sampleSheet. cbn [Sheets.getSheetByName].
  destruct (Sheets.name_eqb (Sheets.Grams 1) n); [|discriminate].
  intros [= <-]. eexists. eexists. split; reflexivity.
Defined.

Lemma metricOrZero_not_NaN (x : jsnum) : metricOrZero x <> NaN.
Proof. destruct x; discriminate. Qed.

(** X14. A run writes the returned keyword opportunities, one row each and
    in their ranked order, below the rows of the sheet of the keyword
    opportunities (below its header when the run creates the sheet), and
    likewise the negative candidates; no Conv Rate or CPA cell is [NaN], and
    the Conv Rate cell of every negative candidate is 0, whatever the
    conversion rate of its aggregate. *)
Theorem recommendation_sheets_content (CONFIG : config)
    (ngramResults : results) (recs : recommendations) (dateStr : string)
    (ss : Sheets.spreadsheet) :
  let ss' := logResults CONFIG ngramResults recs dateStr ss in
  let keywordRows :=
    map (recRowOf dateStr) (map itemOfKeyword (keywords recs)) in
  let negativeRows :=
    map (recRowOf dateStr) (map itemOfNegative (negatives recs)) in
  Sheets.getSheetByName Sheets.KeywordOpportunities ss'
  = Some (written recommendationSheetTitles
            (Sheets.getSheetByName Sheets.KeywordOpportunities ss)
            (map Sheets.OfRecommendation keywordRows))
  /\ Sheets.getSheetByName Sheets.NegativeCandidates ss'
     = Some (written recommendationSheetTitles
               (Sheets.getSheetByName Sheets.NegativeCandidates ss)
               (map Sheets.OfRecommendation negativeRows))
  /\ Forall (fun row => RecRow.ConvRate row <> NaN /\ RecRow.CPA row <> NaN)
            (keywordRows ++ negativeRows)
  /\ Forall (fun row => RecRow.ConvRate row = Fin zeroQ) negativeRows.
Proof.
  intros ss' keywordRows negativeRows. subst ss'. unfold logResults.
  split; [|split; [|split]].
  - rewrite !getSheetByName_logRecommendations. simpl Sheets.name_eqb.
    cbv iota. rewrite fold_logSize_other by discriminate. reflexivity.
  - rewrite !getSheetByName_logRecommendations. simpl Sheets.name_eqb.
    cbv iota. rewrite fold_logSize_other by discriminate. reflexivity.
  - apply Forall_forall. intros row Hrow.
    apply in_app_or in Hrow.
    assert (exists item, row = recRowOf dateStr item) as [item ->].
    { destruct Hrow as [Hrow|Hrow]; apply in_map_iff in Hrow;
        destruct Hrow as [item [<- _]]; exists item; reflexivity. }
    unfold recRowOf. cbn [RecRow.ConvRate RecRow.CPA].
    split; [|apply metricOrZero_not_NaN].
    destruct (Item.convRate item); [apply metricOrZero_not_NaN | discriminate].
  - subst negativeRows. rewrite map_map. apply Forall_map.
    apply Forall_forall. intros k _. reflexivity.
Qed.

(** X15. Every recommendation that a run logs comes from an aggregate that
    the same run has written to the sheet of its size: that sheet holds the
    row of an aggregate with the n-gram, the impressions, the clicks and the
    CTR of the recommendation. *)
Theorem recommendations_are_on_size_sheets (CONFIG : config)
    (ngramResults : results) (dateStr : string) (ss : Sheets.spreadsheet)
    (item : Item.t) :
  let recs := generateRecommendations CONFIG ngramResults in
  In item (loggedItems recs) ->
  exists ng rows,
    Sheets.getSheetByName (Sheets.Grams (Item.size item))
      (logResults CONFIG ngramResults recs dateStr ss) = Some rows
    /\ In (Sheets.OfSize (sizeRowOf dateStr ng)) rows
    /\ Item.ngram item = Ngram.ngram (Ngram.sums ng)
    /\ Item.impressions item = Ngram.impressions (Ngram.sums ng)
    /\ Item.clicks item = Ngram.clicks (Ngram.sums ng)
    /\ Item.ctr item = Ngram.ctr ng.
Proof.
  intros recs Hitem.
  assert (exists size ng,
            In size (NGRAM_SIZES CONFIG)
            /\ In ng (aggregatesOf ngramResults size)
            /\ eligible CONFIG ng = true
            /\ Item.size item = size
            /\ Item.ngram item = Ngram.ngram (Ngram.sums ng)
            /\ Item.impressions item = Ngram.impressions (Ngram.sums ng)
            /\ Item.clicks item = Ngram.clicks (Ngram.sums ng)
            /\ Item.ctr item = Ngram.ctr ng)
    as [size [ng [Hsize [Hng [He [Hs [H1 [H2 [H3 H4]]]]]]]]].
  { unfold loggedItems in Hitem. apply in_app_or in Hitem.
    destruct Hitem as [Hitem|Hitem]; apply in_map_iff in Hitem;
      destruct Hitem as [r [<- Hr]].
    - apply returned_keywords_emitted, emitted_keyword_source in Hr.
      destruct Hr as [size [ng [Hsize [Hng [-> [He _]]]]]].
      exists size, ng. repeat split; assumption.
    - apply returned_negatives_emitted, emitted_negative_source in Hr.
      destruct Hr as [size [ng [Hsize [Hng [-> [He _]]]]]].
      exists size, ng. repeat split; assumption. }
  apply eligible_spec in He. destruct He as [Himp _].
  destruct (fold_logSize_contains CONFIG ngramResults dateStr
              (NGRAM_SIZES CONFIG) ss size Hsize) as [rows1 [Hrows1 Hin1]].
  specialize (Hin1 _ (In_sizeRows CONFIG dateStr ngramResults size ng
                        Hng Himp)).
  set (ss1 := fold_left (logSize CONFIG ngramResults dateStr)
                        (NGRAM_SIZES CONFIG) ss) in *.
  destruct (appendOnly_exists _ _ _ _ _
              (appendOnly_logRecommendations
                 Sheets.KeywordOpportunities
                 (map itemOfKeyword (keywords recs)) dateStr ss1)
              Hrows1 Hin1) as [rows2 [Hrows2 Hin2]].
  destruct (appendOnly_exists _ _ _ _ _
              (appendOnly_logRecommendations
                 Sheets.NegativeCandidates
                 (map itemOfNegative (negatives recs)) dateStr _)
              Hrows2 Hin2) as [rows3 [Hrows3 Hin3]].
  exists ng, rows3. rewrite Hs.
  repeat split; assumption.
Qed.

Lemma recommendations_are_on_size_sheets_witness :
  let CONFIG := defaultConfig in
  let ngramResults := analyzeAll CONFIG [sampleQueryA] in
  let item := itemOfKeyword (keywordOf CONFIG 1 sampleEntryBuy) in
  exists ng rows,
    Sheets.getSheetByName (Sheets.Grams (Item.size item))
      (logResults CONFIG ngramResults
                  (generateRecommendations CONFIG ngramResults)
                  "2024-02-01" sampleSheet) = Some rows
    /\ In (Sheets.OfSize (sizeRowOf "2024-02-01" ng)) rows
    /\ Item.ngram item = Ngram.ngram (Ngram.sums ng)
    /\ Item.impressions item = Ngram.impressions (Ngram.sums ng)
    /\ Item.clicks item = Ngram.clicks (Ngram.sums ng)
    /\ Item.ctr item = Ngram.ctr ng.
Proof.
  apply (recommendations_are_on_size_sheets defaultConfig
           (analyzeAll defaultConfig [sampleQueryA])
           "2024-02-01" sampleSheet
           (itemOfKeyword (keywordOf defaultConfig 1 sampleEntryBuy))).
  vm_compute. left. reflexivity.
Defined.

(* ================================================================== *)
(** ** A key analysed as a query *)
(* ================================================================== *)

Lemma hasWhitespace_String (c : ascii) (s : string) :
  hasWhitespace (String c s) = isWhitespace c || hasWhitespace s.
Proof. reflexivity. Qed.

Lemma splitWhitespace_token (w : string) :
  hasWhitespace w = false -> splitWhitespace w = [w].
Proof.
  induction w as [|c w IH]; [reflexivity|].
  rewrite hasWhitespace_String, orb_false_iff. intros [Hc Hw].
  cbn [splitWhitespace]. rewrite Hc, (IH Hw). reflexivity.
Qed.

Lemma splitWhitespace_append (w rest : string) :
  hasWhitespace w = false -> startsWithWhitespace rest = false ->
  splitWhitespace (w ++ String " "%char rest) = w :: splitWhitespace rest.
Proof.
  intros Hw Hrest. induction w as [|c w IH].
  - cbn [String.append splitWhitespace].
    change (isWhitespace " "%char) with true. cbv iota.
    rewrite Hrest. reflexivity.
  - rewrite hasWhitespace_String, orb_false_iff in Hw.
    destruct Hw as [Hc Hw].
    cbn [String.append splitWhitespace]. rewrite Hc, (IH Hw). reflexivity.
Qed.

Lemma join_starts_with_token (t : string) (ts : list string) :
  hasWhitespace t = false -> (1 < String.length t)%nat ->
  startsWithWhitespace (join " " (t :: ts)) = false.
Proof.
  intros Ht Hlen. destruct t as [|c t]; [simpl in Hlen; lia|].
  rewrite hasWhitespace_String, orb_false_iff in Ht. destruct Ht as [Hc _].
  destruct ts; simpl; exact Hc.
Qed.

Lemma splitWhitespace_join (l : list string) :
  l <> [] ->
  Forall (fun w => hasWhitespace w = false /\ (1 < String.length w)%nat) l ->
  splitWhitespace (join " " l) = l.
Proof.
  intros Hne Hl. induction Hl as [|w l [Hw Hlen] Hl IH]; [contradiction|].
  destruct l as [|w' l].
  - simpl. apply splitWhitespace_token. exact Hw.
  - change (join " " (w :: w' :: l))
      with (w ++ String " "%char (join " " (w' :: l))).
    inversion Hl as [|? ? [Hw' Hlen'] _]; subst.
    rewrite splitWhitespace_append;
      [| exact Hw | apply join_starts_with_token; assumption].
    rewrite IH by discriminate. reflexivity.
Qed.

Lemma words_tokens (CONFIG : config) (query : Query.t) :
  Forall (fun w => keepWord CONFIG w = true
                   /\ hasWhitespace w = false
                   /\ (1 < String.length w)%nat)
         (words CONFIG query).
Proof.
  apply Forall_forall. intros w Hw. unfold words in Hw.
  apply filter_In in Hw. destruct Hw as [Hin Hkeep].
  pose proof (splitWhitespace_pieces (Query.query query)) as Hws.
  rewrite Forall_forall in Hws.
  split; [exact Hkeep|]. split; [auto|].
  apply keepWord_spec in Hkeep. apply Hkeep.
Qed.

(** X16. For a size [n >= 1], a key of the map, analysed as the text of a
    query, gives back its own tokens and, as its only n-gram of size [n],
    the key itself. *)
Theorem key_is_its_own_ngram (CONFIG : config) (queryData : list Query.t)
    (n : Z) (key : string) (query : Query.t) :
  1 <= n ->
  In key (keys (analyzeNgrams CONFIG queryData n)) ->
  Query.query query = key ->
  words CONFIG query = splitChar " "%char key
  /\ List.length (words CONFIG query) = Z.to_nat n
  /\ generateNgrams (words CONFIG query) n = [key].
Proof.
  intros Hn Hin Hquery.
  apply getOwn_keys in Hin. rewrite getOwn_analyzeNgrams in Hin.
  destruct (contributors CONFIG key queryData n) as [|q cs] eqn:E;
    [congruence|].
  assert (In q (contributors CONFIG key queryData n)) as Hq
    by (rewrite E; now left).
  apply contributors_In in Hq. destruct Hq as [_ Hkey].
  rewrite generateNgrams_windows in Hkey by exact Hn.
  apply in_map_iff in Hkey. destruct Hkey as [i [Hjoin Hi]].
  apply in_seq in Hi.
  set (toks := window (words CONFIG q) (Z.to_nat n) i) in *.
  assert (List.length toks = Z.to_nat n) as Hlen
    by (apply window_length; lia).
  assert (Forall (fun w => keepWord CONFIG w = true
                           /\ hasWhitespace w = false
                           /\ (1 < String.length w)%nat) toks) as Htoks.
  { apply Forall_forall. intros w Hw. unfold toks, window in Hw.
    apply firstn_incl, skipn_incl in Hw.
    pose proof (words_tokens CONFIG q) as Hall.
    rewrite Forall_forall in Hall. auto. }
  assert (toks <> []) as Hne
    by (intro Hnil; rewrite Hnil in Hlen; simpl in Hlen; lia).
  assert (words CONFIG query = toks) as Hwords.
  { unfold words. rewrite Hquery, <- Hjoin.
    rewrite splitWhitespace_join.
    - apply forallb_filter_id. apply forallb_forall.
      intros w Hw. rewrite Forall_forall in Htoks. apply (Htoks w Hw).
    - exact Hne.
    - eapply Forall_impl; [|exact Htoks]. intros w Hw. split; apply Hw. }
  split; [|split].
  - rewrite Hwords, <- Hjoin. symmetry. apply splitChar_join; [exact Hne|].
    eapply Forall_impl; [|exact Htoks]. intros w [_ [Hw _]].
    apply hasWhitespace_space. exact Hw.
  - rewrite Hwords. exact Hlen.
  - rewrite generateNgrams_windows by exact Hn. rewrite Hwords, Hlen.
    replace (Z.to_nat n + 1 - Z.to_nat n)%nat with 1%nat by lia.
    simpl. unfold window. simpl skipn.
    rewrite <- Hlen, firstn_all, Hjoin. reflexivity.
Qed.

Lemma key_is_its_own_ngram_witness :
  let query := Query.mk "cheap shoes" "" (Q2Qc 1) (Q2Qc 0) (Q2Qc 0)
                        (Q2Qc 0) (Q2Qc 0) in
  words defaultConfig query = splitChar " "%char "cheap shoes"
  /\ List.length (words defaultConfig query) = Z.to_nat 2
  /\ generateNgrams (words defaultConfig query) 2 = ["cheap shoes"].
Proof.
  apply (key_is_its_own_ngram defaultConfig [sampleQueryA] 2 "cheap shoes").
  - lia.
  - vm_compute. auto.
  - reflexivity.
Defined.

(* ================================================================== *)
(** ** An n-gram and its prefix *)
(* ================================================================== *)

Lemma natQc_le (k k' : nat) : (k <= k')%nat -> (natQc k <= natQc k')%Qc.
Proof.
  intro H. unfold natQc, Qcle, Q2Qc. cbn [this].
  rewrite !Qred_correct, <- Zle_Qle. lia.
Qed.

Lemma sumQc_repeat (x : Qc) (k : nat) :
  sumQc (List.repeat x k) = (natQc k * x)%Qc.
Proof.
  induction k as [|k IH]; simpl.
  - symmetry. apply Qcmult_0_l.
  - rewrite IH, natQc_succ. ring.
Qed.

Lemma count_occ_map_le {X : Type} (f g : X -> string) (x y : string)
    (l : list X) :
  (forall i, In i l -> f i = x -> g i = y) ->
  (count_occ string_dec (map f l) x <= count_occ string_dec (map g l) y)%nat.
Proof.
  induction l as [|i l IH]; intro H; [simpl; lia|].
  assert (count_occ string_dec (map f l) x
          <= count_occ string_dec (map g l) y)%nat as IH'
    by (apply IH; intros j Hj; apply H; now right).
  simpl. destruct (string_dec (f i) x) as [Hf|Hf].
  - rewrite (H i (or_introl eq_refl) Hf).
    destruct (string_dec y y); [lia | contradiction].
  - destruct (string_dec (g i) y); lia.
Qed.

Section PrefixFacts.
Variable CONFIG : config.

Lemma sum_contributors (f : Query.t -> Qc) (key : string)
    (queryData : list Query.t) (n : Z) :
  sumQc (map f (contributors CONFIG key queryData n))
  = sumQc (map (fun q => (natQc (occurrencesIn CONFIG key n q) * f q)%Qc)
               queryData).
Proof.
  induction queryData as [|q rest IH]; [reflexivity|].
  rewrite contributors_cons, map_app, sumQc_app, IH. simpl. f_equal.
  rewrite map_repeat. apply sumQc_repeat.
Qed.

(** In every query the prefix occurs at least as often as the n-gram. *)
Lemma occurrencesIn_prefix (key : string) (n : Z) (q : Query.t) :
  1 <= n ->
  (occurrencesIn CONFIG key (n + 1) q
   <= occurrencesIn CONFIG (prefixKey n key) n q)%nat.
Proof.
  intro Hn. unfold occurrencesIn.
  rewrite !generateNgrams_windows by lia.
  set (ws := words CONFIG q).
  replace (Z.to_nat (n + 1)) with (S (Z.to_nat n)) by lia.
  set (N := Z.to_nat n).
  assert (exists extra,
            seq 0 (List.length ws + 1 - N)
            = (seq 0 (List.length ws + 1 - S N) ++ extra)%list)
    as [extra ->].
  { exists (seq (List.length ws + 1 - S N)
                ((List.length ws + 1 - N) - (List.length ws + 1 - S N))).
    rewrite <- seq_app. f_equal. lia. }
  rewrite map_app, count_occ_app.
  eapply Nat.le_trans; [|apply Nat.le_add_r].
  apply count_occ_map_le. intros i Hi Hjoin.
  apply in_seq in Hi.
  assert (List.length (window ws (S N) i) = S N) as Hlen
    by (apply window_length; lia).
  assert (Forall (fun w => hasChar " "%char w = false)
                 (window ws (S N) i)) as Hgood.
  { apply Forall_forall. intros w Hw. unfold window in Hw.
    apply firstn_incl, skipn_incl in Hw.
    pose proof (words_good CONFIG q) as Hall.
    rewrite Forall_forall in Hall. apply (Hall w Hw). }
  unfold prefixKey. fold N. rewrite <- Hjoin.
  rewrite splitChar_join;
    [| intro Hnil; rewrite Hnil in Hlen; discriminate | exact Hgood].
  unfold window. rewrite firstn_firstn.
  replace (Nat.min N (S N)) with N by lia. reflexivity.
Qed.

End PrefixFacts.

(** X17. For a size [n >= 1] and records without negative metrics, the
    n-gram made of the first [n] tokens of a key of the map of size [n + 1]
    is a key of the map of size [n], with at least as many occurrences,
    impressions, clicks and cost. *)
Theorem prefix_totals_dominate (CONFIG : config) (queryData : list Query.t)
    (n : Z) (key : string) (ng : Ngram.t) :
  1 <= n ->
  Forall nonNegative queryData ->
  getOwn key (analyzeNgrams CONFIG queryData (n + 1)) = Some ng ->
  exists shorter,
    getOwn (prefixKey n key) (analyzeNgrams CONFIG queryData n)
    = Some shorter
    /\ Ngram.queries (Ngram.sums ng) <= Ngram.queries (Ngram.sums shorter)
    /\ (Ngram.impressions (Ngram.sums ng)
        <= Ngram.impressions (Ngram.sums shorter))%Qc
    /\ (Ngram.clicks (Ngram.sums ng)
        <= Ngram.clicks (Ngram.sums shorter))%Qc
    /\ (Ngram.cost (Ngram.sums ng) <= Ngram.cost (Ngram.sums shorter))%Qc.
Proof.
  intros Hn Hdata Hget. rewrite getOwn_analyzeNgrams in Hget.
  destruct (contributors CONFIG key queryData (n + 1)) as [|q cs] eqn:E;
    [discriminate|].
  injection Hget as <-. rewrite <- E.
  assert (List.length (contributors CONFIG key queryData (n + 1))
          <= List.length
               (contributors CONFIG (prefixKey n key) queryData n))%nat
    as Hcount.
  { rewrite !contributors_length.
    clear E Hdata. induction queryData as [|x rest IH]; [simpl; lia|].
    simpl. pose proof (occurrencesIn_prefix CONFIG key n x Hn). lia. }
  assert (forall f : Query.t -> Qc,
            (forall x, In x queryData -> (zeroQ <= f x)%Qc) ->
            (sumQc (map f (contributors CONFIG key queryData (n + 1)))
             <= sumQc (map f (contributors CONFIG (prefixKey n key)
                                           queryData n)))%Qc) as Hsum.
  { intros f Hf. rewrite !sum_contributors. apply sumQc_le.
    apply Forall_forall. intros x Hx.
    apply Qcmult_le_compat_r; [|apply Hf; exact Hx].
    apply natQc_le, occurrencesIn_prefix. exact Hn. }
  rewrite Forall_forall in Hdata.
  exists (deriveMetrics
            (totalsOf (prefixKey n key)
                      (contributors CONFIG (prefixKey n key) queryData n))).
  split.
  - rewrite getOwn_analyzeNgrams.
    destruct (contributors CONFIG (prefixKey n key) queryData n);
      [|reflexivity].
    rewrite E in Hcount. simpl in Hcount. lia.
  - unfold deriveMetrics, totalsOf.
    cbn [Ngram.sums Ngram.queries Ngram.impressions Ngram.clicks Ngram.cost].
    split; [lia|].
    repeat split; apply Hsum; intros x Hx; apply (Hdata x Hx).
Qed.

Lemma prefix_totals_dominate_witness :
  exists shorter,
    getOwn (prefixKey 1 "cheap shoes")
           (analyzeNgrams defaultConfig [sampleQueryA] 1)
    = Some shorter
    /\ Ngram.queries (Ngram.sums sampleEntry)
       <= Ngram.queries (Ngram.sums shorter)
    /\ (Ngram.impressions (Ngram.sums sampleEntry)
        <= Ngram.impressions (Ngram.sums shorter))%Qc
    /\ (Ngram.clicks (Ngram.sums sampleEntry)
        <= Ngram.clicks (Ngram.sums shorter))%Qc
    /\ (Ngram.cost (Ngram.sums sampleEntry)
        <= Ngram.cost (Ngram.sums shorter))%Qc.
Proof.
  apply (prefix_totals_dominate defaultConfig [sampleQueryA] 1
           "cheap shoes" sampleEntry).
  - lia.
  - constructor; [|constructor].
    unfold nonNegative, sampleQueryA, zeroQ, Qcle. simpl.
    repeat split; unfold Qle; simpl; lia.
  - vm_compute. reflexivity.
Defined.

(* ================================================================== *)
(** ** A size that is configured more than once *)
(* ================================================================== *)





(* ================================================================== *)
(** ** What the negative candidates depend on *)
(* ================================================================== *)

Lemma list_sum_Permutation (l l' : list nat) :
  Permutation l l' -> list_sum l = list_sum l'.
Proof.
  induction 1 as [| x l l' _ IH | x y l | l l' l'' _ IH1 _ IH2]; simpl;
    lia.
Qed.

Lemma map_flat_map {X Y W : Type} (f : Y -> W) (g : X -> list Y)
    (l : list X) :
  map f (flat_map g l) = flat_map (fun x => map f (g x)) l.
Proof.
  induction l as [|x l IH]; simpl; [reflexivity|].
  rewrite map_app, IH. reflexivity.
Qed.

Lemma flat_map_over_map {X Y W : Type} (f : Y -> list W) (g : X -> Y)
    (l : list X) :
  flat_map f (map g l) = flat_map (fun x => f (g x)) l.
Proof.
  induction l as [|x l IH]; simpl; [reflexivity | rewrite IH; reflexivity].
Qed.

Section CountsFacts.
Variable CONFIG : config.
Hypothesis no_target : (TARGET_CPA CONFIG <= zeroQ)%Qc.

Lemma contributors_length_core (key : string) (queryData : list Query.t)
    (n : Z) :
  List.length (contributors CONFIG key queryData n)
  = list_sum (map (fun c => occurrencesOfText CONFIG key n (fst (fst c)))
                  (map recordCore queryData)).
Proof.
  rewrite contributors_length, map_map. reflexivity.
Qed.

Lemma contributors_impressions_core (key : string)
    (queryData : list Query.t) (n : Z) :
  sumQc (map Query.impressions (contributors CONFIG key queryData n))
  = sumQc (map (fun c => (natQc (occurrencesOfText CONFIG key n
                                                   (fst (fst c)))
                          * snd (fst c))%Qc)
               (map recordCore queryData)).
Proof.
  rewrite sum_contributors, map_map. reflexivity.
Qed.

Lemma contributors_clicks_core (key : string)
    (queryData : list Query.t) (n : Z) :
  sumQc (map Query.clicks (contributors CONFIG key queryData n))
  = sumQc (map (fun c => (natQc (occurrencesOfText CONFIG key n
                                                   (fst (fst c)))
                          * snd c)%Qc)
               (map recordCore queryData)).
Proof.
  rewrite sum_contributors, map_map. reflexivity.
Qed.

Lemma entryOf_counts (data1 data2 : list Query.t) (n : Z) (key : string) :
  Permutation (map recordCore data1) (map recordCore data2) ->
  List.length (contributors CONFIG key data1 n)
  = List.length (contributors CONFIG key data2 n)
  /\ Ngram.impressions (Ngram.sums (entryOf CONFIG data1 n key))
     = Ngram.impressions (Ngram.sums (entryOf CONFIG data2 n key))
  /\ Ngram.clicks (Ngram.sums (entryOf CONFIG data1 n key))
     = Ngram.clicks (Ngram.sums (entryOf CONFIG data2 n key))
  /\ Ngram.ctr (entryOf CONFIG data1 n key) = Ngram.ctr (entryOf CONFIG data2 n key).
Proof.
  intro Hperm.
  assert (Ngram.impressions (Ngram.sums (entryOf CONFIG data1 n key))
          = Ngram.impressions (Ngram.sums (entryOf CONFIG data2 n key))) as Hi.
  { unfold entryOf, deriveMetrics, totalsOf.
    cbn [Ngram.sums Ngram.impressions].
    rewrite !contributors_impressions_core.
    apply sumQc_Permutation, Permutation_map. exact Hperm. }
  assert (Ngram.clicks (Ngram.sums (entryOf CONFIG data1 n key))
          = Ngram.clicks (Ngram.sums (entryOf CONFIG data2 n key))) as Hc.
  { unfold entryOf, deriveMetrics, totalsOf.
    cbn [Ngram.sums Ngram.clicks].
    rewrite !contributors_clicks_core.
    apply sumQc_Permutation, Permutation_map. exact Hperm. }
  split; [|split; [exact Hi | split; [exact Hc|]]].
  - rewrite !contributors_length_core.
    apply list_sum_Permutation, Permutation_map. exact Hperm.
  - unfold entryOf, deriveMetrics in *.
    cbn [Ngram.sums Ngram.ctr] in *. rewrite Hi, Hc. reflexivity.
Qed.

Lemma keys_countAll_Permutation (data1 data2 : list Query.t) (n : Z) :
  Permutation (map recordCore data1) (map recordCore data2) ->
  Permutation (keys (countAll CONFIG data1 n))
              (keys (countAll CONFIG data2 n)).
Proof.
  intro Hperm.
  apply NoDup_Permutation; try apply keys_countAll.
  intro key. rewrite !getOwn_keys, !getOwn_countAll.
  destruct (entryOf_counts data1 data2 n key Hperm) as [Hlen _].
  destruct (contributors CONFIG key data1 n),
           (contributors CONFIG key data2 n);
    try discriminate Hlen; split; congruence.
Qed.

Lemma isNegative_no_target (ng : Ngram.t) :
  isNegative CONFIG ng = leb (Ngram.ctr ng) (LOW_CTR_THRESHOLD CONFIG).
Proof.
  unfold isNegative.
  assert (Qcltb zeroQ (TARGET_CPA CONFIG) = false) as ->
    by (apply Qcltb_false_le; exact no_target).
  apply orb_false_r.
Qed.

Lemma negativesFor_core (size : Z) (a b : Ngram.t) :
  Ngram.ngram (Ngram.sums a) = Ngram.ngram (Ngram.sums b) ->
  Ngram.impressions (Ngram.sums a) = Ngram.impressions (Ngram.sums b) ->
  Ngram.clicks (Ngram.sums a) = Ngram.clicks (Ngram.sums b) ->
  Ngram.ctr a = Ngram.ctr b ->
  map negativeCore (negativesFor CONFIG size a)
  = map negativeCore (negativesFor CONFIG size b).
Proof.
  intros Hn Hi Hc Hctr. unfold negativesFor.
  rewrite !isNegative_no_target. unfold eligible.
  rewrite Hi, Hc, Hctr.
  destruct (negb (Qcltb (Ngram.impressions (Ngram.sums b))
                        (MIN_IMPRESSIONS CONFIG))
            && Qcleb (MIN_CLICKS CONFIG) (Ngram.clicks (Ngram.sums b))
            && leb (Ngram.ctr b) (LOW_CTR_THRESHOLD CONFIG));
    [|reflexivity].
  unfold negativeOf, negativeCore. simpl. rewrite Hn, Hi, Hc, Hctr.
  reflexivity.
Qed.

Lemma aggregatesOf_analyzeAll (queryData : list Query.t) (size : Z) :
  aggregatesOf (analyzeAll CONFIG queryData) size
  = if existsb (Z.eqb size) (NGRAM_SIZES CONFIG)
    then map (entryOf CONFIG queryData size) (keys (countAll CONFIG queryData size))
    else [].
Proof.
  unfold aggregatesOf. rewrite getResult_analyzeAll.
  destruct (existsb (Z.eqb size) (NGRAM_SIZES CONFIG)); [|reflexivity].
  rewrite analyzeNgrams_entries, map_map. reflexivity.
Qed.

Lemma emitted_negative_cores (data1 data2 : list Query.t) :
  Permutation (map recordCore data1) (map recordCore data2) ->
  Permutation
    (map negativeCore (snd (classify CONFIG (analyzeAll CONFIG data1))))
    (map negativeCore (snd (classify CONFIG (analyzeAll CONFIG data2)))).
Proof.
  intro Hperm. rewrite !classify_pushes. cbn [snd].
  rewrite !map_flat_map. apply Permutation_flat_map_pointwise. intro size.
  rewrite !map_flat_map, !aggregatesOf_analyzeAll.
  destruct (existsb (Z.eqb size) (NGRAM_SIZES CONFIG)); [|apply perm_nil].
  rewrite !flat_map_over_map.
  eapply Permutation_trans;
    [apply Permutation_flat_map_left,
           (keys_countAll_Permutation data1 data2 size Hperm)|].
  apply Permutation_flat_map_pointwise. intro key.
  destruct (entryOf_counts data1 data2 size key Hperm) as [_ [Hi [Hc Hctr]]].
  rewrite (negativesFor_core size (entryOf CONFIG data1 size key)
             (entryOf CONFIG data2 size key)); try assumption; reflexivity.
Qed.

End CountsFacts.

(** X6. When no target CPA is set ([TARGET_CPA <= 0], as shipped), the
    negative candidates that the classifier emits, taken with their n-gram,
    size, reason, impressions, clicks and CTR, depend only on the multiset
    of the texts, impressions and clicks of the records: neither the order
    of the records nor their cost, conversions and conversion values change
    them, nor the number of candidates returned. *)
Theorem negatives_depend_on_counts (CONFIG : config)
    (data1 data2 : list Query.t) :
  (TARGET_CPA CONFIG <= zeroQ)%Qc ->
  Permutation (map recordCore data1) (map recordCore data2) ->
  let results1 := analyzeAll CONFIG data1 in
  let results2 := analyzeAll CONFIG data2 in
  Permutation (map negativeCore (snd (classify CONFIG results1)))
              (map negativeCore (snd (classify CONFIG results2)))
  /\ List.length (negatives (generateRecommendations CONFIG results1))
     = List.length (negatives (generateRecommendations CONFIG results2)).
Proof.
  intros Htarget Hperm results1 results2. subst results1 results2.
  pose proof (emitted_negative_cores CONFIG Htarget data1 data2 Hperm)
    as Hcores.
  split; [exact Hcores|].
  apply Permutation_length in Hcores. rewrite !length_map in Hcores.
  unfold generateRecommendations. cbn [negatives].
  rewrite !slice_prefix by (unfold maxResultsPerCategory; lia).
  rewrite !length_firstn, !jsSort_nil_length, Hcores. reflexivity.
Qed.

Lemma negatives_depend_on_counts_witness :
  let CONFIG := defaultConfig in
  let results1 := analyzeAll CONFIG [sampleQueryD; sampleQueryC] in
  let results2 := analyzeAll CONFIG [sampleQueryC; sampleQueryE] in
  Permutation (map negativeCore (snd (classify CONFIG results1)))
              (map negativeCore (snd (classify CONFIG results2)))
  /\ List.length (negatives (generateRecommendations CONFIG results1))
     = List.length (negatives (generateRecommendations CONFIG results2)).
Proof.
  apply (negatives_depend_on_counts defaultConfig
           [sampleQueryD; sampleQueryC] [sampleQueryC; sampleQueryE]).
  - apply Qcle_refl.
  - apply perm_swap.
Defined.
